(** * rnaseq_viz: the classification pipeline of [app.py]

    A shallow embedding of the data-processing part of the Streamlit script
    [src/app.py]: the annotation parser [extract_gene_info], the classifier
    [filter_deseq_data], the hover text of [create_volcano_plot], the
    ingestion steps of the main block (labelling, [dropna],
    classification) and the derived views (statistics row, MA transform,
    box plot, heatmap query, p-value tab, table filters).

    Modelling choices.
    - Python floats are IEEE binary64 numbers: Rocq's primitive [float]. A
      numeric pandas column is a list of such cells, also where pandas would
      hold integers; NaN is the missing-value marker, as in pandas. A cell
      of a text column is a string; an operation that needs a number
      raises on it where pandas raises, and leaves it as it is where pandas
      does ([round]). A column carries no type of its own: what pandas
      decides by the type of a column is decided by its cells.
    - A Python string is a sequence of code points; a string is modelled by
      its UTF-8 encoding, and [s[:n]] and [len(s)] count code points, not
      bytes. The keys of the annotation and [;] are ASCII, so a search on
      the bytes finds what a search on the code points finds.
    - A DataFrame is a mutable object: frames live in a heap and the script's
      variables hold references, so that in-place column assignment
      ([df[c] = ...]) and [df.copy()] can be told apart.
    - Library functions the script calls but does not define ([numpy.log10],
      [numpy.round], [str] and the format [.2e] on a float, the [re] engine
      behind [Series.str.contains], plotly's figures) are parameters of the
      development.
    - Exceptions are outcomes: every operation either returns or raises, and
      the state reached is kept in both cases. *)

From Stdlib Require Import Floats ZArith PArith String Ascii Bool Arith Lia List.
From Stdlib Require Import DecimalString Sorting.Sorted Sorting.Permutation.
From Stdlib Require DecimalNat DecimalFacts.
Import ListNotations.

Set Warnings "-inexact-float".

Open Scope string_scope.
Open Scope list_scope.

(* ================================================================= *)
(** ** Strings *)

(** [s.startswith(key)], returning the remainder. *)
Fixpoint strip_prefix (key s : string) : option string :=
  match key, s with
  | EmptyString, _ => Some s
  | String k key', String c s' =>
      if Ascii.eqb k c then strip_prefix key' s' else None
  | String _ _, EmptyString => None
  end.

(** [sub in s] on Python strings. *)
Fixpoint contains (sub s : string) : bool :=
  match strip_prefix sub s with
  | Some _ => true
  | None =>
      match s with
      | EmptyString => false
      | String _ s' => contains sub s'
      end
  end.

(** [c.lower()] for one ASCII character: the letters [A]..[Z] are moved to
    [a]..[z], every other character is kept. *)
Definition lower_ascii (c : ascii) : ascii :=
  let n := nat_of_ascii c in
  if (65 <=? n)%nat && (n <=? 90)%nat then ascii_of_nat (n + 32) else c.

(** [s.lower()]. *)
Fixpoint lower (s : string) : string :=
  match s with
  | EmptyString => EmptyString
  | String c s' => String (lower_ascii c) (lower s')
  end.

(** In UTF-8 a byte [10xxxxxx] continues the code point that was begun
    before it; every other byte begins one. *)
Definition continuation (c : ascii) : bool :=
  let n := nat_of_ascii c in (128 <=? n)%nat && (n <? 192)%nat.

(** [s[:n]]: the first [n] code points of [s], or all of [s] when it has
    fewer. *)
Fixpoint slice_to (n : nat) (s : string) : string :=
  match s with
  | EmptyString => EmptyString
  | String c s' =>
      if continuation c then String c (slice_to n s')
      else
        match n with
        | O => EmptyString
        | S n' => String c (slice_to n' s')
        end
  end.

(** [str(n)] for a non-negative integer. *)
Definition str_of_nat (n : nat) : string :=
  NilEmpty.string_of_uint (Nat.to_uint n).

(* ================================================================= *)
(** ** The regular expressions of [extract_gene_info]

    All four patterns have the shape [key([^;]+)]: the literal [key], then a
    captured, greedy, non-empty run of characters other than [;]. *)

(** The longest prefix of [s] made of characters other than [;]: what the
    greedy class [[^;]+] consumes. *)
Fixpoint span_value (s : string) : string :=
  match s with
  | EmptyString => EmptyString
  | String c s' =>
      if Ascii.eqb c ";" then EmptyString else String c (span_value s')
  end.

(** An attempt to match [key([^;]+)] at the start of [s]; the result is
    [group(1)]. *)
Definition match_here (key s : string) : option string :=
  match strip_prefix key s with
  | Some rest =>
      match span_value rest with
      | EmptyString => None
      | v => Some v
      end
  | None => None
  end.

(** [re.search(key + '([^;]+)', s)]: the match at the leftmost position
    where one exists; [None] when there is none. *)
Fixpoint re_search (key s : string) : option string :=
  match match_here key s with
  | Some v => Some v
  | None =>
      match s with
      | EmptyString => None
      | String _ s' => re_search key s'
      end
  end.

(* ================================================================= *)
(** ** Cells, frames, state *)

(** A cell of a DataFrame: a float (NaN stands for a missing value) or a
    string. *)
Inductive value : Type :=
| VFloat (x : float)
| VStr (s : string).

(** [pd.isna(v)] on one cell. *)
Definition isna (v : value) : bool :=
  match v with
  | VFloat x => is_nan x
  | VStr _ => false
  end.

Definition is_text (v : value) : bool :=
  match v with
  | VStr _ => true
  | VFloat _ => false
  end.

(** A cell that holds a number, not a missing value. *)
Definition is_number (v : value) : bool :=
  match v with
  | VFloat x => negb (is_nan x)
  | VStr _ => false
  end.

(** A row label: the position given by [read_csv]'s default index, or a
    cell used as the label: by [set_index], or by [read_csv] itself, which
    takes the first column for the labels when the header line is one
    field short, as in a table written by R with its row names. *)
Inductive label : Type :=
| Pos (n : nat)
| Key (v : value).

(** A DataFrame: its row labels and its columns in order, each column a
    list of cells. *)
Record DataFrame : Type := {
  index : list label;
  columns : list (string * list value)
}.

Fixpoint assoc {A : Type} (k : string) (l : list (string * A)) : option A :=
  match l with
  | [] => None
  | (k', a) :: l' => if String.eqb k k' then Some a else assoc k l'
  end.

(** Column assignment on the column list: an existing column is replaced
    where it stands, a new one is appended. *)
Fixpoint assoc_set {A : Type} (k : string) (a : A) (l : list (string * A))
  : list (string * A) :=
  match l with
  | [] => [(k, a)]
  | (k', a') :: l' =>
      if String.eqb k k' then (k, a) :: l' else (k', a') :: assoc_set k a l'
  end.

Definition column_names (df : DataFrame) : list string :=
  map fst (columns df).

(** The cell of column [c] at position [i], when there is one. *)
Definition cell (df : DataFrame) (c : string) (i : nat) : option value :=
  match assoc c (columns df) with
  | Some xs => nth_error xs i
  | None => None
  end.

(** Positional selection ([take]): the elements of [xs] at the positions
    [idx], in the order of [idx]. *)
Fixpoint take {A : Type} (idx : list nat) (xs : list A) : list A :=
  match idx with
  | [] => []
  | i :: idx' =>
      match nth_error xs i with
      | Some x => x :: take idx' xs
      | None => take idx' xs
      end
  end.

Definition take_rows (idx : list nat) (df : DataFrame) : DataFrame :=
  {| index := take idx (index df);
     columns := map (fun c => (fst c, take idx (snd c))) (columns df) |}.

(** [mask.nonzero()]: the positions at which a boolean mask holds, counted
    from [i]. *)
Fixpoint nonzero_from (i : nat) (mask : list bool) : list nat :=
  match mask with
  | [] => []
  | b :: mask' =>
      if b then i :: nonzero_from (S i) mask' else nonzero_from (S i) mask'
  end.

Definition nonzero (mask : list bool) : list nat := nonzero_from 0 mask.

(** What the user interface is told besides the tables: [st.warning]. *)
Inductive ui_event : Type :=
| Warning (msg : string).

Definition ref : Type := nat.

Record state : Type := {
  heap : list DataFrame;
  ui : list ui_event
}.

Inductive exn : Type :=
| KeyError (k : string)
| TypeError
| ValueError
| AttributeError
| ReError
| NameError.

Inductive outcome (A : Type) : Type :=
| Returns (a : A) (s : state)
| Raises (e : exn) (s : state).

Arguments Returns {A} a s.
Arguments Raises {A} e s.

Definition M (A : Type) : Type := state -> outcome A.

Definition ret {A : Type} (a : A) : M A := fun s => Returns a s.

Definition raise {A : Type} (e : exn) : M A := fun s => Raises e s.

Definition bind {A B : Type} (m : M A) (k : A -> M B) : M B :=
  fun s =>
    match m s with
    | Returns a s' => k a s'
    | Raises e s' => Raises e s'
    end.

Notation "x <- m ;; k" := (bind m (fun x => k))
  (at level 61, m at next level, right associativity).
Notation "m ;;; k" := (bind m (fun _ => k))
  (at level 61, right associativity).

(** The state after an outcome, whichever it is. *)
Definition final_state {A : Type} (o : outcome A) : state :=
  match o with
  | Returns _ s => s
  | Raises _ s => s
  end.

(** Replacement of the [r]-th object of the heap. *)
Fixpoint update {A : Type} (r : nat) (a : A) (l : list A) : list A :=
  match l, r with
  | [], _ => []
  | _ :: l', O => a :: l'
  | x :: l', S r' => x :: update r' a l'
  end.

(** A new object on the heap. *)
Definition new_frame (df : DataFrame) : M ref :=
  fun s => Returns (length (heap s))
                   {| heap := heap s ++ [df]; ui := ui s |}.

Definition deref (r : ref) : M DataFrame :=
  fun s =>
    match nth_error (heap s) r with
    | Some df => Returns df s
    | None => Raises NameError s
    end.

Definition assign (r : ref) (df : DataFrame) : M unit :=
  fun s => Returns tt {| heap := update r df (heap s); ui := ui s |}.

(** [st.warning(msg)]. *)
Definition st_warning (msg : string) : M unit :=
  fun s => Returns tt {| heap := heap s; ui := ui s ++ [Warning msg] |}.

(* ================================================================= *)
(** ** pandas and numpy operations *)

(** [df.columns]. *)
Definition df_columns (df : ref) : M (list string) :=
  d <- deref df ;; ret (column_names d).

(** [df.index]. *)
Definition df_index (df : ref) : M (list label) :=
  d <- deref df ;; ret (index d).

(** [df[name]]. *)
Definition getitem (df : ref) (name : string) : M (list value) :=
  d <- deref df ;;
  match assoc name (columns d) with
  | Some xs => ret xs
  | None => raise (KeyError name)
  end.

(** [df[name] = xs], in place; the length must be that of the index. *)
Definition setitem (df : ref) (name : string) (xs : list value) : M unit :=
  d <- deref df ;;
  if (length xs =? length (index d))%nat then
    assign df {| index := index d;
                 columns := assoc_set name xs (columns d) |}
  else raise ValueError.

(** [df.copy()]. *)
Definition copy (df : ref) : M ref :=
  d <- deref df ;; new_frame d.

(** The columns named in [subset], or the first name that is missing. *)
Fixpoint lookup_all (subset : list string) (d : DataFrame)
  : list (list value) + string :=
  match subset with
  | [] => inl []
  | name :: subset' =>
      match assoc name (columns d) with
      | None => inr name
      | Some xs =>
          match lookup_all subset' d with
          | inl xss => inl (xs :: xss)
          | inr missing => inr missing
          end
      end
  end.

(** Row [i] has no missing value in any of the columns [xss]. *)
Definition notna_at (xss : list (list value)) (i : nat) : bool :=
  forallb (fun xs => match nth_error xs i with
                     | Some v => negb (isna v)
                     | None => true
                     end) xss.

(** [df.dropna(subset=subset)]: a new frame with the rows that have no
    missing value in the named columns. *)
Definition dropna (df : ref) (subset : list string) : M ref :=
  d <- deref df ;;
  match lookup_all subset d with
  | inr missing => raise (KeyError missing)
  | inl xss =>
      let mask := map (notna_at xss) (seq 0 (length (index d))) in
      new_frame (take_rows (nonzero mask) d)
  end.

(** [df[mask]] with a boolean mask: a new frame. *)
Definition getitem_mask (df : ref) (mask : list bool) : M ref :=
  d <- deref df ;; new_frame (take_rows (nonzero mask) d).

(** [df[names]] with a list of column names: a new frame. *)
Definition getitem_list (df : ref) (names : list string) : M ref :=
  d <- deref df ;;
  match lookup_all names d with
  | inr missing => raise (KeyError missing)
  | inl xss => new_frame {| index := index d; columns := combine names xss |}
  end.

(** [df.set_index(name)]: a new frame labelled by the cells of that
    column, which leaves the columns. *)
Definition set_index (df : ref) (name : string) : M ref :=
  d <- deref df ;;
  match assoc name (columns d) with
  | None => raise (KeyError name)
  | Some xs =>
      new_frame
        {| index := map Key xs;
           columns := filter (fun c => negb (String.eqb (fst c) name))
                             (columns d) |}
  end.

(** A comparison of a column with a number, cell by cell; a string cell
    cannot be compared with a float. *)
Fixpoint series_cmp (op : float -> float -> bool) (xs : list value)
  (k : float) : M (list bool) :=
  match xs with
  | [] => ret []
  | VFloat x :: xs' => bs <- series_cmp op xs' k ;; ret (op x k :: bs)
  | VStr _ :: _ => raise TypeError
  end.

(** [xs < k], [xs >= k], [xs <= k]. *)
Definition series_lt := series_cmp PrimFloat.ltb.
Definition series_ge := series_cmp (fun x k => PrimFloat.leb k x).
Definition series_le := series_cmp PrimFloat.leb.

(** [a & b] on boolean columns. *)
Definition series_and (a b : list bool) : list bool :=
  map (fun p : bool * bool => fst p && snd p) (combine a b).

(** [xs == s] for a string [s]. *)
Definition series_eq_str (xs : list value) (s : string) : list bool :=
  map (fun v => match v with
                | VStr t => String.eqb t s
                | VFloat _ => false
                end) xs.

(** [np.select(condlist, choicelist, default)] on columns of length [n]:
    the choice of the first condition that holds, else the default. *)
Fixpoint np_select_n {A : Type} (condlist : list (list bool))
  (choicelist : list A) (default : A) (n : nat) : list A :=
  match condlist, choicelist with
  | cond :: condlist', choice :: choicelist' =>
      map (fun p : bool * A => if fst p then choice else snd p)
          (combine cond (np_select_n condlist' choicelist' default n))
  | _, _ => repeat default n
  end.

Definition np_select {A : Type} (condlist : list (list bool))
  (choicelist : list A) (default : A) : list A :=
  np_select_n condlist choicelist default (length (hd [] condlist)).

(** [xs.replace(a, b)] for numbers [a] and [b]. *)
Definition series_replace (a b : float) (xs : list value) : list value :=
  map (fun v => match v with
                | VFloat x => if PrimFloat.eqb x a then VFloat b else v
                | VStr _ => v
                end) xs.

(** [-xs]. *)
Fixpoint series_neg (xs : list value) : M (list value) :=
  match xs with
  | [] => ret []
  | VFloat x :: xs' => ys <- series_neg xs' ;; ret (VFloat (- x) :: ys)
  | VStr _ :: _ => raise TypeError
  end.

(** The order of [nsmallest]: ascending, NaN after every number. *)
Definition nan_last_leb (a b : float) : bool :=
  is_nan b || PrimFloat.leb a b.

Fixpoint insert_by_key (x : float * nat) (l : list (float * nat))
  : list (float * nat) :=
  match l with
  | [] => [x]
  | y :: l' =>
      if nan_last_leb (fst x) (fst y) then x :: l
      else y :: insert_by_key x l'
  end.

(** A stable sort of keyed positions: of two equal keys the one that came
    first stays first. *)
Definition sort_by_key (l : list (float * nat)) : list (float * nat) :=
  fold_right insert_by_key [] l.

(** The positions of [keys] in ascending order of the key. *)
Definition argsort (keys : list float) : list nat :=
  map snd (sort_by_key (combine keys (seq 0 (length keys)))).

(** The floats of a numeric column; [None] when a cell is a string. *)
Fixpoint floats_of (xs : list value) : option (list float) :=
  match xs with
  | [] => Some []
  | VFloat x :: xs' =>
      match floats_of xs' with
      | Some fs => Some (x :: fs)
      | None => None
      end
  | VStr _ :: _ => None
  end.

(** [df.nsmallest(n, name)]: a new frame with the first [n] rows in
    ascending order of the column, ties in their original order. *)
Definition nsmallest (df : ref) (n : nat) (name : string) : M ref :=
  d <- deref df ;;
  match assoc name (columns d) with
  | None => raise (KeyError name)
  | Some xs =>
      match floats_of xs with
      | None => raise TypeError
      | Some keys => new_frame (take_rows (firstn n (argsort keys)) d)
      end
  end.

(** [len(df)]. *)
Definition df_len (df : ref) : M nat :=
  d <- deref df ;; ret (length (index d)).

(** [xs.dropna()] on a column. *)
Definition series_dropna (xs : list value) : list value :=
  filter (fun v => negb (isna v)) xs.

(** Python's [a + b] on two cells: text is concatenated, numbers are
    added, and text and a number cannot be added. *)
Definition py_add (a b : value) : M value :=
  match a, b with
  | VStr s, VStr t => ret (VStr (String.append s t))
  | VFloat x, VFloat y => ret (VFloat (x + y))
  | _, _ => raise TypeError
  end.

(** [xs + ys] on two columns of one frame that hold objects, as text
    columns do: where either cell is missing the result is missing,
    elsewhere it is [a + b]. *)
Fixpoint series_add (xs ys : list value) : M (list value) :=
  match xs, ys with
  | x :: xs', y :: ys' =>
      z <- (if isna x || isna y then ret (VFloat nan) else py_add x y) ;;
      zs <- series_add xs' ys' ;;
      ret (z :: zs)
  | _, _ => ret []
  end.

(** [s + xs] and [xs + s] for a string [s]. *)
Definition str_radd (s : string) (xs : list value) : M (list value) :=
  series_add (map (fun _ => VStr s) xs) xs.

Definition str_add (xs : list value) (s : string) : M (list value) :=
  series_add xs (map (fun _ => VStr s) xs).

(** A [for] loop that collects what each round builds. *)
Fixpoint for_each {A B : Type} (body : A -> M B) (l : list A) : M (list B) :=
  match l with
  | [] => ret []
  | a :: l' => b <- body a ;; bs <- for_each body l' ;; ret (b :: bs)
  end.

(** What [go.Box(y=..., name=..., marker_color=...)] is given. *)
Record box_trace : Type := {
  trace_y : list value;
  trace_name : string;
  trace_marker_color : string
}.

(* ================================================================= *)
(** ** The script *)

Section Script.

(** [numpy.log10] on one float. *)
Variable np_log10 : float -> float.

(** [str(x)] for a float [x]. *)
Variable str_of_float : float -> string.

(** The [re] engine behind [Series.str.contains(pat, case=False)]:
    whether [pat] compiles, and whether it is found in a string. *)
Variable re_compiles : string -> bool.
Variable re_found_nocase : string -> string -> bool.

(** [numpy.round] to a number of decimals, and the format [f'{x:.2e}'],
    on one float. *)
Variable np_round : nat -> float -> float.
Variable format_2e : float -> string.

(** plotly's figures are opaque. [volcano_figure] stands for lines 89-124:
    [px.scatter] on the frame with the three colours, then the horizontal
    line at the given level with its annotation, the two vertical lines
    and the layout with the given width and height; like every library
    call it may raise. *)
Variable Figure : Type.
Variable volcano_figure :
  DataFrame -> string -> string -> string -> float -> string ->
  float -> float -> nat -> nat -> exn + Figure.

(** [np.log10(xs)]. *)
Fixpoint series_log10 (xs : list value) : M (list value) :=
  match xs with
  | [] => ret []
  | VFloat x :: xs' =>
      ys <- series_log10 xs' ;; ret (VFloat (np_log10 x) :: ys)
  | VStr _ :: _ => raise TypeError
  end.

(** [str(v)] for a cell. *)
Definition py_str (v : value) : string :=
  match v with
  | VStr s => s
  | VFloat x => str_of_float x
  end.

(** [index.astype(str)]. *)
Definition label_str (l : label) : string :=
  match l with
  | Pos n => str_of_nat n
  | Key v => py_str v
  end.

(** [xs.str.contains(pat, case=False, na=False)]. A column that holds
    numbers and no text stands for a numeric column, which the accessor
    [.str] refuses (AttributeError); every other column stands for a
    column of objects, as the text columns are that the script builds, a
    column without cells among them. Then the pattern is compiled. A cell
    that is not text gives a missing value, which [na=False] turns into
    [False]. *)
Definition str_contains (xs : list value) (pat : string) : M (list bool) :=
  if existsb is_number xs && negb (existsb is_text xs) then
    raise AttributeError
  else if re_compiles pat then
    ret (map (fun v => match v with
                       | VStr s => re_found_nocase pat s
                       | VFloat _ => false
                       end) xs)
  else raise ReError.

(** [xs.astype(str)]: a missing cell stays missing, every other cell
    becomes its text. *)
Definition astype_str (xs : list value) : list value :=
  map (fun v => if isna v then v else VStr (py_str v)) xs.

(** [xs.round(decimals)]: the numbers are rounded, text is left as it
    is. *)
Definition series_round (decimals : nat) (xs : list value) : list value :=
  map (fun v => match v with
                | VFloat x => VFloat (np_round decimals x)
                | VStr _ => v
                end) xs.

(** [xs.apply(lambda x: f'{x:.2e}')]: the format code [e] does not apply
    to text (ValueError). *)
Fixpoint apply_format_2e (xs : list value) : M (list value) :=
  match xs with
  | [] => ret []
  | VFloat x :: xs' =>
      ys <- apply_format_2e xs' ;; ret (VStr (format_2e x) :: ys)
  | VStr _ :: _ => raise ValueError
  end.

(** Lines 36-61. *)
Definition extract_gene_info (attributes_str : value) : string * string :=
  let gene_name := "Unknown" in
  let locus_tag := "Unknown" in
  if isna attributes_str then (gene_name, locus_tag)
  else
    let gene_match := re_search "gene=" (py_str attributes_str) in
    let gene_name :=
      match gene_match with
      | Some g => g
      | None => gene_name
      end in
    let locus_match := re_search "locus_tag=" (py_str attributes_str) in
    let locus_tag :=
      match locus_match with
      | Some l => l
      | None => locus_tag
      end in
    let gene_name :=
      if String.eqb gene_name "Unknown" then
        match re_search "Name=" (py_str attributes_str) with
        | Some n => n
        | None =>
            match re_search "product=" (py_str attributes_str) with
            | Some p => slice_to 30 p
            | None => gene_name
            end
        end
      else gene_name in
    (gene_name, locus_tag).

(** Lines 63-76. *)
Definition filter_deseq_data (df : ref)
  (padj_threshold log2fc_up log2fc_down : float) : M ref :=
  df_copy <- copy df ;;
  padj <- getitem df_copy "padj" ;;
  sig_a <- series_lt padj padj_threshold ;;
  lfc <- getitem df_copy "log2FoldChange" ;;
  up <- series_ge lfc log2fc_up ;;
  padj <- getitem df_copy "padj" ;;
  sig_b <- series_lt padj padj_threshold ;;
  lfc <- getitem df_copy "log2FoldChange" ;;
  down <- series_le lfc log2fc_down ;;
  let conditions := [series_and sig_a up; series_and sig_b down] in
  let choices := [VStr "Upregulated"; VStr "Downregulated"] in
  setitem df_copy "Significance"
          (np_select conditions choices (VStr "Not Significant")) ;;;
  padj <- getitem df_copy "padj" ;;
  logs <- series_log10 (series_replace 0 1e-300 padj) ;;
  neg_logs <- series_neg logs ;;
  setitem df_copy "-log10(padj)" neg_logs ;;;
  ret df_copy.

(** Lines 78-126. The sum of line 81 is evaluated from left to right, each
    column being read when its turn comes; the column [hover_text] is
    assigned on the frame that was passed in. *)
Definition create_volcano_plot (df : ref)
  (color_up color_down color_ns : string)
  (padj_threshold log2fc_up log2fc_down : float) (width height : nat)
  : M Figure :=
  gene_name <- getitem df "gene_name" ;;
  text <- str_radd "<b>" gene_name ;;
  text <- str_add text "</b><br>" ;;
  text <- str_add text "Locus: " ;;
  locus_tag <- getitem df "locus_tag" ;;
  text <- series_add text locus_tag ;;
  text <- str_add text "<br>" ;;
  text <- str_add text "log2FC: " ;;
  lfc <- getitem df "log2FoldChange" ;;
  let rounded := series_round 3 lfc in
  text <- series_add text (astype_str rounded) ;;
  text <- str_add text "<br>" ;;
  text <- str_add text "padj: " ;;
  padj <- getitem df "padj" ;;
  formatted <- apply_format_2e padj ;;
  text <- series_add text formatted ;;
  text <- str_add text "<br>" ;;
  text <- str_add text "Significance: " ;;
  sig <- getitem df "Significance" ;;
  text <- series_add text sig ;;
  setitem df "hover_text" text ;;;
  d <- deref df ;;
  match volcano_figure d color_up color_down color_ns
          (- np_log10 padj_threshold)
          (String.append "padj = " (str_of_float padj_threshold))
          log2fc_up log2fc_down width height with
  | inr fig => ret fig
  | inl e => raise e
  end.

(** Lines 184-190: the gene labels. With an [Attributes] column each row
    is parsed; [apply] on a column without rows gives an empty Series,
    which the two-column assignment refuses. Without the column the row
    labels are used and a warning is shown. *)
Definition extract_gene_information (df : ref) : M unit :=
  cols <- df_columns df ;;
  if existsb (String.eqb "Attributes") cols then
    attributes <- getitem df "Attributes" ;;
    let info := map extract_gene_info attributes in
    match info with
    | [] => raise ValueError
    | _ =>
        setitem df "gene_name" (map (fun p => VStr (fst p)) info) ;;;
        setitem df "locus_tag" (map (fun p => VStr (snd p)) info)
    end
  else
    st_warning
      "'Attributes' column not found. Using row indices for labels." ;;;
    idx <- df_index df ;;
    setitem df "gene_name" (map (fun l => VStr (label_str l)) idx) ;;;
    idx <- df_index df ;;
    setitem df "locus_tag" (map (fun l => VStr (label_str l)) idx).

(** Lines 183-196: from the loaded frame to the annotated table. *)
Definition main_content (df : ref)
  (padj_threshold log2fc_up log2fc_down : float) : M ref :=
  extract_gene_information df ;;;
  df <- dropna df ["log2FoldChange"; "padj"] ;;
  filter_deseq_data df padj_threshold log2fc_up log2fc_down.

(** Lines 199-207: the four numbers of the statistics row. *)
Definition metrics (df_filtered : ref) : M (nat * nat * nat * nat) :=
  total <- df_len df_filtered ;;
  sig <- getitem df_filtered "Significance" ;;
  rows <- getitem_mask df_filtered (series_eq_str sig "Upregulated") ;;
  upregulated <- df_len rows ;;
  sig <- getitem df_filtered "Significance" ;;
  rows <- getitem_mask df_filtered (series_eq_str sig "Downregulated") ;;
  downregulated <- df_len rows ;;
  sig <- getitem df_filtered "Significance" ;;
  rows <- getitem_mask df_filtered (series_eq_str sig "Not Significant") ;;
  not_significant <- df_len rows ;;
  ret (total, upregulated, downregulated, not_significant).

(** Lines 244-245: the MA plot's x axis. *)
Definition ma_plot_data (df_filtered : ref) : M unit :=
  cols <- df_columns df_filtered ;;
  if existsb (String.eqb "baseMean") cols then
    base_mean <- getitem df_filtered "baseMean" ;;
    logs <- series_log10 (series_replace 0 1e-10 base_mean) ;;
    setitem df_filtered "log10(baseMean)" logs
  else ret tt.

(** Lines 272-279: the traces of the box plot. *)
Definition box_plot_data (df_filtered : ref)
  (color_up color_down color_ns : string) : M (list box_trace) :=
  for_each
    (fun sig_type =>
       sig <- getitem df_filtered "Significance" ;;
       rows <- getitem_mask df_filtered (series_eq_str sig sig_type) ;;
       data <- getitem rows "log2FoldChange" ;;
       ret {| trace_y := data;
              trace_name := sig_type;
              trace_marker_color :=
                if String.eqb sig_type "Upregulated" then color_up
                else if String.eqb sig_type "Downregulated" then color_down
                else color_ns |})
    ["Upregulated"; "Not Significant"; "Downregulated"].

(** Line 298. Python lowers the letters outside ASCII as well, but none
    of them becomes part of the word [countings], so lowering the ASCII
    letters decides the test. *)
Definition count_cols (cols : list string) : list string :=
  filter (fun col => contains "countings" (lower col)) cols.

(** Lines 298-306: the heatmap's data for the [n_genes] rows of smallest
    [padj], when there are count columns. *)
Definition heatmap_data (df_filtered : ref) (n_genes : nat)
  : M (option ref) :=
  cols <- df_columns df_filtered ;;
  let count_cols := count_cols cols in
  if (0 <? length count_cols)%nat then
    top_genes <- nsmallest df_filtered n_genes "padj" ;;
    selected <- getitem_list top_genes (count_cols ++ ["gene_name"]) ;;
    count_data <- set_index selected "gene_name" ;;
    ret (Some count_data)
  else
    st_warning "No count columns found in the dataset." ;;;
    ret None.

(** Lines 333 and 353: the values of the histogram and the sample of the
    Q-Q plot. *)
Definition pvalue_data (df_filtered : ref) : M (list value * list value) :=
  x <- getitem df_filtered "padj" ;;
  padj <- getitem df_filtered "padj" ;;
  let pvalues := series_dropna padj in
  ret (x, pvalues).

(** Lines 376-380: the table view. *)
Definition display_table (df_filtered : ref)
  (show_sig search_term : string) : M ref :=
  display_df <- copy df_filtered ;;
  display_df <-
    (if negb (String.eqb show_sig "All") then
       sig <- getitem display_df "Significance" ;;
       getitem_mask display_df (series_eq_str sig show_sig)
     else ret display_df) ;;
  display_df <-
    (if negb (String.eqb search_term "") then
       names <- getitem display_df "gene_name" ;;
       mask <- str_contains names search_term ;;
       getitem_mask display_df mask
     else ret display_df) ;;
  ret display_df.

End Script.

(* ================================================================= *)
(** ** Vocabulary of the statements *)

Notation "a +++ b" := (String.append a b)
  (at level 60, right associativity).

(** [v] has no [;]. *)
Definition semicolon_free (v : string) : Prop :=
  forall a b, v <> a +++ String ";" b.

(** [post] is what may follow a value: the end of the string, or a [;]. *)
Definition value_end (post : string) : Prop :=
  post = "" \/ exists r, post = String ";" r.

(** [key] stands in [s] right after [pre], followed by the non-empty value
    [v], which runs up to the next [;] or to the end of [s]. *)
Definition occurrence (key s pre v post : string) : Prop :=
  s = pre +++ key +++ v +++ post /\
  v <> "" /\ semicolon_free v /\ value_end post.

(** What a search for [key] finds in [s]: the value of the leftmost
    occurrence, or nothing when there is no occurrence. *)
Definition token (key s : string) (found : option string) : Prop :=
  match found with
  | Some v =>
      exists pre post,
        occurrence key s pre v post /\
        forall pre' v' post',
          occurrence key s pre' v' post' ->
          String.length pre <= String.length pre'
  | None => forall pre v post, ~ occurrence key s pre v post
  end.

(** [len(s)]: the number of code points of [s]. *)
Fixpoint code_points (s : string) : nat :=
  match s with
  | EmptyString => 0
  | String c s' =>
      if continuation c then code_points s' else S (code_points s')
  end.

(** [s] is empty or begins with the first byte of a code point: a string
    cut before [s] is not cut inside a character. *)
Definition starts_code_point (s : string) : Prop :=
  match s with
  | EmptyString => True
  | String c _ => continuation c = false
  end.

(** The frame a returned reference points to. *)
Definition table_of (o : outcome ref) : option DataFrame :=
  match o with
  | Returns r s => nth_error (heap s) r
  | Raises _ _ => None
  end.

(** Column [name] of [d] is numeric, with the floats [xs], one per row. *)
Definition numeric_column (d : DataFrame) (name : string) (xs : list float)
  : Prop :=
  assoc name (columns d) = Some (map VFloat xs) /\
  length xs = length (index d).

(** The classifier read row by row: the label that the two conditions and
    [np.select] give to a row with adjusted p-value [p] and log2 fold
    change [l]. *)
Definition significance_label (thr up down p l : float) : string :=
  if PrimFloat.ltb p thr && PrimFloat.leb up l then "Upregulated"
  else if PrimFloat.ltb p thr && PrimFloat.leb l down then "Downregulated"
  else "Not Significant".

(** Likewise the [-log10(padj)] cell of a row: zero is replaced, the
    logarithm taken and negated. *)
Definition neg_log10_padj (np_log10 : float -> float) (p : float) : float :=
  (- np_log10 (if PrimFloat.eqb p 0 then 1e-300 else p))%float.

(** The table the classifier builds from [d]. *)
Definition annotated (np_log10 : float -> float) (thr up down : float)
  (d : DataFrame) (ps ls : list float) : DataFrame :=
  {| index := index d;
     columns :=
       assoc_set "-log10(padj)"
         (map (fun p => VFloat (neg_log10_padj np_log10 p)) ps)
         (assoc_set "Significance"
            (map (fun pl : float * float =>
                    VStr (significance_label thr up down (fst pl) (snd pl)))
                 (combine ps ls))
            (columns d)) |}.

(** The [max(a, b)] of the specification's formula
    [-log10(max(adjusted_p_value, EPSILON))]: Python's [max] on two
    floats. *)
Definition float_max (a b : float) : float :=
  if PrimFloat.ltb a b then b else a.

(** What is assumed of [numpy.log10]: its value at [1e-300], and that it is
    below that value on the positive numbers up to [1e-301]. *)
Record log10_contract (np_log10 : float -> float) : Prop := {
  log10_1e_300 : np_log10 1e-300%float = (-300)%float;
  log10_tiny :
    forall x, PrimFloat.ltb 0 x = true -> PrimFloat.leb x 1e-301 = true ->
              PrimFloat.ltb (np_log10 x) (-300)%float = true
}.

(** A function that meets [log10_contract], to show that the contract can
    be met and to run the examples; it is a step function, not numpy's
    logarithm. *)
Definition log10_steps (x : float) : float :=
  if is_nan x then nan
  else if PrimFloat.ltb x 0 then nan
  else if PrimFloat.eqb x 0 then neg_infinity
  else if PrimFloat.leb x 1e-301 then (-301)%float
  else if PrimFloat.ltb x 1 then (-300)%float
  else 0%float.

(** The rows of the specification's examples, two rows on the boundaries
    of the conditions, and a row with a zero p-value. *)
Definition example_frame : DataFrame :=
  {| index := [Pos 0; Pos 1; Pos 2; Pos 3; Pos 4; Pos 5];
     columns :=
       [("log2FoldChange",
         [VFloat 2.5; VFloat (-3); VFloat 0.2; VFloat 1; VFloat 1; VFloat 0]);
        ("padj",
         [VFloat 0.001; VFloat 0.0001; VFloat 0.2; VFloat 0.05; VFloat 0.01;
          VFloat 0])] |}.

Definition example_state : state :=
  {| heap := [example_frame]; ui := [] |}.

(** One row whose p-value is positive and below [1e-300]. *)
Definition tiny_padj_frame : DataFrame :=
  {| index := [Pos 0];
     columns := [("log2FoldChange", [VFloat 0]); ("padj", [VFloat 1e-310])] |}.

(** An input that already has a column named [Significance]. *)
Definition relabelled_frame : DataFrame :=
  {| index := [Pos 0];
     columns := [("log2FoldChange", [VFloat 0]); ("padj", [VFloat 0.5]);
                 ("Significance", [VStr "curated"])] |}.

(** Row [i] of [d] has both required values: neither [log2FoldChange] nor
    [padj] is missing there. *)
Definition complete_row (d : DataFrame) (i : nat) : bool :=
  match cell d "log2FoldChange" i, cell d "padj" i with
  | Some l, Some p => negb (isna l) && negb (isna p)
  | _, _ => false
  end.

(** The positions of the rows of [d] that have both required values, in
    increasing order. *)
Definition complete_rows (d : DataFrame) : list nat :=
  filter (complete_row d) (seq 0 (length (index d))).

(** [d] with its two label columns set. *)
Definition labelled (d : DataFrame) (gene locus : list value) : DataFrame :=
  {| index := index d;
     columns := assoc_set "locus_tag" locus
                  (assoc_set "gene_name" gene (columns d)) |}.

(** The text of the warning of line 188. *)
Definition attributes_warning : string :=
  "'Attributes' column not found. Using row indices for labels.".

(** The labels the labelling step computes: parsed from [Attributes] when
    the column exists, the row labels as strings otherwise. *)
Definition gene_labels (str_of_float : float -> string) (d : DataFrame)
  : list value * list value :=
  match assoc "Attributes" (columns d) with
  | Some attributes =>
      (map (fun a => VStr (fst (extract_gene_info str_of_float a)))
           attributes,
       map (fun a => VStr (snd (extract_gene_info str_of_float a)))
           attributes)
  | None =>
      (map (fun l => VStr (label_str str_of_float l)) (index d),
       map (fun l => VStr (label_str str_of_float l)) (index d))
  end.

(** An [Attributes] column, when there is one, has a cell per row and at
    least one row. *)
Definition labels_ready (d : DataFrame) : Prop :=
  forall attributes,
    assoc "Attributes" (columns d) = Some attributes ->
    attributes <> [] /\ length attributes = length (index d).

(** The value of a decimal digit. *)
Definition digit (c : ascii) : option nat :=
  let n := nat_of_ascii c in
  if (48 <=? n)%nat && (n <=? 57)%nat then Some (n - 48) else None.

(** The number that a string of decimal digits writes, read from the
    left, [acc] being the number read so far. *)
Fixpoint decimal_from (acc : nat) (s : string) : option nat :=
  match s with
  | EmptyString => Some acc
  | String c s' =>
      match digit c with
      | Some k => decimal_from (10 * acc + k) s'
      | None => None
      end
  end.

Definition decimal (s : string) : option nat :=
  match s with
  | EmptyString => None
  | _ => decimal_from 0 s
  end.

(** [s] is the number [n] written in decimal: digits only, at least one,
    and no zero in front of another digit. *)
Definition canonical_decimal (s : string) (n : nat) : Prop :=
  decimal s = Some n /\ forall s', s = String "0" s' -> s' = "".



(** A loaded file without [Attributes]; two of its rows miss a value. *)
Definition unlabelled_frame : DataFrame :=
  {| index := [Pos 0; Pos 1; Pos 2; Pos 3];
     columns :=
       [("log2FoldChange",
         [VFloat 2.5; VFloat nan; VFloat (-3); VFloat 0.2]);
        ("padj", [VFloat 0.001; VFloat 0.5; VFloat 0.0001; VFloat nan]);
        ("baseMean", [VFloat 120; VFloat 0; VFloat 33; VFloat 8])] |}.

(** A loaded file with [Attributes]; its last row misses a value. *)
Definition annotated_gff_frame : DataFrame :=
  {| index := [Pos 0; Pos 1; Pos 2];
     columns :=
       [("Attributes",
         [VStr "ID=gene1;gene=dnaA;locus_tag=b0001"; VFloat nan;
          VStr "ID=gene3;Name=thrL"]);
        ("log2FoldChange", [VFloat 2.5; VFloat (-3); VFloat nan]);
        ("padj", [VFloat 0.001; VFloat 0.0001; VFloat 0.2])] |}.

(** The rows, each given by its adjusted p-value and its fold change, to
    which the classifier gives the label [lbl], in the order of the
    table. *)
Definition rows_labelled (thr up down : float) (lbl : string)
  (ps ls : list float) : list (float * float) :=
  filter (fun pl : float * float =>
            String.eqb (significance_label thr up down (fst pl) (snd pl)) lbl)
         (combine ps ls).

(** Every column of [d] has a cell for each row. *)
Definition well_formed (d : DataFrame) : Prop :=
  Forall (fun c : string * list value => length (snd c) = length (index d))
         (columns d).

(** Whether the table view shows a row, given its [Significance] cell and
    its [gene_name] cell: the category is ["All"] or the cell is that
    category, and the search text is empty or is found in the name. *)
Definition category_shown (show_sig : string) (sig : option value) : bool :=
  String.eqb show_sig "All" ||
  match sig with
  | Some (VStr s) => String.eqb s show_sig
  | _ => false
  end.

Definition search_shown (re_found_nocase : string -> string -> bool)
  (search_term : string) (gene_name : option value) : bool :=
  String.eqb search_term "" ||
  match gene_name with
  | Some (VStr g) => re_found_nocase search_term g
  | _ => false
  end.

(** The positions of the rows of [d] that the table view shows, in
    increasing order. *)
Definition shown_rows (re_found_nocase : string -> string -> bool)
  (show_sig search_term : string) (d : DataFrame) : list nat :=
  filter (fun i => category_shown show_sig (cell d "Significance" i) &&
                   search_shown re_found_nocase search_term
                                (cell d "gene_name" i))
         (seq 0 (length (index d))).

(** A row of the annotated table, as the volcano plot reads it. *)
Record volcano_row : Type := {
  row_gene_name : string;
  row_locus_tag : string;
  row_log2fc : float;
  row_padj : float;
  row_significance : string
}.

(** The five columns that the volcano plot reads list the rows [rows]:
    [gene_name], [locus_tag] and [Significance] are text,
    [log2FoldChange] and [padj] are numbers. *)
Definition volcano_rows (d : DataFrame) (rows : list volcano_row) : Prop :=
  length rows = length (index d) /\
  assoc "gene_name" (columns d)
  = Some (map (fun r => VStr (row_gene_name r)) rows) /\
  assoc "locus_tag" (columns d)
  = Some (map (fun r => VStr (row_locus_tag r)) rows) /\
  assoc "log2FoldChange" (columns d)
  = Some (map (fun r => VFloat (row_log2fc r)) rows) /\
  assoc "padj" (columns d)
  = Some (map (fun r => VFloat (row_padj r)) rows) /\
  assoc "Significance" (columns d)
  = Some (map (fun r => VStr (row_significance r)) rows).

(** The hover text of a row. *)
Definition hover_text_of (str_of_float : float -> string)
  (np_round : nat -> float -> float) (format_2e : float -> string)
  (r : volcano_row) : string :=
  "<b>" +++ row_gene_name r +++ "</b><br>" +++
  "Locus: " +++ row_locus_tag r +++ "<br>" +++
  "log2FC: " +++ str_of_float (np_round 3 (row_log2fc r)) +++ "<br>" +++
  "padj: " +++ format_2e (row_padj r) +++ "<br>" +++
  "Significance: " +++ row_significance r.

(** The [hover_text] cell of a row: its hover text, or a missing value
    when the rounded fold change is not a number. *)
Definition hover_text_cell (str_of_float : float -> string)
  (np_round : nat -> float -> float) (format_2e : float -> string)
  (r : volcano_row) : value :=
  if is_nan (np_round 3 (row_log2fc r)) then VFloat nan
  else VStr (hover_text_of str_of_float np_round format_2e r).

(** [d] with the column [hover_text] set. *)
Definition with_hover_text (str_of_float : float -> string)
  (np_round : nat -> float -> float) (format_2e : float -> string)
  (d : DataFrame) (rows : list volcano_row) : DataFrame :=
  {| index := index d;
     columns :=
       assoc_set "hover_text"
         (map (hover_text_cell str_of_float np_round format_2e) rows)
         (columns d) |}.

(** An annotated table of four genes, and its rows. *)
Definition table_example : DataFrame :=
  {| index := [Pos 0; Pos 2; Pos 3; Pos 5];
     columns :=
       [("baseMean", [VFloat 120; VFloat 0; VFloat 33; VFloat 8]);
        ("log2FoldChange", [VFloat 2.5; VFloat (-3); VFloat 1.5; VFloat 0.2]);
        ("padj", [VFloat 0.001; VFloat 0.0001; VFloat 0.01; VFloat 0.2]);
        ("gene_name", [VStr "thrL"; VStr "dnaA"; VStr "thrA"; VStr "talB"]);
        ("locus_tag",
         [VStr "b0001"; VStr "b3702"; VStr "b0002"; VStr "b0008"]);
        ("Significance",
         [VStr "Upregulated"; VStr "Downregulated"; VStr "Upregulated";
          VStr "Not Significant"]);
        ("-log10(padj)", [VFloat 3; VFloat 4; VFloat 2; VFloat 0.7])] |}.

Definition table_example_rows : list volcano_row :=
  [{| row_gene_name := "thrL"; row_locus_tag := "b0001";
      row_log2fc := 2.5; row_padj := 0.001;
      row_significance := "Upregulated" |};
   {| row_gene_name := "dnaA"; row_locus_tag := "b3702";
      row_log2fc := -3; row_padj := 0.0001;
      row_significance := "Downregulated" |};
   {| row_gene_name := "thrA"; row_locus_tag := "b0002";
      row_log2fc := 1.5; row_padj := 0.01;
      row_significance := "Upregulated" |};
   {| row_gene_name := "talB"; row_locus_tag := "b0008";
      row_log2fc := 0.2; row_padj := 0.2;
      row_significance := "Not Significant" |}].

(** A search by plain text, for the examples: the text is found when it
    stands in the name, whatever the case of the letters. *)
Definition found_nocase (pat s : string) : bool :=
  contains (lower pat) (lower s).

(** A loaded file without a [padj] column. *)
Definition no_padj_frame : DataFrame :=
  {| index := [Pos 0; Pos 1];
     columns := [("log2FoldChange", [VFloat 1.5; VFloat (-2)]);
                 ("baseMean", [VFloat 10; VFloat 20])] |}.

(** A loaded file whose [padj] column was read as text; its second row
    misses the fold change. *)
Definition text_padj_frame : DataFrame :=
  {| index := [Pos 0; Pos 1];
     columns := [("log2FoldChange", [VFloat 1.5; VFloat nan]);
                 ("padj", [VStr "<0.001"; VStr "n/a"])] |}.

(** A loaded file with its header line and no rows, with and without an
    [Attributes] column. *)
Definition empty_gff_frame : DataFrame :=
  {| index := [];
     columns := [("Attributes", []); ("log2FoldChange", []); ("padj", [])]
  |}.

Definition empty_frame : DataFrame :=
  {| index := []; columns := [("log2FoldChange", []); ("padj", [])] |}.

(** [s'] has the frames of [s], unchanged, possibly followed by new ones,
    and the same user-interface events. *)
Definition heap_extends (s s' : state) : Prop :=
  (exists extra, heap s' = heap s ++ extra) /\ ui s' = ui s.

(** An operation that, whether it returns or raises, only adds objects. *)
Definition allocates_only {A : Type} (m : M A) : Prop :=
  forall s, heap_extends s (final_state (m s)).

(** An operation that, whether it returns or raises, changes no frame
    other than the one at [r], allocates nothing and tells the user
    interface nothing. *)
Definition touches_only {A : Type} (r : ref) (m : M A) : Prop :=
  forall s,
    length (heap (final_state (m s))) = length (heap s) /\
    ui (final_state (m s)) = ui s /\
    forall r', r' <> r ->
               nth_error (heap (final_state (m s))) r' = nth_error (heap s) r'.

(** The order of [nsmallest] on keyed positions. *)
Definition key_le (x y : float * nat) : Prop :=
  nan_last_leb (fst x) (fst y) = true.

(** The same order with ties broken by position: of two positions with
    equal keys the smaller comes first. *)
Definition stable_le (x y : float * nat) : Prop :=
  key_le x y /\ (key_le y x -> snd x < snd y).

(** Column [c] of [d], empty when [d] has no such column. *)
Definition column_or_empty (d : DataFrame) (c : string) : list value :=
  match assoc c (columns d) with
  | Some xs => xs
  | None => []
  end.

(** The text of the warning of line 326. *)
Definition no_count_columns_warning : string :=
  "No count columns found in the dataset.".

(** An annotated table with two count columns, a column whose name merely
    resembles one, and two rows with the same [padj]. *)
Definition counts_frame : DataFrame :=
  {| index := [Pos 0; Pos 1; Pos 3; Pos 4];
     columns :=
       [("padj", [VFloat 0.03; VFloat 0.001; VFloat 0.2; VFloat 0.001]);
        ("log2FoldChange", [VFloat 1.5; VFloat (-2); VFloat 0.1; VFloat 3]);
        ("wt_1 Countings", [VFloat 10; VFloat 250; VFloat 31; VFloat 7]);
        ("accounting_id", [VStr "a"; VStr "b"; VStr "c"; VStr "d"]);
        ("KO_COUNTINGS", [VFloat 12; VFloat 20; VFloat 30; VFloat 90]);
        ("gene_name", [VStr "thrL"; VStr "dnaA"; VStr "yaaX"; VStr "talB"])]
  |}.

(* ================================================================= *)
(** * Properties *)

(** ** Strings *)

Lemma append_inv_head (a b c : string) : a +++ b = a +++ c -> b = c.
Proof.
  induction a as [|x a IH]; simpl; intros H; [assumption|].
  injection H as H. now apply IH.
Qed.

(** Two splittings of one string at the same position are the same. *)
Lemma append_inv_length (a a' b b' : string) :
  a +++ b = a' +++ b' -> String.length a = String.length a' ->
  a = a' /\ b = b'.
Proof.
  revert a'. induction a as [|x a IH]; intros [|x' a'] H L;
    simpl in *; try discriminate.
  - now split.
  - injection H as -> H. injection L as L.
    destruct (IH _ H L) as [-> ->]. now split.
Qed.

Lemma strip_prefix_spec (key s rest : string) :
  strip_prefix key s = Some rest <-> s = key +++ rest.
Proof.
  revert s. induction key as [|k key IH]; intros s; simpl.
  - split; [now intros [= ->] | now intros ->].
  - destruct s as [|c s]; [split; discriminate|].
    destruct (Ascii.eqb_spec k c) as [->|Hne].
    + rewrite IH. split; [now intros -> | now intros [= ->]].
    + split; [discriminate | intros [= -> _]; now elim Hne].
Qed.

Lemma strip_prefix_append (key rest : string) :
  strip_prefix key (key +++ rest) = Some rest.
Proof. now apply strip_prefix_spec. Qed.

(** [sub in s]: the declarative reading. *)
Lemma contains_spec (sub s : string) :
  contains sub s = true <-> exists pre post, s = pre +++ sub +++ post.
Proof.
  induction s as [|c s IH]; simpl.
  - destruct (strip_prefix sub "") as [r|] eqn:E.
    + apply strip_prefix_spec in E. split; [|reflexivity].
      intros _. now exists "", r.
    + split; [discriminate|]. intros (pre & post & H).
      destruct pre; [|discriminate]. simpl in H.
      apply strip_prefix_spec in H. congruence.
  - destruct (strip_prefix sub (String c s)) as [r|] eqn:E.
    + apply strip_prefix_spec in E. split; [|reflexivity].
      intros _. now exists "", r.
    + rewrite IH. split.
      * intros (pre & post & ->). now exists (String c pre), post.
      * intros (pre & post & H). destruct pre as [|c' pre]; simpl in H.
        -- apply strip_prefix_spec in H. congruence.
        -- injection H as _ ->. now exists pre, post.
Qed.

Lemma lower_append (a b : string) : lower (a +++ b) = lower a +++ lower b.
Proof. induction a as [|x a IH]; simpl; [reflexivity | now rewrite IH]. Qed.

(** A splitting of [lower s] comes from a splitting of [s]. *)
Lemma lower_split (s a b : string) :
  lower s = a +++ b ->
  exists a' b', s = a' +++ b' /\ lower a' = a /\ lower b' = b.
Proof.
  revert a. induction s as [|c s IH]; intros a H; simpl in H.
  - destruct a; [|discriminate]. simpl in H. subst b. now exists "", "".
  - destruct a as [|x a]; simpl in H.
    + subst b. now exists "", (String c s).
    + injection H as <- H. destruct (IH _ H) as (a' & b' & -> & <- & <-).
      now exists (String c a'), b'.
Qed.

(** ** The regular expression [key([^;]+)] *)

Lemma semicolon_free_empty : semicolon_free "".
Proof. intros [|x a] b H; discriminate. Qed.

Lemma semicolon_free_cons (c : ascii) (v : string) :
  semicolon_free (String c v) <-> c <> ";"%char /\ semicolon_free v.
Proof.
  split.
  - intros H. split.
    + intros ->. now apply (H "" v).
    + intros a b ->. now apply (H (String c a) b).
  - intros [Hc Hv] [|x a] b E; simpl in E; injection E as E1 E2.
    + now subst.
    + now apply (Hv a b).
Qed.

Lemma span_value_split (s : string) :
  exists post,
    s = span_value s +++ post /\ semicolon_free (span_value s) /\
    value_end post.
Proof.
  induction s as [|c s (post & E & F & V)]; simpl.
  - exists "". repeat split; [apply semicolon_free_empty | now left].
  - destruct (Ascii.eqb_spec c ";") as [->|Hc].
    + exists (String ";" s).
      repeat split; [apply semicolon_free_empty | right; now exists s].
    + exists post. simpl. rewrite <- E. repeat split; [|assumption].
      now apply semicolon_free_cons.
Qed.

Lemma span_value_unique (v post : string) :
  semicolon_free v -> value_end post -> span_value (v +++ post) = v.
Proof.
  intros F V. induction v as [|c v IH]; simpl.
  - destruct V as [->|[r ->]]; reflexivity.
  - apply semicolon_free_cons in F as [Hc F].
    destruct (Ascii.eqb_spec c ";") as [->|_]; [now elim Hc|].
    now rewrite IH.
Qed.

Lemma match_here_spec (key s v : string) :
  match_here key s = Some v <-> exists post, occurrence key s "" v post.
Proof.
  unfold match_here, occurrence. simpl. split.
  - destruct (strip_prefix key s) as [rest|] eqn:E; [|discriminate].
    apply strip_prefix_spec in E. subst s.
    destruct (span_value_split rest) as (post & E & F & V).
    destruct (span_value rest) as [|c w] eqn:S; [discriminate|].
    intros [= <-]. exists post. rewrite <- E. now repeat split.
  - intros (post & -> & Hne & F & V).
    rewrite strip_prefix_append, (span_value_unique _ _ F V).
    destruct v; [now elim Hne | reflexivity].
Qed.

Lemma occurrence_cons (key s pre v post : string) (c : ascii) :
  occurrence key (String c s) (String c pre) v post <->
  occurrence key s pre v post.
Proof.
  unfold occurrence. simpl. split.
  - intros ([= ->] & H). now split.
  - intros (-> & H). now split.
Qed.

Lemma occurrence_head (key s pre v post : string) (c c' : ascii) :
  occurrence key (String c s) (String c' pre) v post -> c' = c.
Proof. intros ([= -> _] & _). reflexivity. Qed.

(** The search finds what [token] describes. *)
Lemma re_search_token (key s : string) : token key s (re_search key s).
Proof.
  induction s as [|c s IH]; simpl.
  - destruct (match_here key "") as [v|] eqn:E.
    + apply match_here_spec in E as [post O].
      exists "", post. split; [assumption|]. intros; simpl; lia.
    + intros pre v post O. destruct pre as [|x pre].
      * assert (match_here key "" = Some v) as H
          by (apply match_here_spec; now exists post).
        congruence.
      * destruct O as [O _]. discriminate.
  - destruct (match_here key (String c s)) as [v|] eqn:E.
    + apply match_here_spec in E as [post O].
      exists "", post. split; [assumption|]. intros; simpl; lia.
    + assert (forall v post, ~ occurrence key (String c s) "" v post) as N.
      { intros v post O.
        assert (match_here key (String c s) = Some v) as H
          by (apply match_here_spec; now exists post).
        congruence. }
      destruct (re_search key s) as [v|]; simpl in IH |- *.
      * destruct IH as (pre & post & O & L).
        exists (String c pre), post. split; [now apply occurrence_cons|].
        intros [|c' pre'] v' post' O'; [now apply N in O'|].
        pose proof (occurrence_head _ _ _ _ _ _ _ O') as ->.
        apply (proj1 (occurrence_cons _ _ _ _ _ _)) in O'.
        apply L in O'. simpl. lia.
      * intros [|c' pre'] v' post' O'; [now apply N in O'|].
        pose proof (occurrence_head _ _ _ _ _ _ _ O') as ->.
        apply (proj1 (occurrence_cons _ _ _ _ _ _)) in O'.
        now apply IH in O'.
Qed.

(** At one position there is one value. *)
Lemma occurrence_unique (key s pre v post pre' v' post' : string) :
  occurrence key s pre v post -> occurrence key s pre' v' post' ->
  String.length pre = String.length pre' -> v = v'.
Proof.
  intros (E & _ & F & V) (E' & _ & F' & V') L.
  rewrite E in E'. destruct (append_inv_length _ _ _ _ E' L) as [_ H].
  apply append_inv_head in H.
  rewrite <- (span_value_unique _ _ F V), H.
  now apply span_value_unique.
Qed.

Lemma token_unique (key s : string) (a b : option string) :
  token key s a -> token key s b -> a = b.
Proof.
  destruct a as [v|], b as [w|]; simpl; try reflexivity.
  - intros (pre & post & O & L) (pre' & post' & O' & L'). f_equal.
    apply (occurrence_unique _ _ _ _ _ _ _ _ O O').
    apply L in O' as H. apply L' in O as H'. lia.
  - intros (pre & post & O & _) N. now apply N in O.
  - intros N (pre & post & O & _). now apply N in O.
Qed.

(** [re.search] on the patterns of the script, characterised. *)
Lemma re_search_spec (key s : string) (found : option string) :
  re_search key s = found <-> token key s found.
Proof.
  split.
  - intros <-. apply re_search_token.
  - intros T. apply (token_unique key s); [apply re_search_token | exact T].
Qed.

(** [p[:n]] is a prefix of [p] that holds [n] code points, or all of
    them when [p] has fewer, and [p] is not cut inside a code point. *)
Lemma slice_to_spec (n : nat) (p : string) :
  exists rest,
    p = slice_to n p +++ rest /\
    code_points (slice_to n p) = Nat.min n (code_points p) /\
    starts_code_point rest.
Proof.
  revert n. induction p as [|c p IH]; intros n.
  - exists "". simpl. now rewrite Nat.min_0_r.
  - simpl. destruct (continuation c) eqn:C.
    + destruct (IH n) as (rest & E & L & B). exists rest.
      simpl. rewrite C, <- E. now split.
    + destruct n as [|n].
      * exists (String c p). simpl. now split.
      * destruct (IH n) as (rest & E & L & B). exists rest.
        simpl. rewrite C, <- E, L. now split.
Qed.

Lemma slice_to_nonempty (n : nat) (p : string) :
  p <> "" -> slice_to (S n) p <> "".
Proof.
  destruct p as [|c p]; [congruence|]. intros _. simpl.
  now destruct (continuation c).
Qed.

(** ** [extract_gene_info] *)

(** C3 (as amended). A missing annotation gives [("Unknown", "Unknown")].
    Otherwise, with [gene], [name], [product] and [locus] what a search for
    [gene=], [Name=], [product=] and [locus_tag=] finds in the annotation
    text (the value of the leftmost occurrence of the key that is followed
    by a non-empty value, the value running up to the next [;] or the end):
    [locus_tag] is the [locus_tag=] value, else ["Unknown"]; [gene_name] is
    the [gene=] value unless that value is the text ["Unknown"]; when
    [gene=] is not found or has the value ["Unknown"], it is the [Name=]
    value, else the first 30 characters of the [product=] value (its
    first 30 code points, or all of it when it has fewer; the cut never
    falls inside a character), else ["Unknown"]. The function is total: no
    input makes it fail. *)
Theorem extract_gene_info_spec :
  forall (str_of_float : float -> string) (v : value),
    (isna v = true ->
     extract_gene_info str_of_float v = ("Unknown", "Unknown")) /\
    (isna v = false ->
     forall gene name product locus : option string,
       token "gene=" (py_str str_of_float v) gene ->
       token "Name=" (py_str str_of_float v) name ->
       token "product=" (py_str str_of_float v) product ->
       token "locus_tag=" (py_str str_of_float v) locus ->
       let gene_name := fst (extract_gene_info str_of_float v) in
       let locus_tag := snd (extract_gene_info str_of_float v) in
       (forall l, locus = Some l -> locus_tag = l) /\
       (locus = None -> locus_tag = "Unknown") /\
       (forall g, gene = Some g -> g <> "Unknown" -> gene_name = g) /\
       (gene = None \/ gene = Some "Unknown" ->
        (forall n, name = Some n -> gene_name = n) /\
        (name = None ->
         (forall p,
             product = Some p ->
             gene_name = slice_to 30 p /\
             exists rest,
               p = gene_name +++ rest /\
               code_points gene_name = Nat.min 30 (code_points p) /\
               starts_code_point rest) /\
         (product = None -> gene_name = "Unknown")))).
Proof.
  intros str_of_float v. unfold extract_gene_info. split; intros N; rewrite N.
  - reflexivity.
  - intros gene name product locus G Nm P L.
    apply re_search_spec in G, Nm, P, L. rewrite G, Nm, P, L. cbv zeta.
    split; [now intros l -> |].
    split; [now intros -> |].
    split.
    { intros g -> Hg. apply String.eqb_neq in Hg. now rewrite Hg. }
    intros U. destruct gene as [g|].
    + destruct (String.eqb_spec g "Unknown") as [->|Hg];
        [|destruct U as [U|U]; congruence].
      simpl. split; [now intros n -> |].
      intros ->. split; [|now intros ->].
      intros p ->. split; [reflexivity | apply slice_to_spec].
    + simpl. split; [now intros n -> |].
      intros ->. split; [|now intros ->].
      intros p ->. split; [reflexivity | apply slice_to_spec].
Qed.

(** The example of the specification, and the three fallbacks. *)
Example extract_gene_info_examples (str_of_float : float -> string) :
  extract_gene_info str_of_float
    (VStr "ID=gene1;gene=dnaA;locus_tag=b0001;product=chromosomal replication initiator")
    = ("dnaA", "b0001") /\
  extract_gene_info str_of_float (VStr "ID=gene1;Name=thrL;locus_tag=b0002")
    = ("thrL", "b0002") /\
  extract_gene_info str_of_float
    (VStr "ID=cds7;product=bifunctional aspartokinase/homoserine dehydrogenase 1")
    = ("bifunctional aspartokinase/hom", "Unknown") /\
  extract_gene_info str_of_float (VStr "ID=gene1;Dbxref=GeneID:944742")
    = ("Unknown", "Unknown") /\
  extract_gene_info str_of_float (VStr "") = ("Unknown", "Unknown") /\
  extract_gene_info str_of_float (VStr "gene=;;=;locus_tag=")
    = ("Unknown", "Unknown").
Proof. repeat split. Qed.

(** A product whose first character takes two bytes: the name has 30
    characters in 31 bytes, the last of them a space. *)
Example extract_gene_info_code_points (str_of_float : float -> string) :
  extract_gene_info str_of_float
    (VStr "ID=cds9;product=β-galactosidase alpha subunit LacZ")
    = ("β-galactosidase alpha subunit ", "Unknown") /\
  code_points "β-galactosidase alpha subunit " = 30 /\
  String.length "β-galactosidase alpha subunit " = 31.
Proof. repeat split. Qed.

(** C3, counterexample. In ["gene=Unknown;Name=abc"] the search for
    [gene=] finds the value ["Unknown"], yet [gene_name] is the [Name=]
    value ["abc"]: a [gene=] value that reads ["Unknown"] is treated as
    absent. *)
Lemma extract_gene_info_gene_unknown :
  token "gene=" "gene=Unknown;Name=abc" (Some "Unknown") /\
  forall str_of_float : float -> string,
    fst (extract_gene_info str_of_float (VStr "gene=Unknown;Name=abc"))
    = "abc" /\
    fst (extract_gene_info str_of_float (VStr "gene=Unknown;Name=abc"))
    <> "Unknown".
Proof.
  split; [now apply re_search_spec|].
  intros f. split; [reflexivity | discriminate].
Qed.

(** The only place where ["gene="] stands in the first example below is
    inside the key [pseudogene=]. *)
Lemma pseudogene_only (pre rest : string) :
  "pseudogene=abcD;locus_tag=b0001" = pre +++ "gene=" +++ rest ->
  pre = "pseudo".
Proof.
  intros H.
  repeat (destruct pre as [|? pre]; simpl in H;
          [ first [discriminate H | reflexivity]
          | injection H as <- H ]).
  destruct pre; discriminate H.
Qed.

(** C10. Keys are matched as raw substrings, not as keys delimited by [;]:
    an occurrence of the key anywhere in the text is found, whatever
    precedes it. In [pseudogene=abcD;locus_tag=b0001] the text [gene=]
    stands only inside the key [pseudogene=], and [gene_name] is that key's
    value ["abcD"], not ["Unknown"]; likewise for [Name=] inside
    [shortName=], [product=] inside [gene_product=] and [locus_tag=] inside
    [old_locus_tag=]. *)
Theorem extract_gene_info_raw_substring :
  forall str_of_float : float -> string,
    (forall key s pre v post,
        occurrence key s pre v post -> exists w, re_search key s = Some w) /\
    (forall pre rest,
        "pseudogene=abcD;locus_tag=b0001" = pre +++ "gene=" +++ rest ->
        pre = "pseudo") /\
    extract_gene_info str_of_float (VStr "pseudogene=abcD;locus_tag=b0001")
      = ("abcD", "b0001") /\
    extract_gene_info str_of_float (VStr "ID=x;shortName=yaaX")
      = ("yaaX", "Unknown") /\
    extract_gene_info str_of_float (VStr "ID=x;gene_product=kinase")
      = ("kinase", "Unknown") /\
    extract_gene_info str_of_float (VStr "ID=x;old_locus_tag=b0003")
      = ("Unknown", "b0003").
Proof.
  intros f. split; [|split; [exact pseudogene_only | repeat split]].
  intros key s pre v post O.
  destruct (re_search key s) as [w|] eqn:E; [now exists w|].
  apply re_search_spec in E. now apply E in O.
Qed.

(** ** Heap and column lists *)

Lemma nth_error_snoc {A : Type} (l : list A) (x : A) :
  nth_error (l ++ [x]) (length l) = Some x.
Proof. rewrite nth_error_app2, Nat.sub_diag by lia. reflexivity. Qed.

Lemma nth_error_lt {A : Type} (l : list A) (r : nat) (a : A) :
  nth_error l r = Some a -> r < length l.
Proof. intros H. apply nth_error_Some. congruence. Qed.

Lemma nth_error_snoc_old {A : Type} (l : list A) (x : A) (r : nat) (a : A) :
  nth_error l r = Some a -> nth_error (l ++ [x]) r = Some a.
Proof.
  intros H. rewrite nth_error_app1; [assumption|].
  apply nth_error_Some. congruence.
Qed.

Lemma update_snoc {A : Type} (l : list A) (x y : A) :
  update (length l) y (l ++ [x]) = l ++ [y].
Proof. induction l as [|a l IH]; simpl; [reflexivity | now rewrite IH]. Qed.

Lemma update_length {A : Type} (r : nat) (a : A) (l : list A) :
  length (update r a l) = length l.
Proof.
  revert r. induction l as [|x l IH]; intros [|r]; simpl; auto.
Qed.

Lemma nth_error_update_eq {A : Type} (r : nat) (a : A) (l : list A) :
  r < length l -> nth_error (update r a l) r = Some a.
Proof.
  revert r. induction l as [|x l IH]; intros [|r] H; simpl in *;
    try lia; [reflexivity | apply IH; lia].
Qed.

Lemma nth_error_update_ne {A : Type} (r r' : nat) (a : A) (l : list A) :
  r <> r' -> nth_error (update r a l) r' = nth_error l r'.
Proof.
  revert r r'. induction l as [|x l IH]; intros [|r] [|r'] H; simpl;
    try reflexivity; try congruence.
  apply IH. congruence.
Qed.

Lemma assoc_set_eq {A : Type} (k : string) (a : A) (l : list (string * A)) :
  assoc k (assoc_set k a l) = Some a.
Proof.
  induction l as [|[k' a'] l IH]; simpl.
  - now rewrite String.eqb_refl.
  - destruct (String.eqb k k') eqn:E; simpl; rewrite ?String.eqb_refl, ?E;
      [reflexivity | exact IH].
Qed.

Lemma assoc_set_ne {A : Type} (k k' : string) (a : A)
  (l : list (string * A)) :
  k <> k' -> assoc k' (assoc_set k a l) = assoc k' l.
Proof.
  intros N. induction l as [|[k0 a0] l IH]; simpl.
  - apply String.eqb_neq in N. rewrite String.eqb_sym. now rewrite N.
  - destruct (String.eqb_spec k k0) as [->|N0]; simpl.
    + assert (String.eqb k' k0 = false) as ->
        by (apply String.eqb_neq; congruence).
      reflexivity.
    + destruct (String.eqb k' k0); [reflexivity | exact IH].
Qed.

(** The names after an assignment: unchanged when the column exists, one
    more at the end when it does not. *)
Lemma assoc_set_names {A : Type} (k : string) (a : A)
  (l : list (string * A)) :
  map fst (assoc_set k a l) =
    if existsb (String.eqb k) (map fst l) then map fst l
    else map fst l ++ [k].
Proof.
  induction l as [|[k' a'] l IH]; simpl; [reflexivity|].
  destruct (String.eqb_spec k k') as [->|N]; simpl; [reflexivity|].
  rewrite IH. now destruct (existsb (String.eqb k) (map fst l)).
Qed.

(** ** Vectorised operations on numeric columns *)

Lemma series_cmp_floats (op : float -> float -> bool) (xs : list float)
  (k : float) (s : state) :
  series_cmp op (map VFloat xs) k s = Returns (map (fun x => op x k) xs) s.
Proof.
  induction xs as [|x xs IH]; simpl; [reflexivity|].
  unfold bind. now rewrite IH.
Qed.

Lemma series_neg_floats (xs : list float) (s : state) :
  series_neg (map VFloat xs) s = Returns (map (fun x => VFloat (- x)) xs) s.
Proof.
  induction xs as [|x xs IH]; simpl; [reflexivity|].
  unfold bind. now rewrite IH.
Qed.

Lemma series_log10_floats (np_log10 : float -> float) (xs : list float)
  (s : state) :
  series_log10 np_log10 (map VFloat xs) s =
    Returns (map (fun x => VFloat (np_log10 x)) xs) s.
Proof.
  induction xs as [|x xs IH]; simpl; [reflexivity|].
  unfold bind. now rewrite IH.
Qed.

Lemma series_replace_floats (a b : float) (xs : list float) :
  series_replace a b (map VFloat xs) =
    map VFloat (map (fun x => if PrimFloat.eqb x a then b else x) xs).
Proof.
  unfold series_replace. rewrite !map_map. apply map_ext.
  intros x. now destruct (PrimFloat.eqb x a).
Qed.

(** The classifier's [np.select] call, row by row. *)
Lemma np_select_rows (thr up down : float) (ps ls : list float) :
  length ps = length ls ->
  np_select
    [series_and (map (fun x => PrimFloat.ltb x thr) ps)
                (map (fun x => PrimFloat.leb up x) ls);
     series_and (map (fun x => PrimFloat.ltb x thr) ps)
                (map (fun x => PrimFloat.leb x down) ls)]
    [VStr "Upregulated"; VStr "Downregulated"] (VStr "Not Significant")
  = map (fun pl : float * float =>
           VStr (significance_label thr up down (fst pl) (snd pl)))
        (combine ps ls).
Proof.
  unfold np_select, series_and. simpl hd.
  rewrite length_map, length_combine, !length_map. intros L.
  rewrite <- L, Nat.min_id. revert ls L.
  induction ps as [|p ps IH]; intros [|l ls] L; try discriminate L.
  - reflexivity.
  - injection L as L. specialize (IH ls L). simpl in IH |- *.
    rewrite IH. unfold significance_label. simpl.
    now destruct (PrimFloat.ltb p thr), (PrimFloat.leb up l),
      (PrimFloat.leb l down).
Qed.

(** ** Runs of the primitive operations *)

Lemma bind_returns {A B : Type} (m : M A) (k : A -> M B) (s s' : state)
  (a : A) :
  m s = Returns a s' -> bind m k s = k a s'.
Proof. unfold bind. now intros ->. Qed.

Lemma deref_run (r : ref) (d : DataFrame) (s : state) :
  nth_error (heap s) r = Some d -> deref r s = Returns d s.
Proof. unfold deref. now intros ->. Qed.

Lemma getitem_run (r : ref) (name : string) (d : DataFrame)
  (xs : list value) (s : state) :
  nth_error (heap s) r = Some d -> assoc name (columns d) = Some xs ->
  getitem r name s = Returns xs s.
Proof.
  intros H C. unfold getitem.
  rewrite (bind_returns _ _ _ _ _ (deref_run _ _ _ H)). now rewrite C.
Qed.

Lemma setitem_run (r : ref) (name : string) (d : DataFrame)
  (xs : list value) (s : state) :
  nth_error (heap s) r = Some d -> length xs = length (index d) ->
  setitem r name xs s =
    Returns tt
      {| heap := update r {| index := index d;
                             columns := assoc_set name xs (columns d) |}
                        (heap s);
         ui := ui s |}.
Proof.
  intros H L. unfold setitem.
  rewrite (bind_returns _ _ _ _ _ (deref_run _ _ _ H)).
  apply Nat.eqb_eq in L. now rewrite L.
Qed.

Lemma copy_run (r : ref) (d : DataFrame) (s : state) :
  nth_error (heap s) r = Some d ->
  copy r s = Returns (length (heap s))
                     {| heap := heap s ++ [d]; ui := ui s |}.
Proof.
  intros H. unfold copy.
  now rewrite (bind_returns _ _ _ _ _ (deref_run _ _ _ H)).
Qed.

Lemma df_columns_run (r : ref) (d : DataFrame) (s : state) :
  nth_error (heap s) r = Some d ->
  df_columns r s = Returns (column_names d) s.
Proof.
  intros H. unfold df_columns.
  now rewrite (bind_returns _ _ _ _ _ (deref_run _ _ _ H)).
Qed.

Lemma df_index_run (r : ref) (d : DataFrame) (s : state) :
  nth_error (heap s) r = Some d -> df_index r s = Returns (index d) s.
Proof.
  intros H. unfold df_index.
  now rewrite (bind_returns _ _ _ _ _ (deref_run _ _ _ H)).
Qed.

(** One step of a run: the first operation of a sequence returns. *)
Ltac run_with L := rewrite (bind_returns _ _ _ _ _ L); cbn [heap ui].

Section Classifier.

Variable np_log10 : float -> float.
Variables (thr up down : float).

(** The classifier on a frame with numeric [padj] and [log2FoldChange]:
    it returns a new object, the input frame with the two derived
    columns. *)
Lemma filter_deseq_data_run (st : state) (df : ref) (d : DataFrame)
  (ps ls : list float) :
  nth_error (heap st) df = Some d ->
  numeric_column d "padj" ps ->
  numeric_column d "log2FoldChange" ls ->
  filter_deseq_data np_log10 df thr up down st =
    Returns (length (heap st))
      {| heap := heap st ++ [annotated np_log10 thr up down d ps ls];
         ui := ui st |}.
Proof.
  intros H [P LP] [L LL]. unfold filter_deseq_data.
  run_with (copy_run _ _ _ H).
  set (s1 := {| heap := heap st ++ [d]; ui := ui st |}).
  assert (nth_error (heap s1) (length (heap st)) = Some d) as H1
    by apply nth_error_snoc.
  unfold series_lt, series_ge, series_le.
  run_with (getitem_run _ _ _ _ _ H1 P).
  run_with (series_cmp_floats PrimFloat.ltb ps thr s1).
  run_with (getitem_run _ _ _ _ _ H1 L).
  run_with (series_cmp_floats (fun x k => PrimFloat.leb k x) ls up s1).
  run_with (getitem_run _ _ _ _ _ H1 P).
  run_with (series_cmp_floats PrimFloat.ltb ps thr s1).
  run_with (getitem_run _ _ _ _ _ H1 L).
  run_with (series_cmp_floats PrimFloat.leb ls down s1).
  rewrite np_select_rows by congruence.
  set (sig := map _ (combine ps ls)).
  assert (length sig = length (index d)) as LS
    by (unfold sig; rewrite length_map, length_combine; lia).
  run_with (setitem_run _ "Significance" _ _ _ H1 LS).
  subst s1. cbn [heap ui]. rewrite update_snoc.
  set (d2 := {| index := index d; columns := assoc_set _ sig _ |}).
  set (s2 := {| heap := heap st ++ [d2]; ui := ui st |}).
  assert (nth_error (heap s2) (length (heap st)) = Some d2) as H2
    by apply nth_error_snoc.
  assert (assoc "padj" (columns d2) = Some (map VFloat ps)) as P2
    by (unfold d2; cbn [columns]; now rewrite assoc_set_ne by discriminate).
  run_with (getitem_run _ _ _ _ _ H2 P2).
  rewrite series_replace_floats.
  run_with (series_log10_floats np_log10
              (map (fun x => if PrimFloat.eqb x 0 then 1e-300%float else x)
                   ps) s2).
  rewrite <- (map_map _ VFloat).
  run_with (series_neg_floats
              (map np_log10
                 (map (fun x => if PrimFloat.eqb x 0 then 1e-300%float
                                else x) ps)) s2).
  erewrite bind_returns;
    [|apply (setitem_run _ _ _ _ _ H2); cbn [index d2];
      now rewrite !length_map].
  unfold ret. subst s2. cbn [heap ui]. rewrite update_snoc.
  unfold annotated, neg_log10_padj, d2, sig. cbn [index columns].
  now rewrite !map_map.
Qed.

End Classifier.

(** ** Floats *)

Ltac sf_cases :=
  repeat match goal with
  | s : bool |- _ => destruct s
  | |- context [Z.compare ?a ?b] => destruct (Z.compare_spec a b)
  | H : context [Z.compare ?a ?b] |- _ => destruct (Z.compare_spec a b)
  | |- context [Pos.compare_cont Eq ?a ?b] =>
      change (Pos.compare_cont Eq a b) with (Pos.compare a b) in *;
      destruct (Pos.compare_spec a b)
  | H : context [Pos.compare_cont Eq ?a ?b] |- _ =>
      change (Pos.compare_cont Eq a b) with (Pos.compare a b) in *;
      destruct (Pos.compare_spec a b)
  end; simpl in *; try discriminate; try reflexivity; try lia.

Lemma SFleb_trans (x y z : spec_float) :
  SFleb x y = true -> SFleb y z = true -> SFleb x z = true.
Proof.
  unfold SFleb, SFcompare.
  destruct x as [sx|sx| |sx mx ex], y as [sy|sy| |sy my ey],
           z as [sz|sz| |sz mz ez]; intros H1 H2; sf_cases.
Qed.

Lemma SFleb_total (x y : spec_float) :
  x <> S754_nan -> y <> S754_nan -> SFleb x y = false -> SFleb y x = true.
Proof.
  unfold SFleb, SFcompare.
  destruct x as [sx|sx| |sx mx ex], y as [sy|sy| |sy my ey];
    intros H1 H2 H3; try congruence; sf_cases.
Qed.

Lemma SFeqb_self (x : spec_float) :
  SFeqb x x = match x with S754_nan => false | _ => true end.
Proof.
  unfold SFeqb, SFcompare. destruct x as [sx|sx| |sx mx ex]; sf_cases.
Qed.

Lemma SFeqb_leb_sym (x y : spec_float) :
  SFeqb x y = true -> SFleb y x = true.
Proof.
  unfold SFeqb, SFleb, SFcompare.
  destruct x as [sx|sx| |sx mx ex], y as [sy|sy| |sy my ey];
    intros H1; sf_cases.
Qed.

Lemma SFleb_ltb_sym (x y : spec_float) :
  SFleb x y = true -> SFltb y x = false.
Proof.
  unfold SFltb, SFleb, SFcompare.
  destruct x as [sx|sx| |sx mx ex], y as [sy|sy| |sy my ey];
    intros H1; sf_cases.
Qed.

(** NaN is the float that differs from itself. *)
Lemma is_nan_spec (x : float) : is_nan x = true <-> Prim2SF x = S754_nan.
Proof.
  unfold is_nan. rewrite FloatAxioms.eqb_spec, SFeqb_self.
  destruct (Prim2SF x); simpl; split; congruence.
Qed.

Lemma is_nan_false (x : float) : is_nan x = false <-> Prim2SF x <> S754_nan.
Proof.
  pose proof (is_nan_spec x) as [H1 H2].
  destruct (is_nan x); split; intros H.
  - discriminate H.
  - elim H. now apply H1.
  - intros E. now apply H2 in E.
  - reflexivity.
Qed.

(** Equal floats are not below one another. *)
Lemma eqb_not_ltb (a b : float) :
  PrimFloat.eqb a b = true -> PrimFloat.ltb a b = false.
Proof.
  rewrite FloatAxioms.eqb_spec, FloatAxioms.ltb_spec. unfold SFeqb, SFltb.
  destruct (SFcompare _ _) as [[]|]; congruence.
Qed.

Lemma eqb_leb_sym (a b : float) :
  PrimFloat.eqb a b = true -> PrimFloat.leb b a = true.
Proof. rewrite FloatAxioms.eqb_spec, FloatAxioms.leb_spec. apply SFeqb_leb_sym. Qed.

Lemma leb_not_ltb (a b : float) :
  PrimFloat.leb a b = true -> PrimFloat.ltb b a = false.
Proof. rewrite FloatAxioms.leb_spec, FloatAxioms.ltb_spec. apply SFleb_ltb_sym. Qed.

Lemma leb_trans (a b c : float) :
  PrimFloat.leb a b = true -> PrimFloat.leb b c = true ->
  PrimFloat.leb a c = true.
Proof. rewrite !FloatAxioms.leb_spec. apply SFleb_trans. Qed.

Lemma leb_total (a b : float) :
  is_nan a = false -> is_nan b = false ->
  PrimFloat.leb a b = false -> PrimFloat.leb b a = true.
Proof.
  intros Na Nb. rewrite !FloatAxioms.leb_spec. apply SFleb_total; now apply is_nan_false.
Qed.

Lemma leb_nan_l (a b : float) : is_nan a = true -> PrimFloat.leb a b = false.
Proof.
  intros N. apply is_nan_spec in N. now rewrite FloatAxioms.leb_spec, N.
Qed.

(** The floats equal to zero are the two zeros. *)
Lemma eqb_zero (p : float) :
  PrimFloat.eqb p 0 = true -> p = 0%float \/ p = (-0)%float.
Proof.
  rewrite FloatAxioms.eqb_spec. intros H.
  assert (exists s, Prim2SF p = S754_zero s) as [s E].
  { revert H. unfold SFeqb, SFcompare.
    destruct (Prim2SF p) as [s|s| |s m e]; simpl.
    - intros _. now exists s.
    - now destruct s.
    - discriminate.
    - now destruct s. }
  destruct s; [right | left]; apply Prim2SF_inj; rewrite E; reflexivity.
Qed.

(** The order of [nsmallest] is a total preorder on all floats. *)
Lemma nan_last_leb_total (a b : float) :
  nan_last_leb a b = false -> nan_last_leb b a = true.
Proof.
  unfold nan_last_leb. intros H. apply orb_false_iff in H as [Nb L].
  destruct (is_nan a) eqn:Na; [reflexivity|]. simpl.
  now apply leb_total.
Qed.

Lemma nan_last_leb_trans (a b c : float) :
  nan_last_leb a b = true -> nan_last_leb b c = true ->
  nan_last_leb a c = true.
Proof.
  unfold nan_last_leb. intros H1 H2.
  destruct (is_nan c) eqn:Nc; [reflexivity|]. simpl in *.
  destruct (is_nan b) eqn:Nb; simpl in *.
  - now rewrite (leb_nan_l b c Nb) in H2.
  - now apply (leb_trans a b c).
Qed.

(** ** The classifier *)

Lemma nth_error_combine {A B : Type} (a : list A) (b : list B) (i : nat)
  (x : A) (y : B) :
  nth_error a i = Some x -> nth_error b i = Some y ->
  nth_error (combine a b) i = Some (x, y).
Proof.
  revert b i. induction a as [|x' a IH]; intros [|y' b] [|i]; simpl;
    try discriminate.
  - now intros [= ->] [= ->].
  - apply IH.
Qed.

Section ClassifierRows.

Variable np_log10 : float -> float.
Variables (thr up down : float).
Variable d : DataFrame.
Variables (ps ls : list float).

Lemma cell_annotated_significance (i : nat) (p l : float) :
  nth_error ps i = Some p -> nth_error ls i = Some l ->
  cell (annotated np_log10 thr up down d ps ls) "Significance" i =
    Some (VStr (significance_label thr up down p l)).
Proof.
  intros P L. unfold cell, annotated. cbn [columns].
  rewrite assoc_set_ne by discriminate. rewrite assoc_set_eq.
  rewrite nth_error_map, (nth_error_combine _ _ _ _ _ P L). reflexivity.
Qed.

Lemma cell_annotated_neg_log10 (i : nat) (p : float) :
  nth_error ps i = Some p ->
  cell (annotated np_log10 thr up down d ps ls) "-log10(padj)" i =
    Some (VFloat (neg_log10_padj np_log10 p)).
Proof.
  intros P. unfold cell, annotated. cbn [columns].
  rewrite assoc_set_eq, nth_error_map, P. reflexivity.
Qed.

(** Columns other than the two derived ones are those of the input. *)
Lemma assoc_annotated_other (c : string) :
  c <> "Significance" -> c <> "-log10(padj)" ->
  assoc c (columns (annotated np_log10 thr up down d ps ls)) =
    assoc c (columns d).
Proof.
  intros N1 N2. unfold annotated. cbn [columns].
  rewrite !assoc_set_ne by congruence. reflexivity.
Qed.

End ClassifierRows.

(** The label of one row, case by case. *)
Lemma significance_label_cases (thr up down p l : float) :
  let up_cond := PrimFloat.ltb p thr = true /\ PrimFloat.leb up l = true in
  let down_cond :=
    PrimFloat.ltb p thr = true /\ PrimFloat.leb l down = true in
  let s := significance_label thr up down p l in
  (s = "Upregulated" <-> up_cond) /\
  (s = "Downregulated" <-> ~ up_cond /\ down_cond) /\
  (s = "Not Significant" <-> ~ up_cond /\ ~ down_cond).
Proof.
  unfold significance_label.
  destruct (PrimFloat.ltb p thr), (PrimFloat.leb up l),
    (PrimFloat.leb l down); cbn; repeat split;
    try discriminate; try tauto; intuition congruence.
Qed.

(** C1. On a frame with numeric [padj] and [log2FoldChange] the classifier
    returns a table in which every row [i], with adjusted p-value [p] and
    log2 fold change [l], has a [Significance] cell [s] such that: [s] is
    ["Upregulated"] exactly when [p < padj_threshold] and
    [l >= log2fc_up]; otherwise ["Downregulated"] exactly when
    [p < padj_threshold] and [l <= log2fc_down]; ["Not Significant"] in all
    remaining cases. When both conditions hold the row is ["Upregulated"];
    [p] equal to the threshold gives ["Not Significant"]; [l] equal to
    [log2fc_up], with [p] below the threshold, gives ["Upregulated"]. *)
Theorem filter_deseq_data_significance :
  forall (np_log10 : float -> float) (thr up down : float) (st : state)
         (df : ref) (d : DataFrame) (ps ls : list float),
    nth_error (heap st) df = Some d ->
    numeric_column d "padj" ps ->
    numeric_column d "log2FoldChange" ls ->
    exists out,
      table_of (filter_deseq_data np_log10 df thr up down st) = Some out /\
      forall i p l,
        nth_error ps i = Some p -> nth_error ls i = Some l ->
        exists s,
          cell out "Significance" i = Some (VStr s) /\
          let up_cond :=
            PrimFloat.ltb p thr = true /\ PrimFloat.leb up l = true in
          let down_cond :=
            PrimFloat.ltb p thr = true /\ PrimFloat.leb l down = true in
          (s = "Upregulated" <-> up_cond) /\
          (s = "Downregulated" <-> ~ up_cond /\ down_cond) /\
          (s = "Not Significant" <-> ~ up_cond /\ ~ down_cond) /\
          (up_cond -> down_cond -> s = "Upregulated") /\
          (PrimFloat.eqb p thr = true -> s = "Not Significant") /\
          (PrimFloat.ltb p thr = true -> PrimFloat.eqb l up = true ->
           s = "Upregulated").
Proof.
  intros np_log10 thr up down st df d ps ls H P L.
  exists (annotated np_log10 thr up down d ps ls). split.
  - rewrite (filter_deseq_data_run _ _ _ _ _ _ _ _ _ H P L).
    apply nth_error_snoc.
  - intros i p l Hp Hl. exists (significance_label thr up down p l).
    split; [now apply cell_annotated_significance|].
    destruct (significance_label_cases thr up down p l) as (U & D & N).
    cbv zeta in *.
    split; [exact U|]. split; [exact D|]. split; [exact N|].
    split; [|split].
    + intros Hu _. now apply U.
    + intros E. apply N. apply eqb_not_ltb in E.
      split; intros [C _]; congruence.
    + intros Hlt E. apply U. split; [exact Hlt | now apply eqb_leb_sym].
Qed.

(** The rows of [example_frame] under the thresholds of the specification's
    examples: the three example rows and the two boundary rows. *)
Lemma filter_deseq_data_significance_witness :
  exists out,
    table_of (filter_deseq_data log10_steps 0 0.05 1 (-1) example_state)
      = Some out /\
    cell out "Significance" 0 = Some (VStr "Upregulated") /\
    cell out "Significance" 1 = Some (VStr "Downregulated") /\
    cell out "Significance" 2 = Some (VStr "Not Significant") /\
    cell out "Significance" 3 = Some (VStr "Not Significant") /\
    cell out "Significance" 4 = Some (VStr "Upregulated").
Proof.
  destruct (filter_deseq_data_significance log10_steps 0.05 1 (-1)
              example_state 0 example_frame
              [0.001; 0.0001; 0.2; 0.05; 0.01; 0]%float
              [2.5; -3; 0.2; 1; 1; 0]%float
              eq_refl (conj eq_refl eq_refl) (conj eq_refl eq_refl))
    as (out & T & R).
  exists out. split; [exact T|].
  injection T as <-. repeat split.
Defined.

Lemma opp_involutive (x : float) : (- - x)%float = x.
Proof.
  apply Prim2SF_inj. rewrite !opp_spec.
  destruct (Prim2SF x) as [s|s| |s m e]; simpl; now rewrite ?negb_involutive.
Qed.

Lemma assoc_set_absent {A : Type} (k : string) (a : A)
  (l : list (string * A)) :
  existsb (String.eqb k) (map fst l) = false ->
  assoc_set k a l = l ++ [(k, a)].
Proof.
  induction l as [|[k' a'] l IH]; simpl; [reflexivity|].
  destruct (String.eqb k k'); simpl; [discriminate|].
  intros H. now rewrite IH.
Qed.

Lemma existsb_eqb_In (k : string) (l : list string) :
  existsb (String.eqb k) l = true <-> In k l.
Proof.
  rewrite existsb_exists. split.
  - intros (x & I & E). apply String.eqb_eq in E. now subst.
  - intros I. exists k. split; [exact I | apply String.eqb_refl].
Qed.

Lemma assoc_set_names_In {A : Type} (k : string) (a : A)
  (l : list (string * A)) (c : string) :
  In c (map fst (assoc_set k a l)) <-> In c (map fst l) \/ c = k.
Proof.
  rewrite assoc_set_names.
  destruct (existsb (String.eqb k) (map fst l)) eqn:E.
  - apply existsb_eqb_In in E. split; [now left|].
    intros [I | ->]; assumption.
  - rewrite in_app_iff. simpl. split.
    + intros [I | [<- | []]]; [now left | now right].
    + intros [I | ->]; [now left | right; now left].
Qed.

(** C2 (as amended). On a frame with numeric [padj] and [log2FoldChange]
    the classifier returns a table in which every row [i], with adjusted
    p-value [p], has the [-log10(padj)] cell [-log10(p')], where [p'] is
    [1e-300] when [p] equals zero and [p] itself otherwise. This is
    [-log10(max(p, 1e-300))] whenever [p] is zero or at least [1e-300].
    For [p] equal to zero the cell is [-log10(1e-300)], and with
    [log10(1e-300) = -300] it is [300], a finite number. *)
Theorem filter_deseq_data_neg_log10 :
  forall (np_log10 : float -> float) (thr up down : float) (st : state)
         (df : ref) (d : DataFrame) (ps ls : list float),
    nth_error (heap st) df = Some d ->
    numeric_column d "padj" ps ->
    numeric_column d "log2FoldChange" ls ->
    exists out,
      table_of (filter_deseq_data np_log10 df thr up down st) = Some out /\
      forall i p,
        nth_error ps i = Some p ->
        exists y,
          cell out "-log10(padj)" i = Some (VFloat y) /\
          y = (- np_log10 (if PrimFloat.eqb p 0 then 1e-300 else p))%float /\
          (PrimFloat.eqb p 0 = true \/ PrimFloat.leb 1e-300 p = true ->
           y = (- np_log10 (float_max p 1e-300))%float) /\
          (PrimFloat.eqb p 0 = true ->
           y = (- np_log10 1e-300)%float /\
           (np_log10 1e-300%float = (-300)%float ->
            y = 300%float /\ is_finite y = true /\ is_nan y = false)).
Proof.
  intros np_log10 thr up down st df d ps ls H P L.
  exists (annotated np_log10 thr up down d ps ls). split.
  - rewrite (filter_deseq_data_run _ _ _ _ _ _ _ _ _ H P L).
    apply nth_error_snoc.
  - intros i p Hp. exists (neg_log10_padj np_log10 p).
    split; [now apply cell_annotated_neg_log10|].
    unfold neg_log10_padj. split; [reflexivity|]. split.
    + intros [Z | G].
      * rewrite Z. now destruct (eqb_zero p Z) as [-> | ->].
      * assert (PrimFloat.eqb p 0 = false) as ->.
        { destruct (PrimFloat.eqb p 0) eqn:Z; [|reflexivity].
          destruct (eqb_zero p Z) as [-> | ->]; discriminate G. }
        unfold float_max. now rewrite (leb_not_ltb _ _ G).
    + intros Z. rewrite Z. split; [reflexivity|].
      intros ->. now repeat split.
Qed.

(** The contract can be met. *)
Lemma log10_steps_contract : log10_contract log10_steps.
Proof.
  split; [reflexivity|].
  intros x H0 H1. unfold log10_steps.
  assert (is_nan x = false) as ->.
  { destruct (is_nan x) eqn:N; [|reflexivity].
    now rewrite (leb_nan_l x _ N) in H1. }
  assert (PrimFloat.ltb x 0 = false) as ->.
  { destruct (PrimFloat.ltb x 0) eqn:E; [|reflexivity].
    rewrite FloatAxioms.ltb_spec in H0, E. revert H0 E.
    unfold SFltb, SFcompare. change (Prim2SF 0) with (S754_zero false).
    destruct (Prim2SF x) as [[]|[]| |[] m e]; discriminate. }
  assert (PrimFloat.eqb x 0 = false) as ->.
  { destruct (PrimFloat.eqb x 0) eqn:E; [|reflexivity].
    destruct (eqb_zero x E) as [-> | ->]; discriminate H0. }
  now rewrite H1.
Qed.

(** The last row of [example_frame] has a zero p-value. *)
Lemma filter_deseq_data_neg_log10_witness :
  exists out,
    table_of (filter_deseq_data log10_steps 0 0.05 1 (-1) example_state)
      = Some out /\
    cell out "-log10(padj)" 5 = Some (VFloat 300).
Proof.
  destruct (filter_deseq_data_neg_log10 log10_steps 0.05 1 (-1)
              example_state 0 example_frame
              [0.001; 0.0001; 0.2; 0.05; 0.01; 0]%float
              [2.5; -3; 0.2; 1; 1; 0]%float
              eq_refl (conj eq_refl eq_refl) (conj eq_refl eq_refl))
    as (out & T & R).
  exists out. split; [exact T|].
  destruct (R 5 0%float eq_refl) as (y & C & _ & _ & Z).
  destruct (Z eq_refl) as [_ Z300].
  destruct (Z300 eq_refl) as [-> _]. exact C.
Defined.

(** C2, counterexample. A row with [padj = 1e-310], a positive number
    below [1e-300]: the claimed value is [-log10(max(1e-310, 1e-300)) =
    -log10(1e-300)], but the cell is [-log10(1e-310)], which is another
    number for every [log10] that meets the contract. *)
Lemma filter_deseq_data_neg_log10_not_max :
  (PrimFloat.ltb 0 1e-310 = true /\ PrimFloat.leb 1e-310 1 = true) /\
  float_max 1e-310 1e-300 = 1e-300%float /\
  log10_contract log10_steps /\
  forall np_log10 : float -> float,
    log10_contract np_log10 ->
    exists out y,
      table_of (filter_deseq_data np_log10 0 0.05 1 (-1)
                  {| heap := [tiny_padj_frame]; ui := [] |}) = Some out /\
      cell out "-log10(padj)" 0 = Some (VFloat y) /\
      y = (- np_log10 1e-310)%float /\
      y <> (- np_log10 (float_max 1e-310 1e-300))%float.
Proof.
  split; [now split|]. split; [reflexivity|].
  split; [exact log10_steps_contract|].
  intros np_log10 [E300 Tiny].
  exists (annotated np_log10 0.05 1 (-1) tiny_padj_frame [1e-310%float]
            [0%float]), (- np_log10 1e-310)%float.
  split; [|split; [reflexivity|split; [reflexivity|]]].
  - rewrite (filter_deseq_data_run np_log10 0.05 1 (-1) _ 0 tiny_padj_frame
               [1e-310%float] [0%float]); try (now split).
  - change (float_max 1e-310 1e-300) with 1e-300%float. rewrite E300.
    intros E. apply (f_equal PrimFloat.opp) in E.
    rewrite opp_involutive in E.
    pose proof (Tiny 1e-310%float eq_refl eq_refl) as T.
    rewrite E in T. discriminate T.
Qed.

Lemma touches_only_ret {A : Type} (r : ref) (a : A) : touches_only r (ret a).
Proof. intros s. now repeat split. Qed.

Lemma touches_only_raise {A : Type} (r : ref) (e : exn) :
  touches_only r (@raise A e).
Proof. intros s. now repeat split. Qed.

Lemma touches_only_bind {A B : Type} (r : ref) (m : M A) (k : A -> M B) :
  touches_only r m -> (forall a, touches_only r (k a)) ->
  touches_only r (bind m k).
Proof.
  intros Hm Hk s. unfold bind. specialize (Hm s).
  destruct (m s) as [a s'|e s']; [|exact Hm].
  simpl in Hm. destruct Hm as (L & U & N), (Hk a s') as (L' & U' & N').
  split; [congruence|]. split; [congruence|].
  intros r' Ne. now rewrite N', N.
Qed.

Lemma touches_only_deref (r r0 : ref) : touches_only r (deref r0).
Proof.
  intros s. unfold deref. destruct (nth_error (heap s) r0);
    now repeat split.
Qed.

Lemma touches_only_getitem (r r0 : ref) (name : string) :
  touches_only r (getitem r0 name).
Proof.
  apply touches_only_bind; [apply touches_only_deref|].
  intros d. destruct (assoc name (columns d));
    [apply touches_only_ret | apply touches_only_raise].
Qed.

Lemma touches_only_setitem (r : ref) (name : string) (xs : list value) :
  touches_only r (setitem r name xs).
Proof.
  apply touches_only_bind; [apply touches_only_deref|].
  intros d. destruct (_ =? _)%nat; [|apply touches_only_raise].
  intros s. unfold assign. cbn [final_state heap ui].
  split; [apply update_length|]. split; [reflexivity|].
  intros r' N. now apply nth_error_update_ne.
Qed.

Lemma touches_only_series_cmp (r : ref) (op : float -> float -> bool)
  (xs : list value) (k : float) :
  touches_only r (series_cmp op xs k).
Proof.
  induction xs as [|[x|s] xs IH]; simpl;
    [apply touches_only_ret | | apply touches_only_raise].
  apply touches_only_bind; [exact IH | intros bs; apply touches_only_ret].
Qed.

Lemma touches_only_series_neg (r : ref) (xs : list value) :
  touches_only r (series_neg xs).
Proof.
  induction xs as [|[x|s] xs IH]; simpl;
    [apply touches_only_ret | | apply touches_only_raise].
  apply touches_only_bind; [exact IH | intros bs; apply touches_only_ret].
Qed.

Lemma touches_only_series_log10 (np_log10 : float -> float) (r : ref)
  (xs : list value) :
  touches_only r (series_log10 np_log10 xs).
Proof.
  induction xs as [|[x|s] xs IH]; simpl;
    [apply touches_only_ret | | apply touches_only_raise].
  apply touches_only_bind; [exact IH | intros bs; apply touches_only_ret].
Qed.

Lemma copy_raises (df : ref) (s : state) :
  nth_error (heap s) df = None -> copy df s = Raises NameError s.
Proof. intros H. unfold copy, bind, deref. now rewrite H. Qed.

(** A computation that copies a frame and then writes to the copy only
    leaves every existing frame as it was, whether it returns or raises. *)
Lemma copy_then_touches_only {A : Type} (df : ref) (k : ref -> M A)
  (st : state) :
  (forall r, touches_only r (k r)) ->
  ui (final_state (bind (copy df) k st)) = ui st /\
  forall r d,
    nth_error (heap st) r = Some d ->
    nth_error (heap (final_state (bind (copy df) k st))) r = Some d.
Proof.
  intros T. destruct (nth_error (heap st) df) as [d0|] eqn:E.
  - rewrite (bind_returns _ _ _ _ _ (copy_run _ _ _ E)).
    destruct (T (length (heap st))
                {| heap := heap st ++ [d0]; ui := ui st |}) as (_ & U & N).
    split; [exact U|]. intros r d H. rewrite N.
    + now apply nth_error_snoc_old.
    + apply nth_error_lt in H. lia.
  - unfold bind. rewrite (copy_raises _ _ E). now split.
Qed.

(** Whatever the input and whether the call returns or raises, the
    classifier leaves every existing frame as it was: it writes to its own
    copy only. *)
Lemma filter_deseq_data_preserves (np_log10 : float -> float)
  (thr up down : float) (st : state) (df : ref) :
  ui (final_state (filter_deseq_data np_log10 df thr up down st)) = ui st /\
  forall r d,
    nth_error (heap st) r = Some d ->
    nth_error (heap (final_state
                       (filter_deseq_data np_log10 df thr up down st))) r
    = Some d.
Proof.
  unfold filter_deseq_data. apply copy_then_touches_only. intros r.
  unfold series_lt, series_ge, series_le.
  repeat first
    [ apply touches_only_getitem
    | apply touches_only_setitem
    | apply touches_only_series_cmp
    | apply touches_only_series_neg
    | apply touches_only_series_log10
    | apply touches_only_ret
    | apply touches_only_bind; [|intros ?] ].
Qed.

(** C5 (as amended). For every input and thresholds, and whether the call
    returns or raises, the classifier leaves every frame that exists when
    it is called as it was, the caller's input among them. On a frame with
    numeric [padj] and [log2FoldChange] it returns a new object: a table
    that has the rows of the input and agrees with it on every column
    other than [Significance] and [-log10(padj)]; its columns are those of
    the input and these two. When the input has neither of them, the new
    table is the input extended by exactly these two columns, in this
    order. *)
Theorem filter_deseq_data_frame :
  forall (np_log10 : float -> float) (thr up down : float) (st : state)
         (df : ref),
    (ui (final_state (filter_deseq_data np_log10 df thr up down st))
     = ui st /\
     forall r0 d0,
       nth_error (heap st) r0 = Some d0 ->
       nth_error (heap (final_state
                          (filter_deseq_data np_log10 df thr up down st))) r0
       = Some d0) /\
    forall (d : DataFrame) (ps ls : list float),
      nth_error (heap st) df = Some d ->
      numeric_column d "padj" ps ->
      numeric_column d "log2FoldChange" ls ->
      exists r st' out,
        filter_deseq_data np_log10 df thr up down st = Returns r st' /\
        heap st' = heap st ++ [out] /\
        r = length (heap st) /\
        index out = index d /\
        (forall c, c <> "Significance" -> c <> "-log10(padj)" ->
                   assoc c (columns out) = assoc c (columns d)) /\
        (forall c, In c (column_names out) <->
                   In c (column_names d) \/
                   c = "Significance" \/ c = "-log10(padj)") /\
        (~ In "Significance" (column_names d) ->
         ~ In "-log10(padj)" (column_names d) ->
         exists sig logs,
           columns out =
             columns d ++ [("Significance", sig); ("-log10(padj)", logs)]).
Proof.
  intros np_log10 thr up down st df.
  split; [apply filter_deseq_data_preserves|].
  intros d ps ls H P L.
  exists (length (heap st)),
    {| heap := heap st ++ [annotated np_log10 thr up down d ps ls];
       ui := ui st |},
    (annotated np_log10 thr up down d ps ls).
  split; [now apply filter_deseq_data_run|].
  cbn [heap ui]. repeat (split; [reflexivity|]).
  split; [intros c; apply assoc_annotated_other|].
  split.
  - intros c. unfold column_names, annotated. cbn [columns].
    rewrite !assoc_set_names_In. tauto.
  - intros N1 N2. unfold annotated. cbn [columns].
    assert (forall k, ~ In k (column_names d) ->
                      existsb (String.eqb k) (column_names d) = false) as A.
    { intros k N. destruct (existsb _ _) eqn:E; [|reflexivity].
      now apply existsb_eqb_In in E. }
    do 2 eexists.
    rewrite (assoc_set_absent "Significance") by now apply A.
    rewrite assoc_set_absent.
    + now rewrite <- app_assoc.
    + rewrite map_app, existsb_app. fold (column_names d).
      now rewrite (A _ N2).
Qed.

(** [example_frame] has neither derived column: they are appended. *)
Lemma filter_deseq_data_frame_witness :
  exists r st' out,
    filter_deseq_data log10_steps 0 0.05 1 (-1) example_state
      = Returns r st' /\
    heap st' = [example_frame; out] /\
    column_names out =
      ["log2FoldChange"; "padj"; "Significance"; "-log10(padj)"].
Proof.
  destruct (proj2 (filter_deseq_data_frame log10_steps 0.05 1 (-1)
                     example_state 0)
              example_frame
              [0.001; 0.0001; 0.2; 0.05; 0.01; 0]%float
              [2.5; -3; 0.2; 1; 1; 0]%float
              eq_refl (conj eq_refl eq_refl) (conj eq_refl eq_refl))
    as (r & st' & out & R & Hp & _ & _ & _ & _ & C).
  exists r, st', out. split; [exact R|]. split; [exact Hp|].
  destruct C as (sig & logs & C).
  - simpl. intuition discriminate.
  - simpl. intuition discriminate.
  - unfold column_names. rewrite C. reflexivity.
Defined.

(** C5, counterexample. The input has a column named [Significance]: the
    returned table does not agree with the input on this column, and it
    has one column more than the input, not two. *)
Lemma filter_deseq_data_overwrites_significance :
  exists r st' out,
    filter_deseq_data log10_steps 0 0.05 1 (-1)
      {| heap := [relabelled_frame]; ui := [] |} = Returns r st' /\
    nth_error (heap st') r = Some out /\
    assoc "Significance" (columns relabelled_frame)
      = Some [VStr "curated"] /\
    assoc "Significance" (columns out) = Some [VStr "Not Significant"] /\
    column_names out =
      ["log2FoldChange"; "padj"; "Significance"; "-log10(padj)"] /\
    column_names relabelled_frame =
      ["log2FoldChange"; "padj"; "Significance"].
Proof.
  do 3 eexists. split; [vm_compute; reflexivity|].
  split; [reflexivity|]. now repeat split.
Qed.

(** C6. The classification pass is deterministic and can be repeated: a
    second call on the same input and thresholds, made after the first,
    returns a table identical to the first one, which is still in place.
    The [Significance] of a row depends only on its own [padj] and
    [log2FoldChange] and on the thresholds: two rows with the same two
    values, in the same table or in different ones, get the same label. *)
Theorem filter_deseq_data_deterministic :
  forall (np_log10 : float -> float) (thr up down : float) (st : state)
         (df : ref) (d : DataFrame) (ps ls : list float),
    nth_error (heap st) df = Some d ->
    numeric_column d "padj" ps ->
    numeric_column d "log2FoldChange" ls ->
    exists r1 st1 r2 st2 out,
      filter_deseq_data np_log10 df thr up down st = Returns r1 st1 /\
      filter_deseq_data np_log10 df thr up down st1 = Returns r2 st2 /\
      nth_error (heap st1) r1 = Some out /\
      nth_error (heap st2) r2 = Some out /\
      nth_error (heap st2) r1 = Some out /\
      forall (st' : state) (df' : ref) (d' : DataFrame)
             (ps' ls' : list float),
        nth_error (heap st') df' = Some d' ->
        numeric_column d' "padj" ps' ->
        numeric_column d' "log2FoldChange" ls' ->
        exists out',
          table_of (filter_deseq_data np_log10 df' thr up down st')
            = Some out' /\
          forall i j p l,
            nth_error ps i = Some p -> nth_error ls i = Some l ->
            nth_error ps' j = Some p -> nth_error ls' j = Some l ->
            exists s,
              cell out "Significance" i = Some (VStr s) /\
              cell out' "Significance" j = Some (VStr s).
Proof.
  intros np_log10 thr up down st df d ps ls H P L.
  set (out := annotated np_log10 thr up down d ps ls).
  set (st1 := {| heap := heap st ++ [out]; ui := ui st |}).
  assert (nth_error (heap st1) df = Some d) as H1
    by now apply nth_error_snoc_old.
  exists (length (heap st)), st1, (length (heap st1)),
    {| heap := heap st1 ++ [out]; ui := ui st1 |}, out.
  split; [now apply filter_deseq_data_run|].
  split; [now apply filter_deseq_data_run|].
  split; [apply nth_error_snoc|].
  split; [apply nth_error_snoc|].
  split; [apply nth_error_snoc_old, nth_error_snoc|].
  intros st' df' d' ps' ls' H' P' L'.
  exists (annotated np_log10 thr up down d' ps' ls'). split.
  - rewrite (filter_deseq_data_run _ _ _ _ _ _ _ _ _ H' P' L').
    apply nth_error_snoc.
  - intros i j p l Hp Hl Hp' Hl'.
    exists (significance_label thr up down p l).
    split; now apply cell_annotated_significance.
Qed.

(** Two passes over [example_frame]. *)
Lemma filter_deseq_data_deterministic_witness :
  exists r1 st1 r2 st2 out,
    filter_deseq_data log10_steps 0 0.05 1 (-1) example_state
      = Returns r1 st1 /\
    filter_deseq_data log10_steps 0 0.05 1 (-1) st1 = Returns r2 st2 /\
    nth_error (heap st1) r1 = Some out /\
    nth_error (heap st2) r2 = Some out.
Proof.
  destruct (filter_deseq_data_deterministic log10_steps 0.05 1 (-1)
              example_state 0 example_frame
              [0.001; 0.0001; 0.2; 0.05; 0.01; 0]%float
              [2.5; -3; 0.2; 1; 1; 0]%float
              eq_refl (conj eq_refl eq_refl) (conj eq_refl eq_refl))
    as (r1 & st1 & r2 & st2 & out & R1 & R2 & O1 & O2 & _).
  now exists r1, st1, r2, st2, out.
Defined.

(** ** Row selection *)

Lemma nonzero_from_filter (f : nat -> bool) (k n : nat) :
  nonzero_from k (map f (seq k n)) = filter f (seq k n).
Proof.
  revert k. induction n as [|n IH]; intros k; simpl; [reflexivity|].
  rewrite IH. reflexivity.
Qed.

Lemma nonzero_filter (f : nat -> bool) (n : nat) :
  nonzero (map f (seq 0 n)) = filter f (seq 0 n).
Proof. apply nonzero_from_filter. Qed.

Lemma take_map {A B : Type} (g : A -> B) (idx : list nat) (xs : list A) :
  take idx (map g xs) = map g (take idx xs).
Proof.
  induction idx as [|i idx IH]; simpl; [reflexivity|].
  rewrite nth_error_map. destruct (nth_error xs i); simpl; now rewrite IH.
Qed.

(** With positions inside the list, [take] reads the list at each of
    them. *)
Lemma take_nth_error {A : Type} (idx : list nat) (xs : list A) (k : nat) :
  Forall (fun i => i < length xs) idx ->
  nth_error (take idx xs) k =
    match nth_error idx k with
    | Some i => nth_error xs i
    | None => None
    end.
Proof.
  intros V. revert k. induction V as [|i idx Hi V IH]; intros k; simpl.
  - now destruct k.
  - destruct (nth_error xs i) as [x|] eqn:E.
    + destruct k; simpl; [now rewrite E | apply IH].
    + apply nth_error_None in E. lia.
Qed.

Lemma take_length {A : Type} (idx : list nat) (xs : list A) :
  Forall (fun i => i < length xs) idx -> length (take idx xs) = length idx.
Proof.
  induction 1 as [|i idx Hi V IH]; simpl; [reflexivity|].
  destruct (nth_error xs i) eqn:E; simpl; [now rewrite IH|].
  apply nth_error_None in E. lia.
Qed.

Lemma filter_seq_bound (f : nat -> bool) (n : nat) :
  Forall (fun i => i < n) (filter f (seq 0 n)).
Proof.
  apply Forall_forall. intros i I. apply filter_In in I as [I _].
  apply in_seq in I. lia.
Qed.

Lemma assoc_take_rows (c : string) (idx : list nat) (d : DataFrame) :
  assoc c (columns (take_rows idx d)) =
    option_map (take idx) (assoc c (columns d)).
Proof.
  unfold take_rows. cbn [columns].
  induction (columns d) as [|[k xs] l IH]; simpl; [reflexivity|].
  destruct (String.eqb c k); [reflexivity | exact IH].
Qed.

Lemma assoc_In_names {A : Type} (c : string) (l : list (string * A)) :
  In c (map fst l) <-> exists a, assoc c l = Some a.
Proof.
  induction l as [|[k a] l IH]; simpl.
  - split; [intros [] | intros [a E]; discriminate].
  - destruct (String.eqb_spec c k) as [->|N].
    + split; [intros _; now exists a | now left].
    + rewrite <- IH. split; [intros [E|I]; congruence | now right].
Qed.

Lemma filter_all {A : Type} (p : A -> bool) (l : list A) :
  (forall x, In x l -> p x = true) -> filter p l = l.
Proof.
  induction l as [|x l IH]; simpl; intros H; [reflexivity|].
  rewrite (H x (or_introl eq_refl)), IH; [reflexivity|].
  intros y I. apply H. now right.
Qed.

Lemma getitem_mask_run (r : ref) (mask : list bool) (d : DataFrame)
  (s : state) :
  nth_error (heap s) r = Some d ->
  getitem_mask r mask s =
    Returns (length (heap s))
      {| heap := heap s ++ [take_rows (nonzero mask) d]; ui := ui s |}.
Proof.
  intros H. unfold getitem_mask.
  now rewrite (bind_returns _ _ _ _ _ (deref_run _ _ _ H)).
Qed.

Lemma df_len_run (r : ref) (d : DataFrame) (s : state) :
  nth_error (heap s) r = Some d ->
  df_len r s = Returns (length (index d)) s.
Proof.
  intros H. unfold df_len.
  now rewrite (bind_returns _ _ _ _ _ (deref_run _ _ _ H)).
Qed.

(** Selecting with the mask [map f xs] from a column [map g xs] keeps the
    cells of the rows at which [f] holds. *)
Lemma take_nonzero_from {A B : Type} (f : A -> bool) (g : A -> B)
  (xs : list A) (pre : list B) :
  take (nonzero_from (length pre) (map f xs)) (pre ++ map g xs) =
    map g (filter f xs).
Proof.
  revert pre. induction xs as [|x xs IH]; intros pre; simpl;
    [reflexivity|].
  assert (take (nonzero_from (S (length pre)) (map f xs))
               (pre ++ g x :: map g xs) = map g (filter f xs)) as E.
  { specialize (IH (pre ++ [g x])).
    now rewrite length_app, Nat.add_1_r, <- app_assoc in IH. }
  destruct (f x); simpl; [|exact E].
  rewrite nth_error_app2, Nat.sub_diag by lia. simpl. now rewrite E.
Qed.

Lemma take_nonzero_map {A B : Type} (f : A -> bool) (g : A -> B)
  (xs : list A) :
  take (nonzero (map f xs)) (map g xs) = map g (filter f xs).
Proof. apply (take_nonzero_from f g xs []). Qed.

Lemma map_fst_combine {A B : Type} (a : list A) (b : list B) :
  length a = length b -> map fst (combine a b) = a.
Proof.
  revert b. induction a as [|x a IH]; intros [|y b]; simpl;
    try discriminate; [reflexivity|].
  intros [= E]. now rewrite IH.
Qed.

Lemma map_snd_combine {A B : Type} (a : list A) (b : list B) :
  length a = length b -> map snd (combine a b) = b.
Proof.
  revert b. induction a as [|x a IH]; intros [|y b]; simpl;
    try discriminate; [reflexivity|].
  intros [= E]. now rewrite IH.
Qed.

Lemma filter_fst_combine_length {A B : Type} (f : A -> bool) (a : list A)
  (b : list B) :
  length a = length b ->
  length (filter (fun p : A * B => f (fst p)) (combine a b)) =
    length (filter f a).
Proof.
  revert b. induction a as [|x a IH]; intros [|y b]; simpl;
    try discriminate; [reflexivity|].
  intros [= E]. destruct (f x); simpl; now rewrite IH.
Qed.

(** The number of rows that a mask keeps. *)
Lemma take_nonzero_length {A B : Type} (f : A -> bool) (xs : list A)
  (ys : list B) :
  length ys = length xs ->
  length (take (nonzero (map f xs)) ys) = length (filter f xs).
Proof.
  intros E.
  assert (ys = map snd (combine xs ys)) as Y
    by (symmetry; apply map_snd_combine; congruence).
  assert (map f xs = map (fun p : A * B => f (fst p)) (combine xs ys)) as X.
  { rewrite <- (map_fst_combine xs ys) at 1 by congruence.
    now rewrite map_map. }
  transitivity
    (length (take (nonzero (map (fun p : A * B => f (fst p))
                                (combine xs ys)))
                  (map snd (combine xs ys))));
    [now rewrite <- X, <- Y|].
  rewrite take_nonzero_map, length_map.
  apply filter_fst_combine_length. congruence.
Qed.

Lemma take_seq_from {A : Type} (pre xs : list A) :
  take (seq (length pre) (length xs)) (pre ++ xs) = xs.
Proof.
  revert pre. induction xs as [|x xs IH]; intros pre; simpl; [reflexivity|].
  rewrite nth_error_app2, Nat.sub_diag by lia. simpl. f_equal.
  specialize (IH (pre ++ [x])).
  now rewrite length_app, Nat.add_1_r, <- app_assoc in IH.
Qed.

Lemma take_seq {A : Type} (xs : list A) : take (seq 0 (length xs)) xs = xs.
Proof. apply (take_seq_from [] xs). Qed.

(** Taking every row of a frame gives the frame. *)
Lemma take_rows_all (d : DataFrame) :
  well_formed d -> take_rows (seq 0 (length (index d))) d = d.
Proof.
  intros W. destruct d as [idx cols]. unfold take_rows, well_formed in *.
  cbn [index columns] in *. rewrite take_seq. f_equal.
  induction W as [|[c xs] cols E _ IH]; simpl; [reflexivity|].
  cbn [snd] in E. rewrite IH. do 2 f_equal. rewrite <- E. apply take_seq.
Qed.

(** Two selections in a row are one selection. *)
Lemma take_take {A : Type} (idx1 idx2 : list nat) (xs : list A) :
  Forall (fun i => i < length xs) idx1 ->
  take idx2 (take idx1 xs) = take (take idx2 idx1) xs.
Proof.
  intros V. induction idx2 as [|k idx2 IH]; simpl; [reflexivity|].
  rewrite (take_nth_error idx1 xs k V).
  destruct (nth_error idx1 k) as [i|] eqn:E; [|exact IH].
  simpl. destruct (nth_error xs i) as [x|] eqn:Ex; [now rewrite IH|].
  apply nth_error_In in E.
  pose proof (proj1 (Forall_forall _ _) V i E) as B. cbv beta in B.
  apply nth_error_None in Ex. lia.
Qed.

Lemma take_rows_take_rows (idx1 idx2 : list nat) (d : DataFrame) :
  well_formed d ->
  Forall (fun i => i < length (index d)) idx1 ->
  take_rows idx2 (take_rows idx1 d) = take_rows (take idx2 idx1) d.
Proof.
  intros W V. unfold take_rows. cbn [index columns].
  rewrite (take_take idx1 idx2 (index d) V). f_equal.
  rewrite map_map. apply map_ext_in. intros [c xs] I. cbn [fst snd].
  f_equal. apply take_take.
  pose proof (proj1 (Forall_forall _ _) W _ I) as E. cbn [snd] in E.
  now rewrite E.
Qed.

(** The positions at which a mask computed from the cells of a column
    holds. *)
Lemma map_nth_error_seq {A B : Type} (h : option A -> B) (xs : list A) :
  map (fun i => h (nth_error xs i)) (seq 0 (length xs)) =
    map (fun x => h (Some x)) xs.
Proof.
  assert (forall pre,
             map (fun i => h (nth_error (pre ++ xs) i))
                 (seq (length pre) (length xs)) =
             map (fun x => h (Some x)) xs) as G.
  { induction xs as [|x xs IH]; intros pre; simpl; [reflexivity|].
    rewrite nth_error_app2, Nat.sub_diag by lia. simpl. f_equal.
    specialize (IH (pre ++ [x])).
    now rewrite length_app, Nat.add_1_r, <- app_assoc in IH. }
  apply (G []).
Qed.

Lemma nonzero_cells {A : Type} (h : option A -> bool) (xs : list A) :
  nonzero (map (fun x => h (Some x)) xs) =
    filter (fun i => h (nth_error xs i)) (seq 0 (length xs)).
Proof. now rewrite <- map_nth_error_seq, nonzero_filter. Qed.

Lemma map_take_cells {A B : Type} (h : option A -> B) (idx : list nat)
  (xs : list A) :
  Forall (fun i => i < length xs) idx ->
  map (fun x => h (Some x)) (take idx xs) =
    map (fun i => h (nth_error xs i)) idx.
Proof.
  induction 1 as [|i idx Hi _ IH]; simpl; [reflexivity|].
  destruct (nth_error xs i) as [x|] eqn:E.
  - simpl. now rewrite IH.
  - apply nth_error_None in E. lia.
Qed.

Lemma filter_filter {A : Type} (f g : A -> bool) (l : list A) :
  filter g (filter f l) = filter (fun x => f x && g x) l.
Proof.
  induction l as [|x l IH]; simpl; [reflexivity|].
  destruct (f x); simpl; [|exact IH]. now rewrite IH.
Qed.

Lemma take_nonzero_self (f : nat -> bool) (idx : list nat) :
  take (nonzero (map f idx)) idx = filter f idx.
Proof.
  rewrite <- (map_id idx) at 2. rewrite take_nonzero_map. apply map_id.
Qed.

Lemma assoc_In {A : Type} (k : string) (a : A) (l : list (string * A)) :
  assoc k l = Some a -> In (k, a) l.
Proof.
  induction l as [|[k' x] l IH]; simpl; [discriminate|].
  destruct (String.eqb_spec k k') as [<-|N].
  - intros [= ->]. now left.
  - intros E. right. now apply IH.
Qed.

Lemma well_formed_column (d : DataFrame) (c : string) (xs : list value) :
  well_formed d -> assoc c (columns d) = Some xs ->
  length xs = length (index d).
Proof.
  intros W C. apply assoc_In in C.
  exact (proj1 (Forall_forall _ _) W _ C).
Qed.

(** The rows, the labels and the cells of a selection: row [k] of the
    selection is the row of the frame at the [k]-th of the positions. *)
Lemma column_names_take_rows (idx : list nat) (d : DataFrame) :
  column_names (take_rows idx d) = column_names d.
Proof.
  unfold column_names, take_rows. cbn [columns]. rewrite map_map.
  apply map_ext. now intros [c xs].
Qed.

Lemma index_take_rows (idx : list nat) (d : DataFrame) (k : nat) :
  Forall (fun i => i < length (index d)) idx ->
  nth_error (index (take_rows idx d)) k =
    match nth_error idx k with
    | Some i => nth_error (index d) i
    | None => None
    end.
Proof. intros V. unfold take_rows. cbn [index]. now apply take_nth_error. Qed.

Lemma cell_take_rows (idx : list nat) (d : DataFrame) (c : string)
  (k : nat) :
  well_formed d ->
  Forall (fun i => i < length (index d)) idx ->
  cell (take_rows idx d) c k =
    match nth_error idx k with
    | Some i => cell d c i
    | None => None
    end.
Proof.
  intros W V. unfold cell. rewrite assoc_take_rows.
  destruct (assoc c (columns d)) as [xs|] eqn:E; cbn [option_map].
  - apply take_nth_error. now rewrite (well_formed_column d c xs W E).
  - now destruct (nth_error idx k).
Qed.

(** [dropna] on the two required columns. *)
Lemma dropna_run (st : state) (df : ref) (d : DataFrame)
  (ps ls : list float) :
  nth_error (heap st) df = Some d ->
  numeric_column d "padj" ps ->
  numeric_column d "log2FoldChange" ls ->
  dropna df ["log2FoldChange"; "padj"] st =
    Returns (length (heap st))
      {| heap := heap st ++ [take_rows (complete_rows d) d]; ui := ui st |}.
Proof.
  intros H [P LP] [L LL]. unfold dropna.
  rewrite (bind_returns _ _ _ _ _ (deref_run _ _ _ H)).
  cbn [lookup_all]. rewrite L, P. unfold new_frame.
  rewrite nonzero_filter. unfold complete_rows.
  do 4 f_equal. f_equal. apply filter_ext_in. intros i I. apply in_seq in I.
  unfold notna_at, complete_row, cell. rewrite P, L. cbn [forallb].
  destruct (nth_error (map VFloat ls) i) eqn:El.
  - destruct (nth_error (map VFloat ps) i) eqn:Ep.
    + now rewrite andb_true_r.
    + apply nth_error_None in Ep. rewrite length_map in Ep. lia.
  - apply nth_error_None in El. rewrite length_map in El. lia.
Qed.

Lemma update_update {A : Type} (r : nat) (a b : A) (l : list A) :
  update r b (update r a l) = update r b l.
Proof.
  revert r. induction l as [|x l IH]; intros [|r]; simpl;
    try reflexivity. now rewrite IH.
Qed.

Lemma existsb_eqb_assoc {A : Type} (c : string) (l : list (string * A)) :
  existsb (String.eqb c) (map fst l) =
    match assoc c l with Some _ => true | None => false end.
Proof.
  induction l as [|[k a] l IH]; simpl; [reflexivity|].
  now destruct (String.eqb c k).
Qed.

Lemma st_warning_run (msg : string) (s : state) :
  st_warning msg s =
    Returns tt {| heap := heap s; ui := ui s ++ [Warning msg] |}.
Proof. reflexivity. Qed.

Section Ingestion.

Variable np_log10 : float -> float.
Variable str_of_float : float -> string.

(** The labelling step: it returns, with the two label columns set in
    place. *)
Lemma extract_gene_information_run (st : state) (df : ref)
  (d : DataFrame) :
  nth_error (heap st) df = Some d ->
  labels_ready d ->
  extract_gene_information str_of_float df st =
    Returns tt
      {| heap := update df
                   (labelled d (fst (gene_labels str_of_float d))
                               (snd (gene_labels str_of_float d)))
                   (heap st);
         ui := match assoc "Attributes" (columns d) with
               | Some _ => ui st
               | None => ui st ++ [Warning attributes_warning]
               end |}.
Proof.
  intros H R. pose proof (nth_error_lt _ _ _ H) as B.
  unfold extract_gene_information, gene_labels.
  run_with (df_columns_run _ _ _ H).
  unfold column_names. rewrite existsb_eqb_assoc.
  destruct (assoc "Attributes" (columns d)) as [attributes|] eqn:E.
  - destruct (R attributes E) as [Ne Len].
    run_with (getitem_run _ _ _ _ _ H E).
    destruct attributes as [|a attributes]; [now elim Ne|].
    set (info := map (extract_gene_info str_of_float) (a :: attributes)).
    change (match info with
            | [] => raise ValueError
            | _ :: _ =>
                setitem df "gene_name" (map (fun p => VStr (fst p)) info) ;;;
                setitem df "locus_tag" (map (fun p => VStr (snd p)) info)
            end st)
      with ((setitem df "gene_name" (map (fun p => VStr (fst p)) info) ;;;
             setitem df "locus_tag" (map (fun p => VStr (snd p)) info)) st).
    erewrite bind_returns;
      [|apply (setitem_run _ _ _ _ _ H);
        unfold info; now rewrite !length_map].
    erewrite setitem_run;
      [|cbn [heap]; now apply nth_error_update_eq
       |cbn [index]; unfold info; now rewrite !length_map].
    cbn [heap ui index columns]. rewrite update_update.
    unfold labelled, info. now rewrite !map_map.
  - run_with (st_warning_run attributes_warning st).
    set (st1 := {| heap := heap st;
                   ui := ui st ++ [Warning attributes_warning] |}).
    assert (nth_error (heap st1) df = Some d) as H1 by exact H.
    run_with (df_index_run _ _ _ H1).
    erewrite bind_returns;
      [|apply (setitem_run _ _ _ _ _ H1); now rewrite length_map].
    erewrite bind_returns;
      [|apply df_index_run; cbn [heap]; now apply nth_error_update_eq].
    erewrite setitem_run;
      [|cbn [heap]; now apply nth_error_update_eq
       |cbn [index]; now rewrite length_map].
    cbn [heap ui index columns]. now rewrite update_update.
Qed.

Lemma numeric_column_labelled (d : DataFrame) (gene locus : list value)
  (c : string) (xs : list float) :
  c <> "gene_name" -> c <> "locus_tag" ->
  numeric_column d c xs -> numeric_column (labelled d gene locus) c xs.
Proof.
  intros N1 N2 [C Len]. split; [|exact Len].
  unfold labelled. cbn [columns]. now rewrite !assoc_set_ne by congruence.
Qed.

Lemma complete_rows_labelled (d : DataFrame) (gene locus : list value) :
  complete_rows (labelled d gene locus) = complete_rows d.
Proof.
  unfold complete_rows, complete_row, cell, labelled. cbn [columns index].
  now rewrite !assoc_set_ne by discriminate.
Qed.

Lemma complete_rows_bound (d : DataFrame) :
  Forall (fun i => i < length (index d)) (complete_rows d).
Proof. apply filter_seq_bound. Qed.

Lemma numeric_column_take_rows (d : DataFrame) (c : string)
  (xs : list float) :
  numeric_column d c xs ->
  numeric_column (take_rows (complete_rows d) d) c
                 (take (complete_rows d) xs).
Proof.
  intros [C Len]. split.
  - now rewrite assoc_take_rows, C, <- take_map.
  - unfold take_rows. cbn [index].
    rewrite !take_length; [reflexivity | |];
      try rewrite Len; apply complete_rows_bound.
Qed.

(** The whole ingestion: labels, [dropna], classification. *)
Lemma main_content_run (thr up down : float) (st : state) (df : ref)
  (d : DataFrame) (ps ls : list float) :
  nth_error (heap st) df = Some d ->
  labels_ready d ->
  numeric_column d "padj" ps ->
  numeric_column d "log2FoldChange" ls ->
  let d1 := labelled d (fst (gene_labels str_of_float d))
                       (snd (gene_labels str_of_float d)) in
  let d2 := take_rows (complete_rows d) d1 in
  main_content np_log10 str_of_float df thr up down st =
    Returns (S (length (heap st)))
      {| heap := update df d1 (heap st) ++
                 [d2;
                  annotated np_log10 thr up down d2
                    (take (complete_rows d) ps)
                    (take (complete_rows d) ls)];
         ui := match assoc "Attributes" (columns d) with
               | Some _ => ui st
               | None => ui st ++ [Warning attributes_warning]
               end |}.
Proof.
  intros H R P L d1 d2. unfold main_content.
  run_with (extract_gene_information_run st df d H R).
  fold d1. set (u := match assoc "Attributes" (columns d) with
                     | Some _ => ui st
                     | None => ui st ++ [Warning attributes_warning]
                     end).
  set (s1 := {| heap := update df d1 (heap st); ui := u |}).
  assert (nth_error (heap s1) df = Some d1) as H1
    by (apply nth_error_update_eq; now apply nth_error_lt in H).
  assert (numeric_column d1 "padj" ps) as P1
    by now apply numeric_column_labelled.
  assert (numeric_column d1 "log2FoldChange" ls) as L1
    by now apply numeric_column_labelled.
  run_with (dropna_run s1 df d1 ps ls H1 P1 L1).
  replace (complete_rows d1) with (complete_rows d)
    by (symmetry; apply complete_rows_labelled).
  fold d2. subst s1. cbn [heap ui].
  set (s2 := {| heap := update df d1 (heap st) ++ [d2]; ui := u |}).
  assert (nth_error (heap s2) (length (update df d1 (heap st)))
          = Some d2) as H2 by apply nth_error_snoc.
  pose proof (numeric_column_take_rows d1 _ _ P1) as P2.
  pose proof (numeric_column_take_rows d1 _ _ L1) as L2.
  replace (complete_rows d1) with (complete_rows d) in P2, L2
    by (symmetry; apply complete_rows_labelled).
  rewrite (filter_deseq_data_run np_log10 thr up down s2 _ d2 _ _ H2 P2 L2).
  subst s2. cbn [heap ui]. rewrite length_app, update_length. cbn [length].
  rewrite Nat.add_1_r, <- app_assoc. reflexivity.
Qed.

End Ingestion.

(** ** Ingestion *)

Lemma StronglySorted_filter_seq (f : nat -> bool) (a n : nat) :
  StronglySorted lt (filter f (seq a n)).
Proof.
  revert a. induction n as [|n IH]; intros a; simpl; [constructor|].
  destruct (f a); [|apply IH].
  constructor; [apply IH|].
  apply Forall_forall. intros i I. apply filter_In in I as [I _].
  apply in_seq in I. lia.
Qed.

Lemma complete_rows_In (d : DataFrame) (ps ls : list float) (i : nat) :
  numeric_column d "padj" ps ->
  numeric_column d "log2FoldChange" ls ->
  In i (complete_rows d) <->
  exists l p, cell d "log2FoldChange" i = Some l /\
              cell d "padj" i = Some p /\
              isna l = false /\ isna p = false.
Proof.
  intros [P LP] [L LL]. unfold complete_rows. rewrite filter_In, in_seq.
  unfold complete_row, cell. rewrite P, L. split.
  - intros [_ C].
    destruct (nth_error (map VFloat ls) i) as [l|]; [|discriminate].
    destruct (nth_error (map VFloat ps) i) as [p|]; [|discriminate].
    apply andb_true_iff in C as [C1 C2]. exists l, p.
    now rewrite <- (negb_involutive (isna l)), <- (negb_involutive (isna p)),
      C1, C2.
  - intros (l & p & El & Ep & Nl & Np). rewrite El, Ep, Nl, Np.
    split; [|reflexivity].
    apply nth_error_lt in El. rewrite length_map in El. lia.
Qed.

Section IngestionProperties.

Variable np_log10 : float -> float.
Variable str_of_float : float -> string.
Variables (thr up down : float).
Variable d : DataFrame.
Variables (ps ls : list float).
Hypothesis padj_numeric : numeric_column d "padj" ps.
Hypothesis lfc_numeric : numeric_column d "log2FoldChange" ls.

Let d1 : DataFrame :=
  labelled d (fst (gene_labels str_of_float d))
             (snd (gene_labels str_of_float d)).
Let d2 : DataFrame := take_rows (complete_rows d) d1.
Let out : DataFrame :=
  annotated np_log10 thr up down d2 (take (complete_rows d) ps)
                                     (take (complete_rows d) ls).

Lemma annotated_rows_column (c : string) (xs : list value) :
  assoc c (columns d) = Some xs ->
  c <> "gene_name" -> c <> "locus_tag" ->
  c <> "Significance" -> c <> "-log10(padj)" ->
  assoc c (columns out) = Some (take (complete_rows d) xs).
Proof.
  intros C N1 N2 N3 N4. unfold out.
  rewrite assoc_annotated_other by assumption.
  unfold d2. rewrite assoc_take_rows. unfold d1, labelled. cbn [columns].
  rewrite !assoc_set_ne by congruence. now rewrite C.
Qed.



Lemma annotated_rows_numeric (c : string) (xs : list float) (k i : nat) :
  numeric_column d c xs ->
  c <> "gene_name" -> c <> "locus_tag" ->
  c <> "Significance" -> c <> "-log10(padj)" ->
  nth_error (complete_rows d) k = Some i ->
  cell out c k = cell d c i /\
  nth_error (take (complete_rows d) xs) k = nth_error xs i.
Proof.
  intros [C Len] N1 N2 N3 N4 K.
  assert (nth_error (take (complete_rows d) xs) k = nth_error xs i) as T.
  { rewrite take_nth_error, K; [reflexivity|].
    rewrite Len. apply complete_rows_bound. }
  split; [|exact T]. unfold cell.
  rewrite (annotated_rows_column c _ C N1 N2 N3 N4), C.
  now rewrite take_map, !nth_error_map, T.
Qed.

Lemma annotated_rows_significance (k i : nat) :
  nth_error (complete_rows d) k = Some i ->
  exists s,
    cell out "Significance" k = Some (VStr s) /\
    (s = "Upregulated" \/ s = "Downregulated" \/ s = "Not Significant").
Proof.
  intros K.
  destruct (annotated_rows_numeric "padj" ps k i padj_numeric)
    as [_ Tp]; try discriminate; [exact K|].
  destruct (annotated_rows_numeric "log2FoldChange" ls k i lfc_numeric)
    as [_ Tl]; try discriminate; [exact K|].
  pose proof (Forall_forall (fun i => i < length (index d))
                (complete_rows d)) as [B _].
  specialize (B (complete_rows_bound d) i (nth_error_In _ _ K)).
  destruct padj_numeric as [_ LP], lfc_numeric as [_ LL].
  destruct (nth_error ps i) as [p|] eqn:Ep;
    [|apply nth_error_None in Ep; lia].
  destruct (nth_error ls i) as [l|] eqn:El;
    [|apply nth_error_None in El; lia].
  exists (significance_label thr up down p l). split.
  - now apply cell_annotated_significance.
  - unfold significance_label.
    destruct (_ && _); [now left|].
    destruct (_ && _); [right; now left | right; now right].
Qed.

End IngestionProperties.

(** C4. On a frame with numeric [padj] and [log2FoldChange] (and, when it
    has an [Attributes] column, at least one row) the ingestion returns the
    annotated table, and that table holds exactly the input rows in which
    both values are present, in their order: its [k]-th row is the input
    row at the [k]-th of the positions [complete_rows d], it carries the
    label, the cells of the two columns and every other column of that
    input row, and a [Significance] that is one of the three categories. A
    position is among [complete_rows d] exactly when both its cells are
    present and not missing; the other rows are not in the table at all,
    and no cell of the two columns of the table is missing. *)
Theorem main_content_complete_rows :
  forall (np_log10 : float -> float) (str_of_float : float -> string)
         (thr up down : float) (st : state) (df : ref) (d : DataFrame)
         (ps ls : list float),
    nth_error (heap st) df = Some d ->
    labels_ready d ->
    numeric_column d "padj" ps ->
    numeric_column d "log2FoldChange" ls ->
    exists out,
      table_of (main_content np_log10 str_of_float df thr up down st)
        = Some out /\
      index out = take (complete_rows d) (index d) /\
      length (index out) = length (complete_rows d) /\
      StronglySorted lt (complete_rows d) /\
      (forall i,
          In i (complete_rows d) <->
          exists l p, cell d "log2FoldChange" i = Some l /\
                      cell d "padj" i = Some p /\
                      isna l = false /\ isna p = false) /\
      (forall c xs,
          assoc c (columns d) = Some xs ->
          c <> "gene_name" -> c <> "locus_tag" ->
          c <> "Significance" -> c <> "-log10(padj)" ->
          assoc c (columns out) = Some (take (complete_rows d) xs)) /\
      (forall k i,
          nth_error (complete_rows d) k = Some i ->
          nth_error (index out) k = nth_error (index d) i /\
          cell out "log2FoldChange" k = cell d "log2FoldChange" i /\
          cell out "padj" k = cell d "padj" i /\
          exists s,
            cell out "Significance" k = Some (VStr s) /\
            (s = "Upregulated" \/ s = "Downregulated" \/
             s = "Not Significant")) /\
      (forall k v,
          cell out "log2FoldChange" k = Some v \/ cell out "padj" k = Some v ->
          isna v = false).
Proof.
  intros np_log10 str_of_float thr up down st df d ps ls H R P L.
  pose proof (main_content_run np_log10 str_of_float thr up down st df d
                ps ls H R P L) as Run.
  cbv zeta in Run.
  eexists. split.
  { rewrite Run. cbn [table_of heap].
    rewrite nth_error_app2; rewrite update_length; [|lia].
    replace (S (length (heap st)) - length (heap st)) with 1 by lia.
    reflexivity. }
  pose proof (complete_rows_bound d) as B.
  assert (forall k i,
             nth_error (complete_rows d) k = Some i ->
             nth_error (take (complete_rows d) (index d)) k
             = nth_error (index d) i) as Ix.
  { intros k i K. now rewrite take_nth_error, K. }
  split; [reflexivity|].
  split; [cbn [index annotated take_rows labelled]; now apply take_length|].
  split; [apply StronglySorted_filter_seq|].
  split; [intros i; now apply (complete_rows_In d ps ls)|].
  split; [intros c xs; now apply annotated_rows_column|].
  split.
  - intros k i K.
    split; [now apply Ix|].
    split; [now apply (annotated_rows_numeric np_log10 str_of_float thr up
                         down d ps ls "log2FoldChange" ls)|].
    split; [now apply (annotated_rows_numeric np_log10 str_of_float thr up
                         down d ps ls "padj" ps)|].
    now apply (annotated_rows_significance np_log10 str_of_float thr up down
                 d ps ls P L k i).
  - intros k v C.
    assert (exists i, nth_error (complete_rows d) k = Some i) as [i K].
    { destruct (nth_error (complete_rows d) k) as [i|] eqn:K;
        [now exists i|].
      exfalso. apply nth_error_None in K.
      assert (forall c xs, numeric_column d c xs ->
                c <> "gene_name" -> c <> "locus_tag" ->
                c <> "Significance" -> c <> "-log10(padj)" ->
                cell (annotated np_log10 thr up down
                        (take_rows (complete_rows d)
                           (labelled d (fst (gene_labels str_of_float d))
                                       (snd (gene_labels str_of_float d))))
                        (take (complete_rows d) ps)
                        (take (complete_rows d) ls)) c k = None) as No.
      { intros c xs [C0 Len] N1 N2 N3 N4. unfold cell.
        rewrite (annotated_rows_column np_log10 str_of_float thr up down d
                   ps ls c _ C0 N1 N2 N3 N4).
        apply nth_error_None. rewrite take_length; [exact K|].
        rewrite length_map, Len. exact B. }
      destruct C as [C | C];
        [rewrite (No _ _ L) in C | rewrite (No _ _ P) in C];
        discriminate. }
    apply nth_error_In in K as I.
    apply (complete_rows_In d ps ls i P L) in I
      as (l & p & El & Ep & Nl & Np).
    destruct C as [C | C].
    + rewrite (proj1 (annotated_rows_numeric np_log10 str_of_float thr up
                        down d ps ls "log2FoldChange" ls k i L
                        ltac:(discriminate) ltac:(discriminate)
                        ltac:(discriminate) ltac:(discriminate) K)) in C.
      congruence.
    + rewrite (proj1 (annotated_rows_numeric np_log10 str_of_float thr up
                        down d ps ls "padj" ps k i P
                        ltac:(discriminate) ltac:(discriminate)
                        ltac:(discriminate) ltac:(discriminate) K)) in C.
      congruence.
Qed.

Lemma labels_ready_annotated_gff : labels_ready annotated_gff_frame.
Proof. intros attributes [= <-]. split; [discriminate | reflexivity]. Qed.

(** The ingestion of [annotated_gff_frame] keeps its first two rows. *)
Lemma main_content_complete_rows_witness :
  exists out,
    table_of (main_content log10_steps (fun _ => "") 0 0.05 1 (-1)
                {| heap := [annotated_gff_frame]; ui := [] |}) = Some out /\
    index out = [Pos 0; Pos 1] /\
    complete_rows annotated_gff_frame = [0; 1].
Proof.
  destruct (main_content_complete_rows log10_steps (fun _ => "") 0.05 1 (-1)
              {| heap := [annotated_gff_frame]; ui := [] |} 0
              annotated_gff_frame
              [0.001; 0.0001; 0.2]%float [2.5; -3; nan]%float
              eq_refl labels_ready_annotated_gff
              (conj eq_refl eq_refl) (conj eq_refl eq_refl))
    as (out & T & I & _).
  exists out. split; [exact T|]. split; [exact I | reflexivity].
Defined.


(** *** Numbers in decimal *)

Lemma decimal_from_string_of_uint (u : Decimal.uint) (acc : nat) :
  decimal_from acc (NilEmpty.string_of_uint u)
  = Some (Nat.of_uint_acc u acc).
Proof.
  revert acc.
  induction u as [|u IH|u IH|u IH|u IH|u IH|u IH|u IH|u IH|u IH|u IH];
    intros acc; [reflexivity|..];
    cbn [NilEmpty.string_of_uint decimal_from Nat.of_uint_acc];
    match goal with
    | |- context [digit ?c] =>
        let k := eval vm_compute in (digit c) in
        change (digit c) with k
    end;
    cbv iota; rewrite IH, Nat.tail_mul_spec; do 2 f_equal; lia.
Qed.

Lemma to_uint_canonical (n : nat) (u : Decimal.uint) :
  Nat.to_uint n = Decimal.D0 u -> u = Decimal.Nil.
Proof.
  intros E.
  pose proof (DecimalNat.Unsigned.to_of (Nat.to_uint n)) as N.
  rewrite DecimalNat.Unsigned.of_to, E in N.
  unfold Decimal.unorm in N. cbn [Decimal.nzhead] in N.
  destruct (Decimal.nzhead u) eqn:Z; try (now inversion N);
    try (symmetry in N; now apply DecimalFacts.nzhead_nonzero in N).
  exfalso. rewrite <- Z in N. symmetry in N.
  now apply DecimalFacts.nzhead_nonzero in N.
Qed.

Lemma str_of_nat_canonical (n : nat) : canonical_decimal (str_of_nat n) n.
Proof.
  unfold canonical_decimal, str_of_nat. split.
  - unfold decimal.
    destruct (NilEmpty.string_of_uint (Nat.to_uint n)) eqn:E.
    + destruct (Nat.to_uint n) eqn:U; try discriminate E.
      pose proof (DecimalNat.Unsigned.to_of (Nat.to_uint n)) as N.
      rewrite DecimalNat.Unsigned.of_to, U in N.
      symmetry in N. now apply DecimalFacts.unorm_nonnil in N.
    + rewrite <- E, decimal_from_string_of_uint.
      f_equal. apply DecimalNat.Unsigned.of_to.
  - intros s' E. destruct (Nat.to_uint n) eqn:U; try discriminate E.
    apply to_uint_canonical in U. subst. now inversion E.
Qed.



Example canonical_decimal_examples :
  canonical_decimal "0" 0 /\ canonical_decimal "1204" 1204 /\
  ~ canonical_decimal "012" 12 /\ ~ canonical_decimal "" 0 /\
  ~ canonical_decimal "12a" 12.
Proof.
  split; [apply (str_of_nat_canonical 0)|].
  split; [apply (str_of_nat_canonical 1204)|].
  split; [intros [_ Z]; discriminate (Z _ eq_refl)|].
  split; intros [E _]; discriminate E.
Qed.





(** ** The derived views *)

Lemma heap_extends_refl (s : state) : heap_extends s s.
Proof. split; [exists []; now rewrite app_nil_r | reflexivity]. Qed.

Lemma heap_extends_trans (s1 s2 s3 : state) :
  heap_extends s1 s2 -> heap_extends s2 s3 -> heap_extends s1 s3.
Proof.
  intros [[e1 H1] U1] [[e2 H2] U2]. split; [|congruence].
  exists (e1 ++ e2). now rewrite H2, H1, app_assoc.
Qed.

Lemma heap_extends_lookup (s s' : state) (r : ref) (d : DataFrame) :
  heap_extends s s' -> nth_error (heap s) r = Some d ->
  nth_error (heap s') r = Some d.
Proof.
  intros [[extra ->] _] H. rewrite nth_error_app1; [exact H|].
  now apply nth_error_lt in H.
Qed.

Lemma allocates_only_ret {A : Type} (a : A) : allocates_only (ret a).
Proof. intros s. apply heap_extends_refl. Qed.

Lemma allocates_only_raise {A : Type} (e : exn) :
  allocates_only (@raise A e).
Proof. intros s. apply heap_extends_refl. Qed.

Lemma allocates_only_bind {A B : Type} (m : M A) (k : A -> M B) :
  allocates_only m -> (forall a, allocates_only (k a)) ->
  allocates_only (bind m k).
Proof.
  intros Hm Hk s. unfold bind. specialize (Hm s).
  destruct (m s) as [a s'|e s']; [|exact Hm].
  apply (heap_extends_trans s s'); [exact Hm | apply Hk].
Qed.

Lemma allocates_only_deref (r : ref) : allocates_only (deref r).
Proof.
  intros s. unfold deref.
  destruct (nth_error (heap s) r); apply heap_extends_refl.
Qed.

Lemma allocates_only_new_frame (d : DataFrame) :
  allocates_only (new_frame d).
Proof. intros s. split; [now exists [d] | reflexivity]. Qed.

Lemma allocates_only_getitem (r : ref) (name : string) :
  allocates_only (getitem r name).
Proof.
  apply allocates_only_bind; [apply allocates_only_deref|].
  intros d. destruct (assoc name (columns d));
    [apply allocates_only_ret | apply allocates_only_raise].
Qed.

Lemma allocates_only_copy (r : ref) : allocates_only (copy r).
Proof.
  apply allocates_only_bind;
    [apply allocates_only_deref | apply allocates_only_new_frame].
Qed.

Lemma allocates_only_getitem_mask (r : ref) (mask : list bool) :
  allocates_only (getitem_mask r mask).
Proof.
  apply allocates_only_bind; [apply allocates_only_deref|].
  intros d. apply allocates_only_new_frame.
Qed.

Lemma allocates_only_str_contains (re_compiles : string -> bool)
  (re_found_nocase : string -> string -> bool) (xs : list value)
  (pat : string) :
  allocates_only (str_contains re_compiles re_found_nocase xs pat).
Proof.
  unfold str_contains.
  destruct (_ && _); [apply allocates_only_raise|].
  destruct (re_compiles pat);
    [apply allocates_only_ret | apply allocates_only_raise].
Qed.

(** The table view only adds objects to the heap. *)
Lemma allocates_only_display_table (re_compiles : string -> bool)
  (re_found_nocase : string -> string -> bool) (df : ref)
  (show_sig search_term : string) :
  allocates_only
    (display_table re_compiles re_found_nocase df show_sig search_term).
Proof.
  unfold display_table.
  apply allocates_only_bind; [apply allocates_only_copy|]. intros r1.
  apply allocates_only_bind.
  { destruct (negb (String.eqb show_sig "All"));
      [|apply allocates_only_ret].
    apply allocates_only_bind; [apply allocates_only_getitem|].
    intros sig. apply allocates_only_getitem_mask. }
  intros r2. apply allocates_only_bind; [|intros r3; apply allocates_only_ret].
  destruct (negb (String.eqb search_term "")); [|apply allocates_only_ret].
  apply allocates_only_bind; [apply allocates_only_getitem|]. intros names.
  apply allocates_only_bind; [apply allocates_only_str_contains|].
  intros mask. apply allocates_only_getitem_mask.
Qed.

Lemma existsb_is_number_text (names : list string) :
  existsb is_number (map VStr names) = false.
Proof. induction names as [|n names IH]; [reflexivity | exact IH]. Qed.

(** The table view of a frame whose [gene_name] holds text: the rows that
    are shown, or the error of a search text that does not compile. *)
Lemma display_table_run (re_compiles : string -> bool)
  (re_found_nocase : string -> string -> bool) (st : state) (df : ref)
  (d : DataFrame) (show_sig search_term : string) (names : list string) :
  nth_error (heap st) df = Some d ->
  well_formed d ->
  In "Significance" (column_names d) ->
  assoc "gene_name" (columns d) = Some (map VStr names) ->
  let o := display_table re_compiles re_found_nocase df show_sig
                         search_term st in
  let rows := shown_rows re_found_nocase show_sig search_term d in
  (search_term = "" \/ re_compiles search_term = true ->
   exists r st',
     o = Returns r st' /\
     nth_error (heap st') r = Some (take_rows rows d) /\
     length (heap st) <= r /\
     (show_sig = "All" -> search_term = "" -> take_rows rows d = d)) /\
  (search_term <> "" -> re_compiles search_term = false ->
   exists st', o = Raises ReError st').
Proof.
  intros H W S G o rows.
  apply assoc_In_names in S as [sig S].
  remember (map VStr names) as gs eqn:Text.
  pose proof (well_formed_column d _ _ W S) as LS.
  pose proof (well_formed_column d _ _ W G) as LG.
  set (rows1 := filter (fun i => category_shown show_sig
                                   (cell d "Significance" i))
                       (seq 0 (length (index d)))).
  assert (Forall (fun i => i < length (index d)) rows1) as V1
    by apply filter_seq_bound.
  assert (rows = filter (fun i => search_shown re_found_nocase search_term
                                    (cell d "gene_name" i)) rows1) as Rows
    by (unfold rows, shown_rows, rows1; now rewrite filter_filter).
  set (s1 := {| heap := heap st ++ [d]; ui := ui st |}).
  assert (nth_error (heap s1) (length (heap st)) = Some d) as H1
    by apply nth_error_snoc.
  (* the category filter *)
  assert (exists r2 s2,
             (if negb (String.eqb show_sig "All")
              then sig <- getitem (length (heap st)) "Significance" ;;
                   getitem_mask (length (heap st))
                                (series_eq_str sig show_sig)
              else ret (length (heap st))) s1 = Returns r2 s2 /\
             nth_error (heap s2) r2 = Some (take_rows rows1 d) /\
             length (heap st) <= r2) as (r2 & s2 & E2 & H2 & B2).
  { destruct (String.eqb show_sig "All") eqn:A; cbn [negb].
    - exists (length (heap st)), s1. split; [reflexivity|].
      split; [|lia]. rewrite H1. f_equal. unfold rows1, category_shown.
      rewrite A. cbn [orb].
      rewrite filter_all by reflexivity. symmetry. now apply take_rows_all.
    - run_with (getitem_run _ _ _ _ _ H1 S).
      rewrite (getitem_mask_run _ _ _ _ H1).
      do 2 eexists. split; [reflexivity|]. cbn [heap].
      split; [|unfold s1; cbn [heap]; rewrite length_app; lia].
      rewrite nth_error_snoc. do 2 f_equal.
      unfold series_eq_str, rows1, category_shown, cell.
      rewrite A, S, <- LS. cbn [orb].
      apply (nonzero_cells
               (fun o => match o with
                         | Some (VStr t) => String.eqb t show_sig
                         | _ => false
                         end)). }
  assert (Forall (fun i => i < length gs) rows1) as VG by now rewrite LG.
  assert (existsb is_number (take rows1 gs)
          && negb (existsb is_text (take rows1 gs)) = false) as Acc
    by (rewrite Text, take_map, existsb_is_number_text; reflexivity).
  assert (assoc "gene_name" (columns (take_rows rows1 d))
          = Some (take rows1 gs)) as G2
    by now rewrite assoc_take_rows, G.
  unfold o, display_table.
  run_with (copy_run _ _ _ H).
  fold s1. rewrite (bind_returns _ _ _ _ _ E2). cbv beta.
  split.
  - intros C. destruct (String.eqb search_term "") eqn:Z; cbn [negb].
    + exists r2, s2. unfold ret, bind. split; [reflexivity|].
      assert (rows = rows1) as ->.
      { rewrite Rows. unfold search_shown. rewrite Z. cbn [orb].
        apply filter_all. reflexivity. }
      split; [exact H2|]. split; [exact B2|].
      intros -> _. unfold rows1, category_shown.
      change (String.eqb "All" "All") with true. cbn [orb].
      rewrite filter_all by reflexivity. now apply take_rows_all.
    + destruct C as [->|C]; [discriminate Z|].
      unfold bind at 1. run_with (getitem_run _ _ _ _ _ H2 G2).
      unfold str_contains. rewrite Acc, C.
      rewrite (bind_returns _ _ _ _ _ (eq_refl : ret _ s2 = Returns _ s2)).
      rewrite (getitem_mask_run _ _ _ _ H2).
      do 2 eexists. split; [reflexivity|]. cbn [heap].
      split; [|split].
      * rewrite nth_error_snoc. f_equal.
        rewrite take_rows_take_rows by assumption. f_equal.
        rewrite Rows.
        rewrite (map_take_cells
                   (fun o => match o with
                             | Some (VStr s) => re_found_nocase search_term s
                             | _ => false
                             end) rows1 gs VG).
        rewrite take_nonzero_self. apply filter_ext. intros i.
        unfold search_shown, cell. now rewrite Z, G.
      * apply nth_error_lt in H2. lia.
      * intros _ ->. discriminate Z.
  - intros N C. apply String.eqb_neq in N. rewrite N. cbn [negb].
    unfold bind at 1. run_with (getitem_run _ _ _ _ _ H2 G2).
    unfold str_contains. rewrite Acc, C. now exists s2.
Qed.

(** The rows of a selection, cell by cell. *)
Lemma take_rows_cells (rows : list nat) (d : DataFrame) :
  well_formed d ->
  Forall (fun i => i < length (index d)) rows ->
  column_names (take_rows rows d) = column_names d /\
  length (index (take_rows rows d)) = length rows /\
  (forall k, nth_error (index (take_rows rows d)) k =
             match nth_error rows k with
             | Some i => nth_error (index d) i
             | None => None
             end) /\
  (forall c k, cell (take_rows rows d) c k =
               match nth_error rows k with
               | Some i => cell d c i
               | None => None
               end).
Proof.
  intros W V. split; [apply column_names_take_rows|].
  split; [now apply take_length|].
  split; [intros k; now apply index_take_rows|].
  intros c k. now apply cell_take_rows.
Qed.

Lemma shown_rows_bound (re_found_nocase : string -> string -> bool)
  (show_sig search_term : string) (d : DataFrame) :
  Forall (fun i => i < length (index d))
         (shown_rows re_found_nocase show_sig search_term d).
Proof. apply filter_seq_bound. Qed.

Lemma touches_only_df_columns (r r0 : ref) : touches_only r (df_columns r0).
Proof.
  apply touches_only_bind; [apply touches_only_deref|].
  intros d. apply touches_only_ret.
Qed.

Section MAPlot.

Variable np_log10 : float -> float.

Lemma ma_plot_data_absent (st : state) (df : ref) (d : DataFrame) :
  nth_error (heap st) df = Some d ->
  ~ In "baseMean" (column_names d) ->
  ma_plot_data np_log10 df st = Returns tt st.
Proof.
  intros H N. unfold ma_plot_data. run_with (df_columns_run _ _ _ H).
  destruct (existsb (String.eqb "baseMean") (column_names d)) eqn:E;
    [|reflexivity].
  now apply existsb_eqb_In in E.
Qed.

Lemma ma_plot_data_run (st : state) (df : ref) (d : DataFrame)
  (bs : list float) :
  nth_error (heap st) df = Some d ->
  numeric_column d "baseMean" bs ->
  ma_plot_data np_log10 df st =
    Returns tt
      {| heap :=
           update df
             {| index := index d;
                columns :=
                  assoc_set "log10(baseMean)"
                    (map (fun b => VFloat (np_log10
                             (if PrimFloat.eqb b 0 then 1e-10%float else b)))
                         bs)
                    (columns d) |}
             (heap st);
         ui := ui st |}.
Proof.
  intros H [B Len]. unfold ma_plot_data. run_with (df_columns_run _ _ _ H).
  unfold column_names. rewrite existsb_eqb_assoc, B.
  run_with (getitem_run _ _ _ _ _ H B).
  rewrite series_replace_floats.
  run_with (series_log10_floats np_log10
              (map (fun x => if PrimFloat.eqb x 0 then 1e-10%float else x) bs)
              st).
  rewrite (setitem_run _ _ _ _ _ H) by now rewrite !length_map.
  now rewrite !map_map.
Qed.

(** Whatever the frame holds, the MA transform changes no frame other
    than the annotated table. *)
Lemma touches_only_ma_plot_data (df : ref) :
  touches_only df (ma_plot_data np_log10 df).
Proof.
  unfold ma_plot_data.
  apply touches_only_bind; [apply touches_only_df_columns|]. intros cols.
  destruct (existsb _ cols); [|apply touches_only_ret].
  repeat first
    [ apply touches_only_getitem
    | apply touches_only_setitem
    | apply touches_only_series_log10
    | apply touches_only_bind; [|intros ?] ].
Qed.

End MAPlot.

(** C8 (as amended). The table view (the category filter and the search
    over [gene_name]) only adds new objects: whether it returns or raises,
    every frame that existed, the annotated table among them, is as it was,
    and so is what the user interface was told. Its result is a new table:
    on a table in which every column has a cell for each row, with a
    [Significance] column and text in [gene_name], and for a search text
    that is empty or compiles, the view returns a reference that did not
    exist before, to a table with the columns of the annotated table and
    exactly the rows that are shown, in their order, each with its label
    and its cells. The MA transform is no such projection, though it
    changes no other frame. Without a [baseMean] column it does nothing;
    with a numeric one it assigns, in place, the column [log10(baseMean)]
    of the annotated table itself (the logarithm of each [baseMean], zero
    first replaced by [1e-10]); the rows, the other columns and the other
    frames stay as they were. *)
Theorem derived_views_frame :
  forall (np_log10 : float -> float) (re_compiles : string -> bool)
         (re_found_nocase : string -> string -> bool) (st : state)
         (df : ref) (d : DataFrame),
    nth_error (heap st) df = Some d ->
    (forall show_sig search_term,
        let o := display_table re_compiles re_found_nocase df show_sig
                               search_term st in
        let rows := shown_rows re_found_nocase show_sig search_term d in
        (exists extra, heap (final_state o) = heap st ++ extra) /\
        ui (final_state o) = ui st /\
        nth_error (heap (final_state o)) df = Some d /\
        (forall names,
            well_formed d ->
            In "Significance" (column_names d) ->
            assoc "gene_name" (columns d) = Some (map VStr names) ->
            search_term = "" \/ re_compiles search_term = true ->
            exists r st' view,
              o = Returns r st' /\
              length (heap st) <= r /\
              r <> df /\
              nth_error (heap st') r = Some view /\
              column_names view = column_names d /\
              length (index view) = length rows /\
              (forall k, nth_error (index view) k =
                         match nth_error rows k with
                         | Some i => nth_error (index d) i
                         | None => None
                         end) /\
              (forall c k, cell view c k =
                           match nth_error rows k with
                           | Some i => cell d c i
                           | None => None
                           end))) /\
    (forall r, r <> df ->
               nth_error (heap (final_state (ma_plot_data np_log10 df st))) r
               = nth_error (heap st) r) /\
    (~ In "baseMean" (column_names d) ->
     ma_plot_data np_log10 df st = Returns tt st) /\
    (forall bs,
        numeric_column d "baseMean" bs ->
        exists st' d',
          ma_plot_data np_log10 df st = Returns tt st' /\
          nth_error (heap st') df = Some d' /\
          ui st' = ui st /\
          (forall r, r <> df ->
                     nth_error (heap st') r = nth_error (heap st) r) /\
          index d' = index d /\
          (forall c, c <> "log10(baseMean)" ->
                     assoc c (columns d') = assoc c (columns d)) /\
          (forall i b,
              nth_error bs i = Some b ->
              cell d' "log10(baseMean)" i =
                Some (VFloat (np_log10 (if PrimFloat.eqb b 0
                                        then 1e-10%float else b))))).
Proof.
  intros np_log10 re_compiles re_found_nocase st df d H.
  split; [|split; [|split]].
  - intros show_sig search_term o rows.
    pose proof (allocates_only_display_table re_compiles re_found_nocase df
                  show_sig search_term st) as E.
    fold o in E. split; [exact (proj1 E)|]. split; [exact (proj2 E)|].
    split; [exact (heap_extends_lookup st _ df d E H)|].
    intros names W S G C.
    destruct (proj1 (display_table_run re_compiles re_found_nocase st df d
                       show_sig search_term names H W S G) C)
      as (r & st' & Run & View & New & _).
    destruct (take_rows_cells rows d W
                (shown_rows_bound re_found_nocase show_sig search_term d))
      as (Cols & Len & Labels & Cells).
    exists r, st', (take_rows rows d).
    split; [exact Run|]. split; [exact New|].
    split; [apply nth_error_lt in H; lia|].
    split; [exact View|].
    split; [exact Cols|]. split; [exact Len|].
    split; [exact Labels | exact Cells].
  - exact (proj2 (proj2 (touches_only_ma_plot_data np_log10 df st))).
  - now apply ma_plot_data_absent.
  - intros bs B. do 2 eexists.
    split; [exact (ma_plot_data_run np_log10 st df d bs H B)|].
    cbn [heap ui].
    split; [apply nth_error_update_eq; now apply nth_error_lt in H|].
    split; [reflexivity|].
    split; [intros r N; apply nth_error_update_ne; congruence|].
    split; [reflexivity|].
    split.
    + intros c N. cbn [columns]. now rewrite assoc_set_ne by congruence.
    + intros i b E. unfold cell. cbn [columns].
      now rewrite assoc_set_eq, nth_error_map, E.
Qed.

(** The two views on example frames: the upregulated genes of
    [table_example] whose name holds [thr] are its first and its third
    row, shown in a new table; the MA transform of [unlabelled_frame]
    leaves its [padj] column as it was. *)
Lemma derived_views_frame_witness :
  (exists r st' view,
      display_table (fun _ => true) found_nocase 0 "Upregulated" "THR"
                    {| heap := [table_example]; ui := [] |}
      = Returns r st' /\
      nth_error (heap st') 0 = Some table_example /\
      r <> 0 /\
      nth_error (heap st') r = Some view /\
      index view = [Pos 0; Pos 3] /\
      cell view "gene_name" 0 = Some (VStr "thrL") /\
      cell view "gene_name" 1 = Some (VStr "thrA") /\
      cell view "padj" 1 = Some (VFloat 0.01) /\
      cell view "gene_name" 2 = None) /\
  exists st' d',
    ma_plot_data log10_steps 0 {| heap := [unlabelled_frame]; ui := [] |}
      = Returns tt st' /\
    nth_error (heap st') 0 = Some d' /\
    assoc "padj" (columns d') = assoc "padj" (columns unlabelled_frame).
Proof.
  split.
  - destruct (proj1 (derived_views_frame log10_steps (fun _ => true)
                       found_nocase
                       {| heap := [table_example]; ui := [] |} 0
                       table_example eq_refl)
                    "Upregulated" "THR")
      as (_ & _ & Old & View).
    destruct (View ["thrL"; "dnaA"; "thrA"; "talB"])
      as (r & st' & view & Run & _ & New & At & _ & Len & Labels & Cells).
    + repeat constructor.
    + simpl. tauto.
    + reflexivity.
    + now right.
    + exists r, st', view. split; [exact Run|].
      split; [rewrite Run in Old; exact Old|].
      split; [exact New|]. split; [exact At|].
      split.
      { pose proof (Labels 0) as L0. pose proof (Labels 1) as L1.
        destruct (index view) as [|a [|b [|c l]]]; try discriminate Len.
        cbn in L0, L1. now inversion L0; inversion L1. }
      split; [exact (Cells "gene_name" 0)|].
      split; [exact (Cells "gene_name" 1)|].
      split; [exact (Cells "padj" 1) | exact (Cells "gene_name" 2)].
  - destruct (proj2 (proj2 (proj2
                       (derived_views_frame log10_steps (fun _ => true)
                          found_nocase
                          {| heap := [unlabelled_frame]; ui := [] |} 0
                          unlabelled_frame eq_refl)))
                    [120; 0; 33; 8]%float (conj eq_refl eq_refl))
      as (st' & d' & R & H & _ & _ & _ & C & _).
    exists st', d'. split; [exact R|]. split; [exact H|].
    apply C. discriminate.
Defined.

(** C8, counterexample. The ingestion of [unlabelled_frame], which has a
    [baseMean] column, followed by the MA transform: the annotated table
    read before and after the transform is not the same table, the
    transform has added the column [log10(baseMean)] to it. *)
Lemma ma_plot_data_changes_annotated_table :
  exists before after st',
    (df_filtered <- main_content log10_steps (fun _ => "") 0 0.05 1 (-1) ;;
     before <- deref df_filtered ;;
     ma_plot_data log10_steps df_filtered ;;;
     after <- deref df_filtered ;;
     ret (before, after)) {| heap := [unlabelled_frame]; ui := [] |}
    = Returns (before, after) st' /\
    column_names before =
      ["log2FoldChange"; "padj"; "baseMean"; "gene_name"; "locus_tag";
       "Significance"; "-log10(padj)"] /\
    column_names after =
      ["log2FoldChange"; "padj"; "baseMean"; "gene_name"; "locus_tag";
       "Significance"; "-log10(padj)"; "log10(baseMean)"] /\
    before <> after.
Proof.
  do 3 eexists. split; [vm_compute; reflexivity|].
  split; [reflexivity|]. split; [reflexivity|].
  intros E. apply (f_equal column_names) in E. discriminate E.
Qed.

(** ** The order of [nsmallest] *)

Lemma insert_by_key_perm (x : float * nat) (l : list (float * nat)) :
  Permutation (insert_by_key x l) (x :: l).
Proof.
  induction l as [|y l IH]; simpl; [reflexivity|].
  destruct (nan_last_leb (fst x) (fst y)); [reflexivity|].
  rewrite IH. apply perm_swap.
Qed.

Lemma sort_by_key_perm (l : list (float * nat)) :
  Permutation (sort_by_key l) l.
Proof.
  induction l as [|x l IH]; simpl; [reflexivity|].
  rewrite insert_by_key_perm. now constructor.
Qed.

Lemma insert_by_key_sorted (x : float * nat) (l : list (float * nat)) :
  StronglySorted key_le l -> StronglySorted key_le (insert_by_key x l).
Proof.
  induction 1 as [|y l S IH F]; simpl.
  - repeat constructor.
  - destruct (nan_last_leb (fst x) (fst y)) eqn:E.
    + constructor; [now constructor|].
      constructor; [exact E|].
      apply Forall_forall. intros z I.
      apply (nan_last_leb_trans _ (fst y)); [exact E|].
      exact (proj1 (Forall_forall _ _) F z I).
    + constructor; [exact IH|].
      apply Forall_forall. intros z I.
      apply (Permutation_in _ (insert_by_key_perm x l)) in I.
      destruct I as [<- | I].
      * now apply nan_last_leb_total.
      * exact (proj1 (Forall_forall _ _) F z I).
Qed.

Lemma sort_by_key_sorted (l : list (float * nat)) :
  StronglySorted key_le (sort_by_key l).
Proof.
  induction l as [|x l IH]; simpl; [constructor|].
  now apply insert_by_key_sorted.
Qed.

(** In a sorted list everything in a prefix is below everything after
    it. *)
Lemma StronglySorted_app_le {A : Type} (R : A -> A -> Prop)
  (l1 l2 : list A) (x y : A) :
  StronglySorted R (l1 ++ l2) -> In x l1 -> In y l2 -> R x y.
Proof.
  induction l1 as [|a l1 IH]; simpl; intros S I1 I2; [easy|].
  inversion S as [|? ? S' F]; subst.
  destruct I1 as [-> | I1]; [|now apply IH].
  apply (proj1 (Forall_forall _ _) F). apply in_or_app. now right.
Qed.

(** Later in a sorted list means at least as large. *)
Lemma StronglySorted_nth_le {A : Type} (R : A -> A -> Prop) (l : list A)
  (a b : nat) (x y : A) :
  StronglySorted R l -> a < b ->
  nth_error l a = Some x -> nth_error l b = Some y -> R x y.
Proof.
  intros S. revert a b. induction S as [|z l S IH F]; intros a b L Ea Eb.
  - now destruct a.
  - destruct b as [|b]; [lia|]. simpl in Eb. destruct a as [|a].
    + injection Ea as <-.
      apply (proj1 (Forall_forall _ _) F). now apply nth_error_In in Eb.
    + simpl in Ea. apply (IH a b); [lia | assumption | assumption].
Qed.

Lemma combine_seq_In {A : Type} (xs : list A) (k : nat) (x : A) (i : nat) :
  In (x, i) (combine xs (seq k (length xs))) <->
  k <= i /\ nth_error xs (i - k) = Some x.
Proof.
  revert k. induction xs as [|y xs IH]; intros k; simpl.
  - split; [intros [] | intros [_ E]; now destruct (i - k)].
  - rewrite IH. split.
    + intros [[= -> ->] | [L E]].
      * rewrite Nat.sub_diag. split; [lia | reflexivity].
      * split; [lia|]. replace (i - k) with (S (i - S k)) by lia. exact E.
    + intros [L E]. destruct (i - k) as [|m] eqn:D.
      * left. injection E as ->. f_equal. lia.
      * right. split; [lia|]. replace (i - S k) with m by lia. exact E.
Qed.

Lemma map_snd_combine_seq {A : Type} (xs : list A) (k : nat) :
  map snd (combine xs (seq k (length xs))) = seq k (length xs).
Proof.
  revert k. induction xs as [|y xs IH]; intros k; simpl; [reflexivity|].
  now rewrite IH.
Qed.

Lemma insert_by_key_stable (x : float * nat) (l : list (float * nat)) :
  StronglySorted stable_le l ->
  Forall (fun y => snd x < snd y) l ->
  StronglySorted stable_le (insert_by_key x l).
Proof.
  induction 1 as [|y l S IH F]; intros B; simpl.
  - repeat constructor.
  - inversion B as [|? ? By Bl]; subst.
    destruct (nan_last_leb (fst x) (fst y)) eqn:E.
    + constructor; [now constructor|].
      constructor; [now split|].
      apply Forall_forall. intros z I. split.
      * apply (nan_last_leb_trans _ (fst y)); [exact E|].
        exact (proj1 (proj1 (Forall_forall _ _) F z I)).
      * intros _. exact (proj1 (Forall_forall _ _) Bl z I).
    + constructor; [now apply IH|].
      apply Forall_forall. intros z I.
      apply (Permutation_in _ (insert_by_key_perm x l)) in I.
      destruct I as [<- | I]; [|exact (proj1 (Forall_forall _ _) F z I)].
      split; [now apply nan_last_leb_total|].
      unfold key_le. intros C. congruence.
Qed.

Lemma sort_by_key_stable (keys : list float) (k : nat) :
  StronglySorted stable_le
    (sort_by_key (combine keys (seq k (length keys)))).
Proof.
  revert k. induction keys as [|x keys IH]; intros k; simpl; [constructor|].
  apply insert_by_key_stable; [apply IH|].
  apply Forall_forall. intros [y j] I. simpl.
  apply (Permutation_in _ (sort_by_key_perm _)) in I.
  apply combine_seq_In in I. lia.
Qed.

Section ArgSort.

Variable keys : list float.

Let sorted : list (float * nat) :=
  sort_by_key (combine keys (seq 0 (length keys))).

Lemma argsort_perm : Permutation (argsort keys) (seq 0 (length keys)).
Proof.
  unfold argsort. rewrite sort_by_key_perm. now rewrite map_snd_combine_seq.
Qed.

Lemma argsort_NoDup : NoDup (argsort keys).
Proof.
  apply (Permutation_NoDup (Permutation_sym argsort_perm)), seq_NoDup.
Qed.

Lemma argsort_In (i : nat) : In i (argsort keys) <-> i < length keys.
Proof.
  split; intros H.
  - apply (Permutation_in _ argsort_perm), in_seq in H. lia.
  - apply (Permutation_in _ (Permutation_sym argsort_perm)), in_seq. lia.
Qed.

Lemma argsort_length : length (argsort keys) = length keys.
Proof. now rewrite (Permutation_length argsort_perm), length_seq. Qed.

Lemma sorted_key (x : float) (i : nat) :
  In (x, i) sorted <-> nth_error keys i = Some x.
Proof.
  unfold sorted. split.
  - intros I. apply (Permutation_in _ (sort_by_key_perm _)) in I.
    apply combine_seq_In in I as [_ E]. now rewrite Nat.sub_0_r in E.
  - intros E.
    apply (Permutation_in _ (Permutation_sym (sort_by_key_perm _))).
    apply combine_seq_In. rewrite Nat.sub_0_r. split; [lia | exact E].
Qed.

(** Position [a] of [argsort]: the key that stands there. *)
Lemma argsort_nth (a i : nat) :
  nth_error (argsort keys) a = Some i ->
  exists x, nth_error sorted a = Some (x, i) /\ nth_error keys i = Some x.
Proof.
  unfold argsort. fold sorted. rewrite nth_error_map.
  destruct (nth_error sorted a) as [[x j]|] eqn:E; [|discriminate].
  intros [= ->]. exists x. split; [reflexivity|].
  apply sorted_key. now apply nth_error_In in E.
Qed.

(** [argsort] is ascending. *)
Lemma argsort_ascending (a b i j : nat) (x y : float) :
  a < b ->
  nth_error (argsort keys) a = Some i -> nth_error (argsort keys) b = Some j ->
  nth_error keys i = Some x -> nth_error keys j = Some y ->
  nan_last_leb x y = true.
Proof.
  intros L Ea Eb Ex Ey.
  destruct (argsort_nth a i Ea) as (x' & Sa & Ex').
  destruct (argsort_nth b j Eb) as (y' & Sb & Ey').
  assert (x' = x) as -> by congruence. assert (y' = y) as -> by congruence.
  exact (StronglySorted_nth_le key_le sorted a b _ _
           (sort_by_key_sorted _) L Sa Sb).
Qed.

(** The first [n] positions of [argsort] hold keys that are at most the
    key of any position left out. *)
Lemma argsort_firstn_smallest (n i j : nat) (x y : float) :
  In i (firstn n (argsort keys)) ->
  j < length keys -> ~ In j (firstn n (argsort keys)) ->
  nth_error keys i = Some x -> nth_error keys j = Some y ->
  nan_last_leb x y = true.
Proof.
  intros Ii Bj Nj Ex Ey.
  assert (firstn n (argsort keys) = map snd (firstn n sorted)) as F
    by (unfold argsort; fold sorted; now rewrite firstn_map).
  rewrite F in Ii, Nj.
  apply in_map_iff in Ii as ([x' i'] & Hi & Ii). simpl in Hi. subst i'.
  assert (x' = x) as ->.
  { assert (In (x', i) sorted) as I
      by (rewrite <- (firstn_skipn n sorted); apply in_or_app; now left).
    apply sorted_key in I. congruence. }
  assert (In (y, j) (skipn n sorted)) as Ij.
  { assert (In (y, j) sorted) as I by now apply sorted_key.
    rewrite <- (firstn_skipn n sorted) in I.
    apply in_app_or in I as [I | I]; [|exact I].
    elim Nj. apply in_map_iff. now exists (y, j). }
  apply (StronglySorted_app_le key_le (firstn n sorted) (skipn n sorted)
           (x, i) (y, j)); try assumption.
  rewrite firstn_skipn. apply sort_by_key_sorted.
Qed.

(** Rows with equal keys keep their original order. *)
Lemma argsort_stable (a b i j : nat) (x y : float) :
  a < b ->
  nth_error (argsort keys) a = Some i -> nth_error (argsort keys) b = Some j ->
  nth_error keys i = Some x -> nth_error keys j = Some y ->
  nan_last_leb y x = true -> i < j.
Proof.
  intros L Ea Eb Ex Ey T.
  destruct (argsort_nth a i Ea) as (x' & Sa & Ex').
  destruct (argsort_nth b j Eb) as (y' & Sb & Ey').
  assert (x' = x) as -> by congruence. assert (y' = y) as -> by congruence.
  exact (proj2 (StronglySorted_nth_le stable_le sorted a b _ _
                  (sort_by_key_stable keys 0) L Sa Sb) T).
Qed.

(** A row left out with the key of a row taken comes later in the table. *)
Lemma argsort_firstn_first (n i j : nat) (x y : float) :
  In i (firstn n (argsort keys)) ->
  j < length keys -> ~ In j (firstn n (argsort keys)) ->
  nth_error keys i = Some x -> nth_error keys j = Some y ->
  nan_last_leb y x = true -> i < j.
Proof.
  intros Ii Bj Nj Ex Ey T.
  assert (firstn n (argsort keys) = map snd (firstn n sorted)) as F
    by (unfold argsort; fold sorted; now rewrite firstn_map).
  rewrite F in Ii, Nj.
  apply in_map_iff in Ii as ([x' i'] & Hi & Ii). simpl in Hi. subst i'.
  assert (x' = x) as ->.
  { assert (In (x', i) sorted) as I
      by (rewrite <- (firstn_skipn n sorted); apply in_or_app; now left).
    apply sorted_key in I. congruence. }
  assert (In (y, j) (skipn n sorted)) as Ij.
  { assert (In (y, j) sorted) as I by now apply sorted_key.
    rewrite <- (firstn_skipn n sorted) in I.
    apply in_app_or in I as [I | I]; [|exact I].
    elim Nj. apply in_map_iff. now exists (y, j). }
  apply (StronglySorted_app_le stable_le (firstn n sorted) (skipn n sorted)
           (x, i) (y, j)); try assumption.
  rewrite firstn_skipn. apply (sort_by_key_stable keys 0).
Qed.

End ArgSort.

(** ** The heatmap query *)

Lemma floats_of_floats (xs : list float) :
  floats_of (map VFloat xs) = Some xs.
Proof. induction xs as [|x xs IH]; simpl; [reflexivity | now rewrite IH]. Qed.

Lemma lookup_all_present (names : list string) (d : DataFrame) :
  (forall c, In c names -> In c (column_names d)) ->
  lookup_all names d = inl (map (column_or_empty d) names).
Proof.
  induction names as [|c names IH]; intros P; simpl; [reflexivity|].
  unfold column_or_empty at 1.
  destruct (proj1 (assoc_In_names c (columns d)) (P c (or_introl eq_refl)))
    as [xs ->].
  rewrite IH; [reflexivity|]. intros c' I. apply P. now right.
Qed.

Lemma combine_map_self {A B : Type} (f : A -> B) (l : list A) :
  combine l (map f l) = map (fun x => (x, f x)) l.
Proof. induction l as [|x l IH]; simpl; [reflexivity | now rewrite IH]. Qed.

Lemma assoc_map_pair {A : Type} (f : string -> A) (l : list string)
  (c : string) :
  In c l -> assoc c (map (fun x => (x, f x)) l) = Some (f c).
Proof.
  induction l as [|x l IH]; simpl; [intros []|].
  destruct (String.eqb_spec c x) as [->|N]; [reflexivity|].
  intros [E | I]; [congruence | now apply IH].
Qed.

Lemma filter_map_pair {A : Type} (f : string -> A) (p : string -> bool)
  (l : list string) :
  filter (fun c => p (fst c)) (map (fun x => (x, f x)) l) =
    map (fun x => (x, f x)) (filter p l).
Proof.
  induction l as [|x l IH]; simpl; [reflexivity|].
  destruct (p x); simpl; now rewrite IH.
Qed.

Lemma bind_assoc {A B C : Type} (m : M A) (f : A -> M B) (g : B -> M C)
  (s : state) :
  bind (bind m f) g s = bind m (fun a => bind (f a) g) s.
Proof. unfold bind. now destruct (m s). Qed.

(** A name is a count column exactly when it contains ["countings"] in
    some mix of upper and lower case. *)
Lemma count_cols_In (cols : list string) (c : string) :
  In c (count_cols cols) <->
  In c cols /\
  exists pre w post, c = pre +++ w +++ post /\ lower w = "countings".
Proof.
  unfold count_cols. rewrite filter_In, contains_spec.
  split; intros [I H]; (split; [exact I|]).
  - destruct H as (pre & post & E).
    apply lower_split in E as (pre' & rest & -> & _ & E).
    apply lower_split in E as (w & post' & -> & E & _).
    now exists pre', w, post'.
  - destruct H as (pre & w & post & -> & E).
    exists (lower pre), (lower post). now rewrite !lower_append, E.
Qed.

Lemma gene_name_not_count_col (cols : list string) :
  ~ In "gene_name" (count_cols cols).
Proof.
  unfold count_cols. rewrite filter_In. intros [_ H]. discriminate H.
Qed.

Lemma nsmallest_run (st : state) (df : ref) (d : DataFrame)
  (ps : list float) (n : nat) :
  nth_error (heap st) df = Some d ->
  numeric_column d "padj" ps ->
  nsmallest df n "padj" st =
    Returns (length (heap st))
      {| heap := heap st ++ [take_rows (firstn n (argsort ps)) d];
         ui := ui st |}.
Proof.
  intros H [P _]. unfold nsmallest. run_with (deref_run _ _ _ H).
  now rewrite P, floats_of_floats.
Qed.

(** The heatmap's data when there are count columns. *)
Lemma heatmap_data_run (st : state) (df : ref) (d : DataFrame)
  (ps : list float) (n : nat) :
  nth_error (heap st) df = Some d ->
  numeric_column d "padj" ps ->
  In "gene_name" (column_names d) ->
  count_cols (column_names d) <> [] ->
  let top := firstn n (argsort ps) in
  let t1 := take_rows top d in
  let names := count_cols (column_names d) ++ ["gene_name"] in
  let t2 := {| index := index t1;
               columns := map (fun c => (c, column_or_empty t1 c)) names |} in
  heatmap_data df n st =
    Returns (Some (length (heap st) + 2))
      {| heap := heap st ++
                 [t1; t2;
                  {| index := map Key (take top (column_or_empty d "gene_name"));
                     columns :=
                       map (fun c => (c, take top (column_or_empty d c)))
                           (count_cols (column_names d)) |}];
         ui := ui st |}.
Proof.
  intros H P G C top t1 names t2. unfold heatmap_data.
  run_with (df_columns_run _ _ _ H).
  assert ((0 <? length (count_cols (column_names d)))%nat = true) as Some_cols
    by (destruct (count_cols (column_names d)); [now elim C | reflexivity]).
  rewrite Some_cols.
  run_with (nsmallest_run st df d ps n H P). fold top. fold t1.
  set (s1 := {| heap := heap st ++ [t1]; ui := ui st |}).
  assert (nth_error (heap s1) (length (heap st)) = Some t1) as H1
    by apply nth_error_snoc.
  assert (forall c, assoc c (columns t1)
                    = option_map (take top) (assoc c (columns d))) as A
    by (intros c; apply assoc_take_rows).
  assert (forall c, In c (column_names d) ->
                    column_or_empty t1 c = take top (column_or_empty d c))
    as T.
  { intros c I. apply assoc_In_names in I as [xs E].
    unfold column_or_empty. now rewrite A, E. }
  assert (forall c, In c names -> In c (column_names d)) as Sub.
  { intros c I. apply in_app_or in I as [I | [<- | []]]; [|exact G].
    unfold count_cols in I. now apply filter_In in I. }
  unfold getitem_list. rewrite bind_assoc. run_with (deref_run _ _ _ H1).
  rewrite lookup_all_present.
  2:{ intros c I. apply Sub in I. apply assoc_In_names in I as [xs E].
      apply assoc_In_names. exists (take top xs). now rewrite A, E. }
  fold names. rewrite combine_map_self. fold t2.
  rewrite (bind_returns _ _ _ _ _
             (eq_refl : new_frame t2 s1 = Returns _ _)).
  cbn [heap ui]. unfold set_index. rewrite bind_assoc.
  set (s2 := {| heap := (heap st ++ [t1]) ++ [t2]; ui := ui st |}).
  assert (nth_error (heap s2) (length (heap st ++ [t1])) = Some t2) as H2
    by apply nth_error_snoc.
  run_with (deref_run _ _ _ H2).
  assert (assoc "gene_name" (columns t2)
          = Some (take top (column_or_empty d "gene_name"))) as GN.
  { unfold t2. cbn [columns]. rewrite assoc_map_pair.
    - now rewrite T.
    - apply in_or_app. right. now left. }
  rewrite GN. unfold new_frame, ret, bind. subst s2. cbn [heap ui].
  rewrite !length_app. cbn [length].
  replace (length (heap st) + 1 + 1) with (length (heap st) + 2) by lia.
  rewrite <- !app_assoc. cbn [app]. do 5 f_equal.
  unfold t2. cbn [columns]. unfold names.
  rewrite (filter_map_pair (column_or_empty t1)
             (fun c => negb (String.eqb c "gene_name"))).
  rewrite filter_app. cbn [filter String.eqb Ascii.eqb Bool.eqb negb].
  rewrite app_nil_r, filter_all.
  - do 2 f_equal. apply map_ext_in. intros c I. rewrite T; [reflexivity|].
    apply Sub. apply in_or_app. now left.
  - intros c I. destruct (String.eqb_spec c "gene_name") as [->|];
      [|reflexivity].
    now apply gene_name_not_count_col in I.
Qed.

Lemma firstn_In_inv {A : Type} (n : nat) (l : list A) (x : A) :
  In x (firstn n l) -> In x l.
Proof.
  intros I. rewrite <- (firstn_skipn n l). apply in_or_app. now left.
Qed.

Lemma firstn_NoDup {A : Type} (n : nat) (l : list A) :
  NoDup l -> NoDup (firstn n l).
Proof.
  intros N. rewrite <- (firstn_skipn n l) in N.
  now apply NoDup_app_remove_r in N.
Qed.

Lemma nth_error_firstn_inv {A : Type} (n : nat) (l : list A) (a : nat)
  (x : A) :
  nth_error (firstn n l) a = Some x -> nth_error l a = Some x.
Proof.
  rewrite nth_error_firstn. now destruct (a <? n)%nat.
Qed.

Lemma nth_error_snoc_old_many {A : Type} (l extra : list A) (r : nat)
  (a : A) :
  nth_error l r = Some a -> nth_error (l ++ extra) r = Some a.
Proof.
  intros H. rewrite nth_error_app1; [exact H | now apply nth_error_lt in H].
Qed.

(** C9. The top-[n] query on a frame with a numeric [padj]: [nsmallest]
    returns a new table made of the rows at the positions [top], the first
    [n] positions of the table sorted by ascending [padj]. There are
    [min n rows] of them, all different; their [padj] values ascend along
    [top], and each is at most the [padj] of every row left out (a NaN
    counting as larger than every number); of rows with the same [padj]
    the one that stands first in the table comes first and is taken
    first. When every column of the frame has a cell for each row, the new
    table has the columns of the frame and [min n rows] rows, and its
    [k]-th row has the label and the cells of the row of the frame at the
    [k]-th position of [top]. The count columns are exactly
    the columns whose name contains ["countings"] in some mix of upper and
    lower case. When there are count columns the heatmap's data is a new
    table with exactly these columns and [min n rows] rows: its [k]-th
    row is labelled by the [gene_name] of the row of the frame at the
    [k]-th position of [top] and holds the cells of that row in the count
    columns; the annotated table stays as it was. When there are none, no
    query is made and a warning is shown. *)
Theorem heatmap_data_top_rows :
  forall (st : state) (df : ref) (d : DataFrame) (ps : list float)
         (n : nat),
    nth_error (heap st) df = Some d ->
    numeric_column d "padj" ps ->
    In "gene_name" (column_names d) ->
    let top := firstn n (argsort ps) in
    length top = Nat.min n (length ps) /\
    NoDup top /\
    (forall i, In i top -> i < length ps) /\
    (forall a b i j x y,
        a < b -> nth_error top a = Some i -> nth_error top b = Some j ->
        nth_error ps i = Some x -> nth_error ps j = Some y ->
        nan_last_leb x y = true) /\
    (forall i j x y,
        In i top -> j < length ps -> ~ In j top ->
        nth_error ps i = Some x -> nth_error ps j = Some y ->
        nan_last_leb x y = true) /\
    (forall a b i j x y,
        a < b -> nth_error top a = Some i -> nth_error top b = Some j ->
        nth_error ps i = Some x -> nth_error ps j = Some y ->
        nan_last_leb y x = true -> i < j) /\
    (forall i j x y,
        In i top -> j < length ps -> ~ In j top ->
        nth_error ps i = Some x -> nth_error ps j = Some y ->
        nan_last_leb y x = true -> i < j) /\
    (forall x y,
        is_nan y = false ->
        nan_last_leb x y = true -> PrimFloat.leb x y = true) /\
    (exists r st' top_genes,
        nsmallest df n "padj" st = Returns r st' /\
        r = length (heap st) /\
        heap st' = heap st ++ [top_genes] /\
        top_genes = take_rows top d /\
        (well_formed d ->
         column_names top_genes = column_names d /\
         length (index top_genes) = Nat.min n (length (index d)) /\
         (forall k, nth_error (index top_genes) k =
                    match nth_error top k with
                    | Some i => nth_error (index d) i
                    | None => None
                    end) /\
         (forall c k, cell top_genes c k =
                      match nth_error top k with
                      | Some i => cell d c i
                      | None => None
                      end))) /\
    (forall c,
        In c (count_cols (column_names d)) <->
        In c (column_names d) /\
        exists pre w post, c = pre +++ w +++ post /\ lower w = "countings") /\
    (count_cols (column_names d) <> [] ->
     exists r st' count_data,
       heatmap_data df n st = Returns (Some r) st' /\
       nth_error (heap st') r = Some count_data /\
       nth_error (heap st') df = Some d /\
       column_names count_data = count_cols (column_names d) /\
       (forall c xs,
           In c (count_cols (column_names d)) ->
           assoc c (columns d) = Some xs ->
           assoc c (columns count_data) = Some (take top xs)) /\
       (forall gs,
           assoc "gene_name" (columns d) = Some gs ->
           index count_data = map Key (take top gs)) /\
       (well_formed d ->
        length (index count_data) = Nat.min n (length (index d)) /\
        (forall k, nth_error (index count_data) k =
                   match nth_error top k with
                   | Some i => option_map Key (cell d "gene_name" i)
                   | None => None
                   end) /\
        (forall c k,
            In c (count_cols (column_names d)) ->
            cell count_data c k =
              match nth_error top k with
              | Some i => cell d c i
              | None => None
              end) /\
        (forall c k,
            ~ In c (count_cols (column_names d)) ->
            cell count_data c k = None))) /\
    (count_cols (column_names d) = [] ->
     heatmap_data df n st =
       Returns None
         {| heap := heap st;
            ui := ui st ++ [Warning no_count_columns_warning] |}).
Proof.
  intros st df d ps n H P G top.
  assert (length top = Nat.min n (length ps)) as Ltop
    by (unfold top; now rewrite length_firstn, argsort_length).
  assert (Forall (fun i => i < length (index d)) top) as V.
  { apply Forall_forall. intros i I. rewrite <- (proj2 P).
    now apply argsort_In, (firstn_In_inv n). }
  split; [exact Ltop|].
  split; [apply firstn_NoDup, argsort_NoDup|].
  split; [intros i I; now apply argsort_In, (firstn_In_inv n)|].
  split.
  { intros a b i j x y L Ea Eb Ex Ey.
    apply nth_error_firstn_inv in Ea, Eb.
    now apply (argsort_ascending ps a b i j). }
  split; [intros i j x y; now apply argsort_firstn_smallest|].
  split.
  { intros a b i j x y L Ea Eb Ex Ey.
    apply nth_error_firstn_inv in Ea, Eb.
    now apply (argsort_stable ps a b i j x y). }
  split; [intros i j x y; now apply argsort_firstn_first|].
  split.
  { intros x y N. unfold nan_last_leb. now rewrite N. }
  split.
  { do 3 eexists. split; [exact (nsmallest_run st df d ps n H P)|].
    split; [reflexivity|]. split; [reflexivity|]. split; [reflexivity|].
    intros W. fold top.
    destruct (take_rows_cells top d W V) as (Cols & Len & Labels & Cells).
    split; [exact Cols|].
    split; [now rewrite Len, Ltop, (proj2 P)|].
    split; [exact Labels | exact Cells]. }
  split; [intros c; apply count_cols_In|].
  split.
  - intros C.
    pose proof (heatmap_data_run st df d ps n H P G C) as Run.
    cbv zeta in Run. fold top in Run.
    do 3 eexists. split; [exact Run|]. cbn [heap].
    split.
    { rewrite nth_error_app2 by lia.
      replace (length (heap st) + 2 - length (heap st)) with 2 by lia.
      reflexivity. }
    split; [now apply nth_error_snoc_old_many|].
    split.
    { unfold column_names. cbn [columns]. rewrite map_map. cbn [fst].
      apply map_id. }
    split.
    { intros c xs I E. cbn [columns].
      rewrite assoc_map_pair by exact I.
      unfold column_or_empty. now rewrite E. }
    split.
    { intros gs E. cbn [index]. unfold column_or_empty. now rewrite E. }
    intros W. cbn [index]. apply assoc_In_names in G as [gs G].
    pose proof (well_formed_column d _ _ W G) as LG.
    unfold column_or_empty at 1 2. rewrite G.
    assert (Forall (fun i => i < length gs) top) as VG by now rewrite LG.
    split.
    { now rewrite length_map, (take_length top gs VG), Ltop, (proj2 P). }
    split.
    { intros k. rewrite nth_error_map, (take_nth_error top gs k VG).
      unfold cell. rewrite G. now destruct (nth_error top k). }
    split.
    + intros c k I. unfold cell at 1. cbn [columns].
      rewrite assoc_map_pair by exact I.
      unfold count_cols in I. apply filter_In in I as [I _].
      apply assoc_In_names in I as [xs E].
      unfold column_or_empty, cell. rewrite E.
      apply take_nth_error. now rewrite (well_formed_column d _ _ W E).
    + intros c k N. unfold cell. cbn [columns].
      destruct (assoc c _) as [xs|] eqn:E; [|reflexivity].
      elim N. apply assoc_In in E. apply in_map_iff in E as (c' & E & I).
      now inversion E; subst.
  - intros C. unfold heatmap_data. run_with (df_columns_run _ _ _ H).
    rewrite C. reflexivity.
Qed.

(** The two smallest p-values of [counts_frame] are equal: rows 1 and 3, in
    this order; its count columns are the two whose names contain
    [countings]. The heatmap's data has these two rows, labelled [dnaA]
    and [talB], with their counts. *)
Lemma heatmap_data_top_rows_witness :
  exists r st' count_data,
    heatmap_data 0 2 {| heap := [counts_frame]; ui := [] |}
      = Returns (Some r) st' /\
    nth_error (heap st') r = Some count_data /\
    column_names count_data = ["wt_1 Countings"; "KO_COUNTINGS"] /\
    firstn 2 (argsort [0.03; 0.001; 0.2; 0.001]%float) = [1; 3] /\
    length (index count_data) = 2 /\
    nth_error (index count_data) 0 = Some (Key (VStr "dnaA")) /\
    nth_error (index count_data) 1 = Some (Key (VStr "talB")) /\
    cell count_data "wt_1 Countings" 0 = Some (VFloat 250) /\
    cell count_data "KO_COUNTINGS" 1 = Some (VFloat 90) /\
    cell count_data "KO_COUNTINGS" 2 = None /\
    cell count_data "padj" 0 = None.
Proof.
  destruct (heatmap_data_top_rows {| heap := [counts_frame]; ui := [] |} 0
              counts_frame [0.03; 0.001; 0.2; 0.001]%float 2
              eq_refl (conj eq_refl eq_refl))
    as (_ & _ & _ & _ & _ & _ & _ & _ & _ & _ & Q & _).
  - simpl. tauto.
  - destruct Q as (r & st' & cd & R & Hr & _ & C & _ & _ & Rows);
      [discriminate|].
    destruct Rows as (Len & Labels & Cells & Others);
      [repeat constructor|].
    exists r, st', cd. split; [exact R|]. split; [exact Hr|].
    split; [exact C|]. split; [reflexivity|].
    split; [exact Len|].
    split; [exact (Labels 0)|]. split; [exact (Labels 1)|].
    split; [apply (Cells "wt_1 Countings" 0); simpl; tauto|].
    split; [apply (Cells "KO_COUNTINGS" 1); simpl; tauto|].
    split; [apply (Cells "KO_COUNTINGS" 2); simpl; tauto|].
    apply (Others "padj" 0). simpl. intros [E|[E|[]]]; discriminate E.
Defined.

(* ================================================================= *)
(** * Further properties *)

(** ** The labels of [extract_gene_info] *)

Lemma append_assoc (a b c : string) : (a +++ b) +++ c = a +++ b +++ c.
Proof. induction a as [|x a IH]; simpl; [reflexivity | now rewrite IH]. Qed.

(** What a successful search returns stands in the text, right after the
    key. *)
Lemma re_search_found (key s v : string) :
  re_search key s = Some v ->
  v <> "" /\ semicolon_free v /\
  exists pre post, s = pre +++ key +++ v +++ post.
Proof.
  intros E. pose proof (re_search_token key s) as T. rewrite E in T.
  destruct T as (pre & post & (S & N & F & _) & _).
  split; [exact N|]. split; [exact F|]. now exists pre, post.
Qed.

Lemma semicolon_free_prefix (a b : string) :
  semicolon_free (a +++ b) -> semicolon_free a.
Proof.
  intros F x y ->. apply (F x (y +++ b)).
  rewrite append_assoc. reflexivity.
Qed.

(** X1. Whatever the annotation, neither label is empty and neither holds
    a [;]. A gene name other than the placeholder ["Unknown"] stands in the
    annotation text right after one of the keys [gene=], [Name=] and
    [product=], a locus tag other than the placeholder right after
    [locus_tag=]; a missing annotation gives the placeholder twice. *)
Theorem extract_gene_info_labels :
  forall (str_of_float : float -> string) (v : value),
    let gene_name := fst (extract_gene_info str_of_float v) in
    let locus_tag := snd (extract_gene_info str_of_float v) in
    gene_name <> "" /\ locus_tag <> "" /\
    semicolon_free gene_name /\ semicolon_free locus_tag /\
    (gene_name = "Unknown" \/
     isna v = false /\
     exists key pre post,
       In key ["gene="; "Name="; "product="] /\
       py_str str_of_float v = pre +++ key +++ gene_name +++ post) /\
    (locus_tag = "Unknown" \/
     isna v = false /\
     exists pre post,
       py_str str_of_float v = pre +++ "locus_tag=" +++ locus_tag +++ post).
Proof.
  intros str_of_float v. cbv zeta.
  assert (semicolon_free "Unknown") as FU.
  { repeat (apply semicolon_free_cons; split; [discriminate|]).
    apply semicolon_free_empty. }
  unfold extract_gene_info. destruct (isna v) eqn:N; cbn [fst snd].
  { repeat split; try discriminate; try exact FU; now left. }
  set (s := py_str str_of_float v).
  assert (forall l,
             l = match re_search "locus_tag=" s with
                 | Some l => l
                 | None => "Unknown"
                 end ->
             l <> "" /\ semicolon_free l /\
             (l = "Unknown" \/
              false = false /\
              exists pre post, s = pre +++ "locus_tag=" +++ l +++ post))
    as HL.
  { intros l ->. destruct (re_search "locus_tag=" s) as [l|] eqn:E.
    - destruct (re_search_found _ _ _ E) as (N1 & F1 & pre & post & S).
      repeat split; try assumption. right. split; [reflexivity|].
      now exists pre, post.
    - repeat split; try discriminate; try exact FU. now left. }
  destruct (HL _ eq_refl) as (L1 & L2 & L3). clear HL.
  assert (forall g,
             g = match re_search "Name=" s with
                 | Some n => n
                 | None =>
                     match re_search "product=" s with
                     | Some p => slice_to 30 p
                     | None => "Unknown"
                     end
                 end ->
             g <> "" /\ semicolon_free g /\
             (g = "Unknown" \/
              false = false /\
              exists key pre post,
                In key ["gene="; "Name="; "product="] /\
                s = pre +++ key +++ g +++ post)) as HF.
  { intros g ->. destruct (re_search "Name=" s) as [n|] eqn:En.
    - destruct (re_search_found _ _ _ En) as (N1 & F1 & pre & post & S).
      repeat split; try assumption. right. split; [reflexivity|].
      exists "Name=", pre, post. split; [simpl; tauto | exact S].
    - destruct (re_search "product=" s) as [p|] eqn:Ep.
      + destruct (re_search_found _ _ _ Ep) as (N1 & F1 & pre & post & S).
        destruct (slice_to_spec 30 p) as (rest & P & _).
        split; [|split].
        * now apply slice_to_nonempty.
        * apply (semicolon_free_prefix _ rest). now rewrite <- P.
        * right. split; [reflexivity|].
          exists "product=", pre, (rest +++ post).
          split; [simpl; tauto|].
          rewrite <- (append_assoc (slice_to 30 p)), <- P. exact S.
      + repeat split; try discriminate; try exact FU. now left. }
  destruct (re_search "gene=" s) as [g|] eqn:Eg.
  - destruct (String.eqb_spec g "Unknown") as [->|Hg].
    + destruct (HF _ eq_refl) as (G1 & G2 & G3). tauto.
    + destruct (re_search_found _ _ _ Eg) as (N1 & F1 & pre & post & S).
      repeat split; try assumption. right. split; [reflexivity|].
      exists "gene=", pre, post. split; [simpl; tauto | exact S].
  - change ("Unknown" =? "Unknown") with true. cbv iota.
    destruct (HF _ eq_refl) as (G1 & G2 & G3). tauto.
Qed.

(** ** The classifier and its thresholds *)

Lemma SFltb_leb_trans (x y z : spec_float) :
  SFltb x y = true -> SFleb y z = true -> SFltb x z = true.
Proof.
  unfold SFltb, SFleb, SFcompare.
  destruct x as [sx|sx| |sx mx ex], y as [sy|sy| |sy my ey],
           z as [sz|sz| |sz mz ez]; intros H1 H2; sf_cases.
Qed.

Lemma SFleb_antisym (x y : spec_float) :
  SFleb x y = true -> SFleb y x = true -> SFeqb x y = true.
Proof.
  unfold SFeqb, SFleb, SFcompare.
  destruct x as [sx|sx| |sx mx ex], y as [sy|sy| |sy my ey];
    intros H1 H2; sf_cases.
Qed.

Lemma ltb_leb_trans (a b c : float) :
  PrimFloat.ltb a b = true -> PrimFloat.leb b c = true ->
  PrimFloat.ltb a c = true.
Proof.
  rewrite !FloatAxioms.ltb_spec, FloatAxioms.leb_spec.
  apply SFltb_leb_trans.
Qed.

Lemma leb_antisym (a b : float) :
  PrimFloat.leb a b = true -> PrimFloat.leb b a = true ->
  PrimFloat.eqb a b = true.
Proof.
  rewrite !FloatAxioms.leb_spec, FloatAxioms.eqb_spec.
  apply SFleb_antisym.
Qed.

Lemma ltb_nan_l (a b : float) : is_nan a = true -> PrimFloat.ltb a b = false.
Proof.
  intros N. apply is_nan_spec in N. now rewrite FloatAxioms.ltb_spec, N.
Qed.

Lemma leb_nan_r (a b : float) : is_nan b = true -> PrimFloat.leb a b = false.
Proof.
  intros N. apply is_nan_spec in N. rewrite FloatAxioms.leb_spec, N.
  unfold SFleb, SFcompare. now destruct (Prim2SF a) as [[]|[]| |[] ? ?].
Qed.

(** Looser thresholds keep the label of a row that had one of the two
    significant labels, unless they turn it from [Downregulated] into
    [Upregulated]. *)
Lemma significance_label_loosened (thr up down thr' up' down' p l : float) :
  PrimFloat.leb thr thr' = true ->
  PrimFloat.leb up' up = true ->
  PrimFloat.leb down down' = true ->
  let s := significance_label thr up down p l in
  let s' := significance_label thr' up' down' p l in
  (s = "Upregulated" -> s' = "Upregulated") /\
  (s = "Downregulated" -> s' = "Downregulated" \/ s' = "Upregulated") /\
  (s = "Downregulated" -> PrimFloat.leb up' l = false ->
   s' = "Downregulated").
Proof.
  intros T U D s s'.
  destruct (significance_label_cases thr up down p l) as (U1 & D1 & _).
  destruct (significance_label_cases thr' up' down' p l) as (U2 & D2 & _).
  cbv zeta in *. fold s in U1, D1. fold s' in U2, D2.
  assert (PrimFloat.ltb p thr = true -> PrimFloat.ltb p thr' = true) as HT
    by (intros H; now apply (ltb_leb_trans _ thr)).
  assert (PrimFloat.leb up l = true -> PrimFloat.leb up' l = true) as HU
    by (intros H; now apply (leb_trans _ up)).
  assert (PrimFloat.leb l down = true -> PrimFloat.leb l down' = true) as HD
    by (intros H; now apply (leb_trans _ down)).
  split; [|split].
  - intros E. apply U1 in E as [E1 E2]. apply U2. auto.
  - intros E. apply D1 in E as [_ [E1 E2]].
    destruct (PrimFloat.leb up' l) eqn:C.
    + right. apply U2. auto.
    + left. apply D2. split; [intros [_ F]; congruence | auto].
  - intros E C. apply D1 in E as [_ [E1 E2]].
    apply D2. split; [intros [_ F]; congruence | auto].
Qed.

(** X2. Loosening the thresholds (a larger [padj_threshold], a smaller
    [log2fc_up], a larger [log2fc_down]) loses no hit. On the same frame,
    every row that was [Upregulated] stays [Upregulated], and every row
    that was [Downregulated] stays [Downregulated] or becomes
    [Upregulated]; it stays [Downregulated] when its fold change is not
    at or above the new [log2fc_up], as is the case whenever [log2fc_up] is
    left as it was. *)
Theorem filter_deseq_data_loosened_thresholds :
  forall (np_log10 : float -> float) (thr up down thr' up' down' : float)
         (st : state) (df : ref) (d : DataFrame) (ps ls : list float),
    nth_error (heap st) df = Some d ->
    numeric_column d "padj" ps ->
    numeric_column d "log2FoldChange" ls ->
    PrimFloat.leb thr thr' = true ->
    PrimFloat.leb up' up = true ->
    PrimFloat.leb down down' = true ->
    exists out out',
      table_of (filter_deseq_data np_log10 df thr up down st) = Some out /\
      table_of (filter_deseq_data np_log10 df thr' up' down' st)
        = Some out' /\
      forall i p l,
        nth_error ps i = Some p -> nth_error ls i = Some l ->
        exists s s',
          cell out "Significance" i = Some (VStr s) /\
          cell out' "Significance" i = Some (VStr s') /\
          (s = "Upregulated" -> s' = "Upregulated") /\
          (s = "Downregulated" ->
           s' = "Downregulated" \/ s' = "Upregulated") /\
          (s = "Downregulated" -> PrimFloat.leb up' l = false ->
           s' = "Downregulated") /\
          (s = "Downregulated" -> up' = up -> s' = "Downregulated").
Proof.
  intros np_log10 thr up down thr' up' down' st df d ps ls H P L T U D.
  exists (annotated np_log10 thr up down d ps ls),
    (annotated np_log10 thr' up' down' d ps ls).
  rewrite !(filter_deseq_data_run _ _ _ _ _ _ _ _ _ H P L).
  cbn [table_of heap]. rewrite !nth_error_snoc.
  split; [reflexivity|]. split; [reflexivity|].
  intros i p l Hp Hl.
  exists (significance_label thr up down p l),
    (significance_label thr' up' down' p l).
  split; [now apply cell_annotated_significance|].
  split; [now apply cell_annotated_significance|].
  destruct (significance_label_loosened thr up down thr' up' down' p l T U D)
    as (A & B & C).
  split; [exact A|]. split; [exact B|]. split; [exact C|].
  intros E ->. apply C; [exact E|].
  apply significance_label_cases in E as [N [E1 _]].
  destruct (PrimFloat.leb up l) eqn:F; [|reflexivity].
  elim N. now split.
Qed.

(** The rows of [example_frame] when the thresholds go from
    [(0.01, 2, -2)] to [(0.05, 1, -1)]. *)
Lemma filter_deseq_data_loosened_thresholds_witness :
  exists out out',
    table_of (filter_deseq_data log10_steps 0 0.01 2 (-2) example_state)
      = Some out /\
    table_of (filter_deseq_data log10_steps 0 0.05 1 (-1) example_state)
      = Some out' /\
    cell out "Significance" 0 = Some (VStr "Upregulated") /\
    cell out' "Significance" 0 = Some (VStr "Upregulated") /\
    cell out "Significance" 1 = Some (VStr "Downregulated") /\
    cell out' "Significance" 1 = Some (VStr "Downregulated") /\
    cell out "Significance" 4 = Some (VStr "Not Significant") /\
    cell out' "Significance" 4 = Some (VStr "Upregulated").
Proof.
  destruct (filter_deseq_data_loosened_thresholds log10_steps
              0.01 2 (-2) 0.05 1 (-1)
              example_state 0 example_frame
              [0.001; 0.0001; 0.2; 0.05; 0.01; 0]%float
              [2.5; -3; 0.2; 1; 1; 0]%float
              eq_refl (conj eq_refl eq_refl) (conj eq_refl eq_refl)
              eq_refl eq_refl eq_refl)
    as (out & out' & T & T' & _).
  exists out, out'. split; [exact T|]. split; [exact T'|].
  injection T as <-. injection T' as <-. repeat split.
Defined.

(** X3. Under the ranges of the sidebar's inputs ([padj_threshold] at most
    1, [log2fc_up] at least 0, [log2fc_down] at most 0) a label tells the
    sign of the fold change: an [Upregulated] row has a fold change of at
    least 0, a [Downregulated] row one of at most 0, and both have an
    adjusted p-value below 1. A row meets both conditions only when its
    fold change and both fold-change thresholds are zero. A row with an
    adjusted p-value of 1 or more, and a row in which either value is
    missing (NaN), is [Not Significant]. *)
Theorem filter_deseq_data_widget_ranges :
  forall (np_log10 : float -> float) (thr up down : float)
         (st : state) (df : ref) (d : DataFrame) (ps ls : list float),
    nth_error (heap st) df = Some d ->
    numeric_column d "padj" ps ->
    numeric_column d "log2FoldChange" ls ->
    PrimFloat.leb thr 1 = true ->
    PrimFloat.leb 0 up = true ->
    PrimFloat.leb down 0 = true ->
    exists out,
      table_of (filter_deseq_data np_log10 df thr up down st) = Some out /\
      forall i p l,
        nth_error ps i = Some p -> nth_error ls i = Some l ->
        exists s,
          cell out "Significance" i = Some (VStr s) /\
          (s = "Upregulated" ->
           PrimFloat.leb 0 l = true /\ PrimFloat.ltb p 1 = true) /\
          (s = "Downregulated" ->
           PrimFloat.leb l 0 = true /\ PrimFloat.ltb p 1 = true) /\
          (PrimFloat.ltb p thr = true -> PrimFloat.leb up l = true ->
           PrimFloat.leb l down = true ->
           PrimFloat.eqb l 0 = true /\ PrimFloat.eqb up 0 = true /\
           PrimFloat.eqb down 0 = true) /\
          (PrimFloat.leb 1 p = true -> s = "Not Significant") /\
          (is_nan p = true \/ is_nan l = true -> s = "Not Significant").
Proof.
  intros np_log10 thr up down st df d ps ls H P L T U D.
  exists (annotated np_log10 thr up down d ps ls).
  rewrite (filter_deseq_data_run _ _ _ _ _ _ _ _ _ H P L).
  cbn [table_of heap]. rewrite nth_error_snoc.
  split; [reflexivity|].
  intros i p l Hp Hl. exists (significance_label thr up down p l).
  split; [now apply cell_annotated_significance|].
  destruct (significance_label_cases thr up down p l) as (U1 & D1 & N1).
  cbv zeta in *.
  split; [|split; [|split; [|split]]].
  - intros E. apply U1 in E as [E1 E2]. split.
    + now apply (leb_trans _ up).
    + now apply (ltb_leb_trans _ thr).
  - intros E. apply D1 in E as [_ [E1 E2]]. split.
    + now apply (leb_trans _ down).
    + now apply (ltb_leb_trans _ thr).
  - intros _ E1 E2.
    assert (PrimFloat.leb 0 l = true) as A by now apply (leb_trans _ up).
    assert (PrimFloat.leb l 0 = true) as B by now apply (leb_trans _ down).
    split; [now apply leb_antisym|]. split.
    + apply leb_antisym; [|exact U]. now apply (leb_trans _ l).
    + apply leb_antisym; [exact D|]. now apply (leb_trans _ l).
  - intros E. apply N1.
    assert (PrimFloat.ltb p thr = false) as F.
    { destruct (PrimFloat.ltb p thr) eqn:C; [|reflexivity].
      pose proof (ltb_leb_trans _ _ _ C T) as C1.
      apply leb_not_ltb in E. congruence. }
    split; intros [C _]; congruence.
  - intros [N|N]; apply N1.
    + rewrite (ltb_nan_l _ thr N). split; intros [C _]; discriminate.
    + rewrite (leb_nan_r up _ N), (leb_nan_l _ down N).
      split; intros [_ C]; discriminate.
Qed.

(** [example_frame] under the default thresholds of the sidebar. *)
Lemma filter_deseq_data_widget_ranges_witness :
  exists out,
    table_of (filter_deseq_data log10_steps 0 0.05 1 (-1) example_state)
      = Some out /\
    cell out "Significance" 0 = Some (VStr "Upregulated") /\
    cell out "log2FoldChange" 0 = Some (VFloat 2.5) /\
    cell out "Significance" 1 = Some (VStr "Downregulated") /\
    cell out "log2FoldChange" 1 = Some (VFloat (-3)).
Proof.
  destruct (filter_deseq_data_widget_ranges log10_steps 0.05 1 (-1)
              example_state 0 example_frame
              [0.001; 0.0001; 0.2; 0.05; 0.01; 0]%float
              [2.5; -3; 0.2; 1; 1; 0]%float
              eq_refl (conj eq_refl eq_refl) (conj eq_refl eq_refl)
              eq_refl eq_refl eq_refl)
    as (out & T & _).
  exists out. split; [exact T|].
  injection T as <-. repeat split.
Defined.

(** ** The classifier on its own output *)

Lemma assoc_set_twice {A : Type} (k : string) (a b : A)
  (l : list (string * A)) :
  assoc_set k a (assoc_set k b l) = assoc_set k a l.
Proof.
  induction l as [|[k' x] l IH]; simpl.
  - now rewrite String.eqb_refl.
  - destruct (String.eqb k k') eqn:E; simpl.
    + now rewrite String.eqb_refl.
    + now rewrite E, IH.
Qed.

Lemma assoc_set_over {A : Type} (k1 k2 : string) (a b c : A)
  (l : list (string * A)) :
  k1 <> k2 ->
  assoc_set k1 a (assoc_set k2 b (assoc_set k1 c l)) =
    assoc_set k2 b (assoc_set k1 a l).
Proof.
  intros N.
  assert (String.eqb k1 k2 = false) as N12 by now apply String.eqb_neq.
  assert (String.eqb k2 k1 = false) as N21
    by (apply String.eqb_neq; congruence).
  induction l as [|[k x] l IH]; simpl.
  - rewrite N21. simpl. now rewrite String.eqb_refl.
  - destruct (String.eqb k1 k) eqn:E1; simpl.
    + rewrite N21. simpl. now rewrite String.eqb_refl.
    + destruct (String.eqb k2 k) eqn:E2; simpl.
      * rewrite N12. now rewrite assoc_set_twice.
      * now rewrite E1, IH.
Qed.

(** The classifier reads [padj] and [log2FoldChange] only: on its own
    output it builds what it builds on the input. *)
Lemma annotated_annotated (np_log10 : float -> float)
  (thr up down thr' up' down' : float) (d : DataFrame) (ps ls : list float) :
  annotated np_log10 thr' up' down'
    (annotated np_log10 thr up down d ps ls) ps ls =
  annotated np_log10 thr' up' down' d ps ls.
Proof.
  unfold annotated. cbn [index columns]. f_equal.
  rewrite (assoc_set_over "Significance" "-log10(padj)") by discriminate.
  now rewrite assoc_set_twice.
Qed.

Lemma numeric_column_annotated (np_log10 : float -> float)
  (thr up down : float) (d : DataFrame) (ps ls : list float) (c : string)
  (xs : list float) :
  c <> "Significance" -> c <> "-log10(padj)" ->
  numeric_column d c xs ->
  numeric_column (annotated np_log10 thr up down d ps ls) c xs.
Proof.
  intros N1 N2 [C Len]. split; [|exact Len].
  now rewrite assoc_annotated_other.
Qed.

(** X4. Classifying a table that the classifier has built, with the same
    or with other thresholds, gives a table equal to the one that
    classifying the original frame with these thresholds gives: the two
    derived columns are written over, and the labels depend on nothing but
    [padj], [log2FoldChange] and the thresholds of the last call. *)
Theorem filter_deseq_data_reclassify :
  forall (np_log10 : float -> float) (thr up down thr' up' down' : float)
         (st : state) (df : ref) (d : DataFrame) (ps ls : list float),
    nth_error (heap st) df = Some d ->
    numeric_column d "padj" ps ->
    numeric_column d "log2FoldChange" ls ->
    exists r1 st1 r2 st2 out,
      filter_deseq_data np_log10 df thr up down st = Returns r1 st1 /\
      filter_deseq_data np_log10 r1 thr' up' down' st1 = Returns r2 st2 /\
      nth_error (heap st2) r2 = Some out /\
      table_of (filter_deseq_data np_log10 df thr' up' down' st)
        = Some out.
Proof.
  intros np_log10 thr up down thr' up' down' st df d ps ls H P L.
  set (a := annotated np_log10 thr up down d ps ls).
  set (st1 := {| heap := heap st ++ [a]; ui := ui st |}).
  assert (nth_error (heap st1) (length (heap st)) = Some a) as H1
    by apply nth_error_snoc.
  assert (numeric_column a "padj" ps) as P1
    by now apply numeric_column_annotated.
  assert (numeric_column a "log2FoldChange" ls) as L1
    by now apply numeric_column_annotated.
  exists (length (heap st)), st1, (length (heap st1)),
    {| heap := heap st1 ++ [annotated np_log10 thr' up' down' a ps ls];
       ui := ui st1 |},
    (annotated np_log10 thr' up' down' d ps ls).
  split; [now apply filter_deseq_data_run|].
  split; [now apply filter_deseq_data_run|].
  split.
  - cbn [heap]. rewrite nth_error_snoc. unfold a.
    now rewrite annotated_annotated.
  - rewrite (filter_deseq_data_run _ _ _ _ _ _ _ _ _ H P L).
    apply nth_error_snoc.
Qed.

(** [example_frame] classified with the thresholds [(0.01, 2, -2)] and
    then with the default ones. *)
Lemma filter_deseq_data_reclassify_witness :
  exists r1 st1 r2 st2 out,
    filter_deseq_data log10_steps 0 0.01 2 (-2) example_state
      = Returns r1 st1 /\
    filter_deseq_data log10_steps r1 0.05 1 (-1) st1 = Returns r2 st2 /\
    nth_error (heap st2) r2 = Some out /\
    table_of (filter_deseq_data log10_steps 0 0.05 1 (-1) example_state)
      = Some out.
Proof.
  exact (filter_deseq_data_reclassify log10_steps 0.01 2 (-2) 0.05 1 (-1)
           example_state 0 example_frame
           [0.001; 0.0001; 0.2; 0.05; 0.01; 0]%float
           [2.5; -3; 0.2; 1; 1; 0]%float
           eq_refl (conj eq_refl eq_refl) (conj eq_refl eq_refl)).
Defined.

(** ** Failures of the classifier *)

Lemma bind_raises {A B : Type} (m : M A) (k : A -> M B) (s s' : state)
  (e : exn) :
  m s = Raises e s' -> bind m k s = Raises e s'.
Proof. unfold bind. now intros ->. Qed.

Lemma getitem_missing (r : ref) (name : string) (d : DataFrame)
  (s : state) :
  nth_error (heap s) r = Some d -> assoc name (columns d) = None ->
  getitem r name s = Raises (KeyError name) s.
Proof.
  intros H C. unfold getitem.
  rewrite (bind_returns _ _ _ _ _ (deref_run _ _ _ H)). now rewrite C.
Qed.

(** A column is numeric unless one of its cells is text. *)
Lemma floats_of_text (xs : list value) :
  floats_of xs = None <-> exists t, In (VStr t) xs.
Proof.
  induction xs as [|[x|t] xs IH]; simpl.
  - split; [discriminate | now intros [t []]].
  - destruct (floats_of xs) as [fs|].
    + split; [discriminate|]. intros [t [E|I]]; [discriminate|].
      assert (Some fs = None) as F by (apply IH; now exists t).
      discriminate F.
    + split; [|reflexivity]. intros _.
      destruct (proj1 IH eq_refl) as [t I]. exists t. now right.
  - split; [|reflexivity]. intros _. exists t. now left.
Qed.

Lemma floats_of_some (xs : list value) (fs : list float) :
  floats_of xs = Some fs -> xs = map VFloat fs.
Proof.
  revert fs. induction xs as [|[x|t] xs IH]; simpl; intros fs E.
  - now injection E as <-.
  - destruct (floats_of xs) as [fs'|]; [|discriminate].
    injection E as <-. simpl. now rewrite (IH fs').
  - discriminate.
Qed.

Lemma series_cmp_text (op : float -> float -> bool) (xs : list value)
  (k : float) (s : state) :
  floats_of xs = None -> series_cmp op xs k s = Raises TypeError s.
Proof.
  induction xs as [|[x|t] xs IH]; simpl; intros E.
  - discriminate.
  - destruct (floats_of xs); [discriminate|].
    now rewrite (bind_raises _ _ _ _ _ (IH eq_refl)).
  - reflexivity.
Qed.

(** X5. How the classifier fails. On a frame without a [padj] column it
    raises KeyError for [padj], and on one whose [padj] column holds text
    it raises TypeError, whatever the other column is; with a numeric
    [padj] it raises KeyError for [log2FoldChange] when that column does
    not exist and TypeError when it holds text. In each case nothing is
    returned, the caller's frame is as it was, and the copy made by then
    is all that was added. *)
Theorem filter_deseq_data_failures :
  forall (np_log10 : float -> float) (thr up down : float) (st : state)
         (df : ref) (d : DataFrame),
    nth_error (heap st) df = Some d ->
    let o := filter_deseq_data np_log10 df thr up down st in
    let st' := {| heap := heap st ++ [d]; ui := ui st |} in
    (assoc "padj" (columns d) = None -> o = Raises (KeyError "padj") st') /\
    (forall xs t,
        assoc "padj" (columns d) = Some xs -> In (VStr t) xs ->
        o = Raises TypeError st') /\
    (forall ps,
        assoc "padj" (columns d) = Some (map VFloat ps) ->
        assoc "log2FoldChange" (columns d) = None ->
        o = Raises (KeyError "log2FoldChange") st') /\
    (forall ps xs t,
        assoc "padj" (columns d) = Some (map VFloat ps) ->
        assoc "log2FoldChange" (columns d) = Some xs -> In (VStr t) xs ->
        o = Raises TypeError st') /\
    nth_error (heap st') df = Some d.
Proof.
  intros np_log10 thr up down st df d H o st'.
  assert (nth_error (heap st') (length (heap st)) = Some d) as H1
    by apply nth_error_snoc.
  assert (forall (k : ref -> M ref) e,
             k (length (heap st)) st' = Raises e st' ->
             bind (copy df) k st = Raises e st') as Start.
  { intros k e K. now rewrite (bind_returns _ _ _ _ _ (copy_run _ _ _ H)). }
  split; [|split; [|split; [|split]]].
  - intros P. apply Start.
    now rewrite (bind_raises _ _ _ _ _ (getitem_missing _ _ _ _ H1 P)).
  - intros xs t P I. apply Start.
    rewrite (bind_returns _ _ _ _ _ (getitem_run _ _ _ _ _ H1 P)).
    apply bind_raises, series_cmp_text, floats_of_text. now exists t.
  - intros ps P L. apply Start.
    rewrite (bind_returns _ _ _ _ _ (getitem_run _ _ _ _ _ H1 P)).
    unfold series_lt.
    rewrite (bind_returns _ _ _ _ _ (series_cmp_floats _ ps thr st')).
    now rewrite (bind_raises _ _ _ _ _ (getitem_missing _ _ _ _ H1 L)).
  - intros ps xs t P L I. apply Start.
    rewrite (bind_returns _ _ _ _ _ (getitem_run _ _ _ _ _ H1 P)).
    unfold series_lt.
    rewrite (bind_returns _ _ _ _ _ (series_cmp_floats _ ps thr st')).
    rewrite (bind_returns _ _ _ _ _ (getitem_run _ _ _ _ _ H1 L)).
    apply bind_raises, series_cmp_text, floats_of_text. now exists t.
  - subst st'. cbn [heap]. rewrite nth_error_app1; [exact H|].
    now apply nth_error_lt in H.
Qed.

(** A frame without a [padj] column. *)
Lemma filter_deseq_data_failures_witness :
  filter_deseq_data log10_steps 0 0.05 1 (-1)
    {| heap := [no_padj_frame]; ui := [] |}
  = Raises (KeyError "padj")
      {| heap := [no_padj_frame; no_padj_frame]; ui := [] |}.
Proof.
  exact (proj1 (filter_deseq_data_failures log10_steps 0.05 1 (-1)
                  {| heap := [no_padj_frame]; ui := [] |} 0 no_padj_frame
                  eq_refl)
               eq_refl).
Defined.

(** ** Failures of the ingestion *)

Lemma take_nil {A : Type} (idx : list nat) : take idx (@nil A) = [].
Proof.
  induction idx as [|i idx IH]; simpl; [reflexivity|]. now destruct i.
Qed.

(** X6. A loaded file that has an [Attributes] column and no rows is not
    turned into an empty table: the labelling step raises ValueError (the
    two label columns cannot be assigned from an empty result), nothing is
    changed and no table is built. Without an [Attributes] column a file
    without rows gives the warning and a table without rows. *)
Theorem main_content_no_rows :
  forall (np_log10 : float -> float) (str_of_float : float -> string)
         (thr up down : float) (st : state) (df : ref) (d : DataFrame),
    nth_error (heap st) df = Some d ->
    (assoc "Attributes" (columns d) = Some [] ->
     extract_gene_information str_of_float df st = Raises ValueError st /\
     main_content np_log10 str_of_float df thr up down st
     = Raises ValueError st) /\
    (assoc "Attributes" (columns d) = None ->
     index d = [] ->
     numeric_column d "padj" [] ->
     numeric_column d "log2FoldChange" [] ->
     exists r st' out,
       main_content np_log10 str_of_float df thr up down st
       = Returns r st' /\
       nth_error (heap st') r = Some out /\
       index out = [] /\
       ui st' = ui st ++ [Warning attributes_warning]).
Proof.
  intros np_log10 str_of_float thr up down st df d H. split.
  - intros A.
    assert (extract_gene_information str_of_float df st
            = Raises ValueError st) as E.
    { unfold extract_gene_information.
      run_with (df_columns_run _ _ _ H).
      unfold column_names. rewrite existsb_eqb_assoc, A.
      now run_with (getitem_run _ _ _ _ _ H A). }
    split; [exact E|]. unfold main_content.
    now rewrite (bind_raises _ _ _ _ _ E).
  - intros A I P L.
    assert (labels_ready d) as R by (intros a E; congruence).
    pose proof (main_content_run np_log10 str_of_float thr up down st df d
                  [] [] H R P L) as Run.
    cbv zeta in Run. rewrite A in Run.
    do 3 eexists. split; [exact Run|]. cbn [heap ui].
    split; [|split; [|reflexivity]].
    + rewrite nth_error_app2; rewrite update_length; [|lia].
      replace (S (length (heap st)) - length (heap st)) with 1 by lia.
      reflexivity.
    + unfold annotated, take_rows, labelled. cbn [index].
      rewrite I. apply take_nil.
Qed.

(** The two files without rows. *)
Lemma main_content_no_rows_witness :
  main_content log10_steps (fun _ => "") 0 0.05 1 (-1)
    {| heap := [empty_gff_frame]; ui := [] |}
  = Raises ValueError {| heap := [empty_gff_frame]; ui := [] |} /\
  exists r st' out,
    main_content log10_steps (fun _ => "") 0 0.05 1 (-1)
      {| heap := [empty_frame]; ui := [] |}
    = Returns r st' /\
    nth_error (heap st') r = Some out /\
    index out = [] /\
    ui st' = [Warning attributes_warning].
Proof.
  split.
  - exact (proj2 (proj1 (main_content_no_rows log10_steps (fun _ => "")
                           0.05 1 (-1)
                           {| heap := [empty_gff_frame]; ui := [] |} 0
                           empty_gff_frame eq_refl)
                        eq_refl)).
  - exact (proj2 (main_content_no_rows log10_steps (fun _ => "")
                    0.05 1 (-1) {| heap := [empty_frame]; ui := [] |} 0
                    empty_frame eq_refl)
                 eq_refl eq_refl (conj eq_refl eq_refl)
                 (conj eq_refl eq_refl)).
Defined.

Lemma lookup_all_missing (names : list string) (d : DataFrame) :
  (exists c, In c names /\ assoc c (columns d) = None) ->
  exists k, lookup_all names d = inr k /\ In k names /\
            assoc k (columns d) = None.
Proof.
  induction names as [|c names IH]; intros (c0 & I & E).
  - destruct I.
  - simpl. destruct (assoc c (columns d)) as [xs|] eqn:C.
    + destruct I as [->|I]; [congruence|].
      destruct IH as (k & K & Ik & Ek); [now exists c0|].
      rewrite K. exists k. split; [reflexivity|]. split; [now right|exact Ek].
    + exists c. split; [reflexivity|]. split; [now left | exact C].
Qed.

(** X7. A loaded file that lacks one of the two required columns gives no
    table: the ingestion raises KeyError for a required column that is
    missing. This happens at [dropna], after the labelling step: the
    loaded frame carries the two label columns by then (and the warning
    has been shown when there is no [Attributes] column), and no other
    frame has been built. *)
Theorem main_content_missing_column :
  forall (np_log10 : float -> float) (str_of_float : float -> string)
         (thr up down : float) (st : state) (df : ref) (d : DataFrame),
    nth_error (heap st) df = Some d ->
    labels_ready d ->
    assoc "log2FoldChange" (columns d) = None \/
    assoc "padj" (columns d) = None ->
    exists k st',
      main_content np_log10 str_of_float df thr up down st
      = Raises (KeyError k) st' /\
      (k = "log2FoldChange" \/ k = "padj") /\
      assoc k (columns d) = None /\
      heap st' = update df
                   (labelled d (fst (gene_labels str_of_float d))
                               (snd (gene_labels str_of_float d)))
                   (heap st) /\
      ui st' = match assoc "Attributes" (columns d) with
               | Some _ => ui st
               | None => ui st ++ [Warning attributes_warning]
               end.
Proof.
  intros np_log10 str_of_float thr up down st df d H R Miss.
  unfold main_content.
  run_with (extract_gene_information_run str_of_float st df d H R).
  set (d1 := labelled d _ _).
  set (s1 := {| heap := update df d1 (heap st); ui := _ |}).
  assert (nth_error (heap s1) df = Some d1) as H1
    by (apply nth_error_update_eq; now apply nth_error_lt in H).
  assert (forall c, c = "log2FoldChange" \/ c = "padj" ->
                    assoc c (columns d1) = assoc c (columns d)) as Same.
  { intros c [-> | ->]; unfold d1, labelled; cbn [columns];
      now rewrite !assoc_set_ne by discriminate. }
  destruct (lookup_all_missing ["log2FoldChange"; "padj"] d1)
    as (k & K & Ik & Ek).
  { destruct Miss as [E|E]; [exists "log2FoldChange" | exists "padj"];
      (split; [simpl; tauto | rewrite Same; tauto]). }
  assert (k = "log2FoldChange" \/ k = "padj") as Ik'
    by (simpl in Ik; intuition congruence).
  exists k, s1. split.
  - apply bind_raises. unfold dropna.
    rewrite (bind_returns _ _ _ _ _ (deref_run _ _ _ H1)). now rewrite K.
  - split; [exact Ik'|]. split; [now rewrite <- Same|]. now split.
Qed.

(** A frame without a [padj] column. *)
Lemma main_content_missing_column_witness :
  exists st',
    main_content log10_steps (fun _ => "") 0 0.05 1 (-1)
      {| heap := [no_padj_frame]; ui := [] |}
    = Raises (KeyError "padj") st' /\
    ui st' = [Warning attributes_warning].
Proof.
  destruct (main_content_missing_column log10_steps (fun _ => "")
              0.05 1 (-1) {| heap := [no_padj_frame]; ui := [] |} 0
              no_padj_frame eq_refl)
    as (k & st' & Run & _ & _ & _ & U).
  - intros a E. discriminate E.
  - now right.
  - exists st'. vm_compute in Run. injection Run as <- <-.
    split; reflexivity.
Defined.

(** ** The statistics row and the box plot *)

Lemma significance_label_three (thr up down p l : float) :
  significance_label thr up down p l = "Upregulated" \/
  significance_label thr up down p l = "Not Significant" \/
  significance_label thr up down p l = "Downregulated".
Proof.
  unfold significance_label.
  destruct (_ && _); [tauto|]. destruct (_ && _); tauto.
Qed.

(** Every row has one label: the three groups of rows make up the
    table. *)
Lemma rows_labelled_partition (thr up down : float) (ps ls : list float) :
  Permutation (rows_labelled thr up down "Upregulated" ps ls ++
               rows_labelled thr up down "Not Significant" ps ls ++
               rows_labelled thr up down "Downregulated" ps ls)
              (combine ps ls).
Proof.
  unfold rows_labelled.
  induction (combine ps ls) as [|[p l] rows IH]; [constructor|].
  cbn [filter fst snd].
  destruct (significance_label_three thr up down p l) as [E|[E|E]];
    rewrite E; cbn [String.eqb Ascii.eqb Bool.eqb andb].
  - simpl. now constructor.
  - etransitivity; [apply Permutation_sym, Permutation_middle|].
    now constructor.
  - rewrite app_assoc.
    etransitivity; [apply Permutation_sym, Permutation_middle|].
    rewrite <- app_assoc. now constructor.
Qed.

Section Views.

Variable np_log10 : float -> float.
Variables (thr up down : float).
Variable d : DataFrame.
Variables (ps ls : list float).
Hypothesis padj_numeric : numeric_column d "padj" ps.
Hypothesis lfc_numeric : numeric_column d "log2FoldChange" ls.

Let a : DataFrame := annotated np_log10 thr up down d ps ls.

Let sig : list value :=
  map (fun pl : float * float =>
         VStr (significance_label thr up down (fst pl) (snd pl)))
      (combine ps ls).

Lemma annotated_significance : assoc "Significance" (columns a) = Some sig.
Proof.
  unfold a, annotated. cbn [columns].
  rewrite assoc_set_ne by discriminate. now rewrite assoc_set_eq.
Qed.

Lemma series_eq_str_significance (lbl : string) :
  series_eq_str sig lbl =
    map (fun pl : float * float =>
           String.eqb (significance_label thr up down (fst pl) (snd pl)) lbl)
        (combine ps ls).
Proof. unfold series_eq_str, sig. now rewrite map_map. Qed.

Lemma combine_rows_length : length (combine ps ls) = length (index d).
Proof.
  destruct padj_numeric as [_ LP], lfc_numeric as [_ LL].
  rewrite length_combine. lia.
Qed.

(** The rows of the annotated table that carry one label. *)
Lemma labelled_rows_length (lbl : string) :
  length (index (take_rows (nonzero (series_eq_str sig lbl)) a)) =
    length (rows_labelled thr up down lbl ps ls).
Proof.
  unfold take_rows. cbn [index]. rewrite series_eq_str_significance.
  apply take_nonzero_length. unfold a, annotated. cbn [index].
  now rewrite combine_rows_length.
Qed.

Lemma labelled_rows_fold_changes (lbl : string) :
  assoc "log2FoldChange"
        (columns (take_rows (nonzero (series_eq_str sig lbl)) a)) =
    Some (map (fun pl : float * float => VFloat (snd pl))
              (rows_labelled thr up down lbl ps ls)).
Proof.
  destruct padj_numeric as [_ LP], lfc_numeric as [L LL].
  rewrite assoc_take_rows. unfold a.
  rewrite assoc_annotated_other by discriminate. rewrite L. cbn [option_map].
  rewrite series_eq_str_significance.
  replace (map VFloat ls)
    with (map (fun pl : float * float => VFloat (snd pl)) (combine ps ls))
    by (rewrite <- (map_map snd VFloat), map_snd_combine; congruence).
  unfold rows_labelled. now rewrite take_nonzero_map.
Qed.

(** One number of the statistics row. *)
Lemma count_rows_run {B : Type} (r : ref) (lbl : string) (k : nat -> M B)
  (s : state) :
  nth_error (heap s) r = Some a ->
  (sig <- getitem r "Significance" ;;
   rows <- getitem_mask r (series_eq_str sig lbl) ;;
   n <- df_len rows ;; k n) s =
  k (length (rows_labelled thr up down lbl ps ls))
    {| heap := heap s ++ [take_rows (nonzero (series_eq_str sig lbl)) a];
       ui := ui s |}.
Proof.
  intros H.
  run_with (getitem_run _ _ _ _ _ H annotated_significance).
  run_with (getitem_mask_run _ (series_eq_str sig lbl) _ _ H).
  erewrite bind_returns; [|apply df_len_run; apply nth_error_snoc].
  now rewrite labelled_rows_length.
Qed.

(** One trace of the box plot. *)
Lemma box_trace_run {B : Type} (r : ref) (lbl : string)
  (trace : list value -> B) (s : state) :
  nth_error (heap s) r = Some a ->
  (sig <- getitem r "Significance" ;;
   rows <- getitem_mask r (series_eq_str sig lbl) ;;
   data <- getitem rows "log2FoldChange" ;; ret (trace data)) s =
  Returns
    (trace (map (fun pl : float * float => VFloat (snd pl))
                (rows_labelled thr up down lbl ps ls)))
    {| heap := heap s ++ [take_rows (nonzero (series_eq_str sig lbl)) a];
       ui := ui s |}.
Proof.
  intros H.
  run_with (getitem_run _ _ _ _ _ H annotated_significance).
  run_with (getitem_mask_run _ (series_eq_str sig lbl) _ _ H).
  erewrite bind_returns;
    [|eapply getitem_run;
      [apply nth_error_snoc | apply labelled_rows_fold_changes]].
  reflexivity.
Qed.

End Views.

(** X8. The statistics row, computed on the table that the classifier has
    built: the total is the number of rows of the frame, each of the three
    other numbers is the number of rows to which the classifier gives that
    label, and the three add up to the total. *)
Theorem metrics_add_up :
  forall (np_log10 : float -> float) (thr up down : float) (st : state)
         (df : ref) (d : DataFrame) (ps ls : list float),
    nth_error (heap st) df = Some d ->
    numeric_column d "padj" ps ->
    numeric_column d "log2FoldChange" ls ->
    exists total upregulated downregulated not_significant st',
      (df_filtered <- filter_deseq_data np_log10 df thr up down ;;
       metrics df_filtered) st
      = Returns (total, upregulated, downregulated, not_significant) st' /\
      total = length (index d) /\
      upregulated
      = length (rows_labelled thr up down "Upregulated" ps ls) /\
      downregulated
      = length (rows_labelled thr up down "Downregulated" ps ls) /\
      not_significant
      = length (rows_labelled thr up down "Not Significant" ps ls) /\
      total = upregulated + downregulated + not_significant.
Proof.
  intros np_log10 thr up down st df d ps ls H P L.
  run_with (filter_deseq_data_run np_log10 thr up down st df d ps ls H P L).
  set (a := annotated np_log10 thr up down d ps ls).
  set (s1 := {| heap := heap st ++ [a]; ui := ui st |}).
  set (r := length (heap st)).
  assert (nth_error (heap s1) r = Some a) as H1 by apply nth_error_snoc.
  unfold metrics.
  run_with (df_len_run _ _ _ H1).
  rewrite (count_rows_run np_log10 thr up down d ps ls P L r "Upregulated"
             _ s1 H1).
  match goal with |- context [?k _ ?s = _] =>
    match s with {| heap := heap s1 ++ [?f]; ui := _ |} =>
      set (s2 := s) end end.
  assert (nth_error (heap s2) r = Some a) as H2
    by (apply nth_error_snoc_old; exact H1).
  rewrite (count_rows_run np_log10 thr up down d ps ls P L r "Downregulated"
             _ s2 H2).
  match goal with |- context [?k _ ?s = _] =>
    match s with {| heap := heap s2 ++ [?f]; ui := _ |} =>
      set (s3 := s) end end.
  assert (nth_error (heap s3) r = Some a) as H3
    by (apply nth_error_snoc_old; exact H2).
  rewrite (count_rows_run np_log10 thr up down d ps ls P L r
             "Not Significant" _ s3 H3).
  do 5 eexists. split; [reflexivity|].
  split; [reflexivity|]. do 3 (split; [reflexivity|]).
  pose proof (Permutation_length
                (rows_labelled_partition thr up down ps ls)) as Len.
  rewrite !length_app in Len.
  rewrite (combine_rows_length d ps ls P L) in Len.
  change (length (index a)) with (length (index d)). lia.
Qed.

(** [example_frame] under the default thresholds: six rows, of which two
    are up, one is down and three are not significant. *)
Lemma metrics_add_up_witness :
  exists st',
    (df_filtered <- filter_deseq_data log10_steps 0 0.05 1 (-1) ;;
     metrics df_filtered) example_state
    = Returns (6, 2, 1, 3) st'.
Proof.
  destruct (metrics_add_up log10_steps 0.05 1 (-1)
              example_state 0 example_frame
              [0.001; 0.0001; 0.2; 0.05; 0.01; 0]%float
              [2.5; -3; 0.2; 1; 1; 0]%float
              eq_refl (conj eq_refl eq_refl) (conj eq_refl eq_refl))
    as (t & u & dn & n & st' & Run & -> & -> & -> & -> & _).
  exists st'. exact Run.
Defined.

(** X9. The box plot, computed on the table that the classifier has
    built, has three traces, named [Upregulated], [Not Significant] and
    [Downregulated] in this order and coloured with the colour chosen for
    that label. The values of a trace are the fold changes of the rows
    that carry its label, in the order of the table; every row of the
    table is in exactly one trace. *)
Theorem box_plot_data_traces :
  forall (np_log10 : float -> float) (thr up down : float) (st : state)
         (df : ref) (d : DataFrame) (ps ls : list float)
         (color_up color_down color_ns : string),
    nth_error (heap st) df = Some d ->
    numeric_column d "padj" ps ->
    numeric_column d "log2FoldChange" ls ->
    let fold_changes lbl :=
      map (fun pl : float * float => VFloat (snd pl))
          (rows_labelled thr up down lbl ps ls) in
    exists st',
      (df_filtered <- filter_deseq_data np_log10 df thr up down ;;
       box_plot_data df_filtered color_up color_down color_ns) st
      = Returns
          [{| trace_y := fold_changes "Upregulated";
              trace_name := "Upregulated";
              trace_marker_color := color_up |};
           {| trace_y := fold_changes "Not Significant";
              trace_name := "Not Significant";
              trace_marker_color := color_ns |};
           {| trace_y := fold_changes "Downregulated";
              trace_name := "Downregulated";
              trace_marker_color := color_down |}] st' /\
      Permutation (fold_changes "Upregulated" ++
                   fold_changes "Not Significant" ++
                   fold_changes "Downregulated")
                  (map VFloat ls).
Proof.
  intros np_log10 thr up down st df d ps ls color_up color_down color_ns
    H P L fold_changes.
  run_with (filter_deseq_data_run np_log10 thr up down st df d ps ls H P L).
  set (a := annotated np_log10 thr up down d ps ls).
  set (s1 := {| heap := heap st ++ [a]; ui := ui st |}).
  set (r := length (heap st)).
  assert (nth_error (heap s1) r = Some a) as H1 by apply nth_error_snoc.
  unfold box_plot_data. cbn [for_each].
  run_with (box_trace_run np_log10 thr up down d ps ls P L r "Upregulated"
              (fun data =>
                 {| trace_y := data;
                    trace_name := "Upregulated";
                    trace_marker_color :=
                      if String.eqb "Upregulated" "Upregulated"
                      then color_up
                      else if String.eqb "Upregulated" "Downregulated"
                           then color_down else color_ns |}) s1 H1).
  match goal with |- context [{| heap := heap s1 ++ [?f]; ui := ?u |}] =>
    set (s2 := {| heap := heap s1 ++ [f]; ui := u |}) end.
  assert (nth_error (heap s2) r = Some a) as H2
    by (apply nth_error_snoc_old; exact H1).
  cbv beta. rewrite bind_assoc.
  run_with (box_trace_run np_log10 thr up down d ps ls P L r
              "Not Significant"
              (fun data =>
                 {| trace_y := data;
                    trace_name := "Not Significant";
                    trace_marker_color :=
                      if String.eqb "Not Significant" "Upregulated"
                      then color_up
                      else if String.eqb "Not Significant" "Downregulated"
                           then color_down else color_ns |}) s2 H2).
  match goal with |- context [{| heap := heap s2 ++ [?f]; ui := ?u |}] =>
    set (s3 := {| heap := heap s2 ++ [f]; ui := u |}) end.
  assert (nth_error (heap s3) r = Some a) as H3
    by (apply nth_error_snoc_old; exact H2).
  cbv beta. do 2 rewrite bind_assoc.
  run_with (box_trace_run np_log10 thr up down d ps ls P L r
              "Downregulated"
              (fun data =>
                 {| trace_y := data;
                    trace_name := "Downregulated";
                    trace_marker_color :=
                      if String.eqb "Downregulated" "Upregulated"
                      then color_up
                      else if String.eqb "Downregulated" "Downregulated"
                           then color_down else color_ns |}) s3 H3).
  eexists. split; [reflexivity|].
  destruct P as [_ LP], L as [_ LL].
  replace (map VFloat ls) with (map VFloat (map snd (combine ps ls)))
    by (rewrite map_snd_combine; congruence).
  unfold fold_changes.
  rewrite <- !(map_map snd VFloat), <- !map_app.
  do 2 apply Permutation_map. apply rows_labelled_partition.
Qed.

(** The traces of [example_frame] under the default thresholds. *)
Lemma box_plot_data_traces_witness :
  exists st',
    (df_filtered <- filter_deseq_data log10_steps 0 0.05 1 (-1) ;;
     box_plot_data df_filtered "#FF0000" "#0000FF" "#808080") example_state
    = Returns
        [{| trace_y := [VFloat 2.5; VFloat 1];
            trace_name := "Upregulated";
            trace_marker_color := "#FF0000" |};
         {| trace_y := [VFloat 0.2; VFloat 1; VFloat 0];
            trace_name := "Not Significant";
            trace_marker_color := "#808080" |};
         {| trace_y := [VFloat (-3)];
            trace_name := "Downregulated";
            trace_marker_color := "#0000FF" |}] st'.
Proof.
  destruct (box_plot_data_traces log10_steps 0.05 1 (-1)
              example_state 0 example_frame
              [0.001; 0.0001; 0.2; 0.05; 0.01; 0]%float
              [2.5; -3; 0.2; 1; 1; 0]%float
              "#FF0000" "#0000FF" "#808080"
              eq_refl (conj eq_refl eq_refl) (conj eq_refl eq_refl))
    as (st' & Run & _).
  exists st'. exact Run.
Defined.

(** ** The p-value tab *)

Lemma series_dropna_floats (xs : list float) :
  Forall (fun x => is_nan x = false) xs ->
  series_dropna (map VFloat xs) = map VFloat xs.
Proof.
  unfold series_dropna.
  induction 1 as [|x xs N _ IH]; simpl; [reflexivity|].
  rewrite N. simpl. now rewrite IH.
Qed.

Lemma take_In {A : Type} (idx : list nat) (xs : list A) (x : A) :
  In x (take idx xs) -> exists i, In i idx /\ nth_error xs i = Some x.
Proof.
  induction idx as [|i idx IH]; simpl; [intros []|].
  destruct (nth_error xs i) as [y|] eqn:E.
  - intros [->|I].
    + exists i. split; [now left | exact E].
    + destruct (IH I) as (j & Ij & Ej). exists j. split; [now right|exact Ej].
  - intros I. destruct (IH I) as (j & Ij & Ej).
    exists j. split; [now right|exact Ej].
Qed.

(** The rows that the ingestion keeps have an adjusted p-value. *)
Lemma complete_rows_padj (d : DataFrame) (ps ls : list float) :
  numeric_column d "padj" ps ->
  numeric_column d "log2FoldChange" ls ->
  Forall (fun p => is_nan p = false) (take (complete_rows d) ps).
Proof.
  intros P L. apply Forall_forall. intros p I.
  apply take_In in I as (i & Ii & Ei).
  apply (complete_rows_In d ps ls i P L) in Ii
    as (l' & p' & _ & Cp & _ & Np).
  destruct P as [P _]. unfold cell in Cp. rewrite P, nth_error_map, Ei in Cp.
  injection Cp as <-. exact Np.
Qed.

(** X10. On the table that the ingestion has built, the [dropna] of the
    p-value tab removes nothing: the sample of the Q-Q plot is the whole
    [padj] column, the same values as the histogram's, one for each row of
    the table, and none of them is missing. *)
Theorem pvalue_data_drops_nothing :
  forall (np_log10 : float -> float) (str_of_float : float -> string)
         (thr up down : float) (st : state) (df : ref) (d : DataFrame)
         (ps ls : list float),
    nth_error (heap st) df = Some d ->
    labels_ready d ->
    numeric_column d "padj" ps ->
    numeric_column d "log2FoldChange" ls ->
    exists st' pvalues,
      (df_filtered <- main_content np_log10 str_of_float df thr up down ;;
       pvalue_data df_filtered) st
      = Returns (map VFloat pvalues, map VFloat pvalues) st' /\
      pvalues = take (complete_rows d) ps /\
      length pvalues = length (complete_rows d) /\
      Forall (fun p => is_nan p = false) pvalues.
Proof.
  intros np_log10 str_of_float thr up down st df d ps ls H R P L.
  pose proof (main_content_run np_log10 str_of_float thr up down st df d
                ps ls H R P L) as Run.
  cbv zeta in Run. run_with Run.
  set (d1 := labelled d _ _) in *.
  set (d2 := take_rows (complete_rows d) d1) in *.
  set (out := annotated _ _ _ _ d2 _ _) in *.
  match goal with |- context [pvalue_data _ ?s] => set (s1 := s) end.
  assert (nth_error (heap s1) (S (length (heap st))) = Some out) as H1.
  { unfold s1. cbn [heap].
    rewrite nth_error_app2; rewrite update_length; [|lia].
    replace (S (length (heap st)) - length (heap st)) with 1 by lia.
    reflexivity. }
  assert (assoc "padj" (columns out)
          = Some (map VFloat (take (complete_rows d) ps))) as C.
  { unfold out. rewrite assoc_annotated_other by discriminate.
    unfold d2. rewrite assoc_take_rows. unfold d1, labelled. cbn [columns].
    rewrite !assoc_set_ne by discriminate.
    destruct P as [P _]. rewrite P. cbn [option_map]. now rewrite take_map. }
  pose proof (complete_rows_padj d ps ls P L) as N.
  unfold pvalue_data.
  run_with (getitem_run _ _ _ _ _ H1 C).
  run_with (getitem_run _ _ _ _ _ H1 C).
  rewrite (series_dropna_floats _ N).
  exists s1, (take (complete_rows d) ps).
  split; [reflexivity|]. split; [reflexivity|]. split; [|exact N].
  apply take_length. destruct P as [_ LP]. rewrite LP.
  apply complete_rows_bound.
Qed.

(** [unlabelled_frame]: the two rows with both values. *)
Lemma pvalue_data_drops_nothing_witness :
  exists st',
    (df_filtered <- main_content log10_steps (fun _ => "") 0 0.05 1 (-1) ;;
     pvalue_data df_filtered) {| heap := [unlabelled_frame]; ui := [] |}
    = Returns ([VFloat 0.001; VFloat 0.0001], [VFloat 0.001; VFloat 0.0001])
              st'.
Proof.
  destruct (pvalue_data_drops_nothing log10_steps (fun _ => "")
              0.05 1 (-1) {| heap := [unlabelled_frame]; ui := [] |} 0
              unlabelled_frame
              [0.001; 0.5; 0.0001; nan]%float [2.5; nan; -3; 0.2]%float
              eq_refl)
    as (st' & pvalues & Run & -> & _).
  - intros a E. discriminate E.
  - split; reflexivity.
  - split; reflexivity.
  - exists st'. exact Run.
Defined.

(** ** The rows of the table view *)

(** X11. The table view of a frame in which every column has a cell for
    each row and [gene_name] holds text, as it does in every table that
    the ingestion builds. When the search text is empty or compiles, the
    view is a new table with the columns of the frame and exactly the rows
    that are shown, in their order and under their labels: the rows whose
    [Significance] is the chosen category (every row for ["All"]) and in
    whose [gene_name] the search text is found (every row for an empty
    text); with ["All"] and an empty text it is a copy of the frame. Row
    by row: the view has as many rows as are shown, and its [k]-th row has
    the label and the cells of the [k]-th row shown. When the search text
    is not empty and does not compile, the view raises and nothing is
    shown. *)
Theorem display_table_shown_rows :
  forall (re_compiles : string -> bool)
         (re_found_nocase : string -> string -> bool) (st : state)
         (df : ref) (d : DataFrame) (show_sig search_term : string),
    nth_error (heap st) df = Some d ->
    well_formed d ->
    In "Significance" (column_names d) ->
    (exists names, assoc "gene_name" (columns d) = Some (map VStr names)) ->
    let o := display_table re_compiles re_found_nocase df show_sig
                           search_term st in
    let rows := shown_rows re_found_nocase show_sig search_term d in
    (search_term = "" \/ re_compiles search_term = true ->
     exists r st',
       o = Returns r st' /\
       nth_error (heap st') r = Some (take_rows rows d) /\
       length (heap st) <= r /\
       (show_sig = "All" -> search_term = "" -> take_rows rows d = d) /\
       column_names (take_rows rows d) = column_names d /\
       length (index (take_rows rows d)) = length rows /\
       (forall k, nth_error (index (take_rows rows d)) k =
                  match nth_error rows k with
                  | Some i => nth_error (index d) i
                  | None => None
                  end) /\
       (forall c k, cell (take_rows rows d) c k =
                    match nth_error rows k with
                    | Some i => cell d c i
                    | None => None
                    end)) /\
    (search_term <> "" -> re_compiles search_term = false ->
     exists st', o = Raises ReError st').
Proof.
  intros re_compiles re_found_nocase st df d show_sig search_term H W S
    [names G] o rows.
  destruct (display_table_run re_compiles re_found_nocase st df d show_sig
              search_term names H W S G) as [Shown Refused].
  split; [|exact Refused].
  intros C. destruct (Shown C) as (r & st' & Run & View & New & Copy).
  exists r, st'. split; [exact Run|]. split; [exact View|].
  split; [exact New|]. split; [exact Copy|].
  exact (take_rows_cells rows d W
           (shown_rows_bound re_found_nocase show_sig search_term d)).
Qed.

(** The upregulated genes of [table_example] whose name holds [thr]. *)
Lemma display_table_shown_rows_witness :
  exists r st',
    display_table (fun _ => true) found_nocase 0 "Upregulated" "THR"
                  {| heap := [table_example]; ui := [] |}
    = Returns r st' /\
    nth_error (heap st') r = Some (take_rows [0; 2] table_example).
Proof.
  destruct (display_table_shown_rows (fun _ => true) found_nocase
              {| heap := [table_example]; ui := [] |} 0 table_example
              "Upregulated" "THR" eq_refl)
    as [Shown _].
  - repeat constructor.
  - simpl. tauto.
  - now exists ["thrL"; "dnaA"; "thrA"; "talB"].
  - destruct Shown as (r & st' & Run & View & _); [now right|].
    exists r, st'. split; [exact Run | exact View].
Defined.

(** ** The views that only read *)

Lemma allocates_only_df_len (r : ref) : allocates_only (df_len r).
Proof.
  apply allocates_only_bind; [apply allocates_only_deref|].
  intros d. apply allocates_only_ret.
Qed.

Lemma allocates_only_df_columns (r : ref) : allocates_only (df_columns r).
Proof.
  apply allocates_only_bind; [apply allocates_only_deref|].
  intros d. apply allocates_only_ret.
Qed.

Lemma allocates_only_for_each {A B : Type} (body : A -> M B) (l : list A) :
  (forall a, allocates_only (body a)) -> allocates_only (for_each body l).
Proof.
  intros Hb. induction l as [|a l IH]; simpl; [apply allocates_only_ret|].
  apply allocates_only_bind; [apply Hb|]. intros b.
  apply allocates_only_bind; [exact IH|]. intros bs.
  apply allocates_only_ret.
Qed.

Lemma allocates_only_nsmallest (r : ref) (n : nat) (name : string) :
  allocates_only (nsmallest r n name).
Proof.
  apply allocates_only_bind; [apply allocates_only_deref|]. intros d.
  destruct (assoc name (columns d)) as [xs|]; [|apply allocates_only_raise].
  destruct (floats_of xs);
    [apply allocates_only_new_frame | apply allocates_only_raise].
Qed.

Lemma allocates_only_getitem_list (r : ref) (names : list string) :
  allocates_only (getitem_list r names).
Proof.
  apply allocates_only_bind; [apply allocates_only_deref|]. intros d.
  destruct (lookup_all names d);
    [apply allocates_only_new_frame | apply allocates_only_raise].
Qed.

Lemma allocates_only_set_index (r : ref) (name : string) :
  allocates_only (set_index r name).
Proof.
  apply allocates_only_bind; [apply allocates_only_deref|]. intros d.
  destruct (assoc name (columns d));
    [apply allocates_only_new_frame | apply allocates_only_raise].
Qed.

Lemma allocates_only_metrics (df : ref) : allocates_only (metrics df).
Proof.
  unfold metrics.
  repeat first
    [ apply allocates_only_ret
    | apply allocates_only_df_len
    | apply allocates_only_getitem
    | apply allocates_only_getitem_mask
    | apply allocates_only_bind; [|intros ?] ].
Qed.

Lemma allocates_only_box_plot_data (df : ref)
  (color_up color_down color_ns : string) :
  allocates_only (box_plot_data df color_up color_down color_ns).
Proof.
  unfold box_plot_data. apply allocates_only_for_each. intros sig_type.
  repeat first
    [ apply allocates_only_ret
    | apply allocates_only_getitem
    | apply allocates_only_getitem_mask
    | apply allocates_only_bind; [|intros ?] ].
Qed.

Lemma allocates_only_pvalue_data (df : ref) :
  allocates_only (pvalue_data df).
Proof.
  unfold pvalue_data.
  repeat first
    [ apply allocates_only_ret
    | apply allocates_only_getitem
    | apply allocates_only_bind; [|intros ?] ].
Qed.

(** X12. The statistics row, the box plot, the p-value tab and the
    heatmap only read the annotated table. Whatever the state and whether
    they return or raise, every frame that existed is as it was and every
    new frame stands after them; the first three tell the user interface
    nothing, and the heatmap tells it at most the warning that there are
    no count columns. *)
Theorem views_read_only :
  forall (df : ref) (n : nat) (color_up color_down color_ns : string),
    allocates_only (metrics df) /\
    allocates_only (box_plot_data df color_up color_down color_ns) /\
    allocates_only (pvalue_data df) /\
    forall s,
      let s' := final_state (heatmap_data df n s) in
      (exists extra, heap s' = heap s ++ extra) /\
      (ui s' = ui s \/ ui s' = ui s ++ [Warning no_count_columns_warning]).
Proof.
  intros df n color_up color_down color_ns.
  split; [apply allocates_only_metrics|].
  split; [apply allocates_only_box_plot_data|].
  split; [apply allocates_only_pvalue_data|].
  intros s. cbv zeta. unfold heatmap_data.
  match goal with |- context [bind (df_columns df) ?f] => set (k := f) end.
  unfold bind.
  pose proof (allocates_only_df_columns df s) as C.
  destruct (df_columns df s) as [cols s1|e s1]; cbn [final_state] in *.
  2: { destruct C as [C U]. split; [exact C | now left]. }
  unfold k. destruct (0 <? length (count_cols cols))%nat.
  - assert (allocates_only
              (top_genes <- nsmallest df n "padj" ;;
               selected <- getitem_list top_genes
                                        (count_cols cols ++ ["gene_name"]) ;;
               count_data <- set_index selected "gene_name" ;;
               ret (Some count_data))) as A.
    { repeat first
        [ apply allocates_only_ret
        | apply allocates_only_nsmallest
        | apply allocates_only_getitem_list
        | apply allocates_only_set_index
        | apply allocates_only_bind; [|intros ?] ]. }
    destruct (heap_extends_trans _ _ _ C (A s1)) as [E U].
    split; [exact E | now left].
  - destruct C as [C U]. cbn. split; [exact C|]. right. now rewrite U.
Qed.

(** ** The hover text of the volcano plot *)

Section VolcanoPlot.

Variable np_log10 : float -> float.
Variable str_of_float : float -> string.
Variable np_round : nat -> float -> float.
Variable format_2e : float -> string.
Variable Figure : Type.
Variable volcano_figure :
  DataFrame -> string -> string -> string -> float -> string ->
  float -> float -> nat -> nat -> exn + Figure.

Lemma series_add_text {A : Type} (f g : A -> string) (rows : list A)
  (s : state) :
  series_add (map (fun r => VStr (f r)) rows) (map (fun r => VStr (g r)) rows)
             s
  = Returns (map (fun r => VStr (f r +++ g r)) rows) s.
Proof.
  induction rows as [|r rows IH]; [reflexivity|].
  cbn [map series_add isna orb py_add].
  rewrite (bind_returns _ _ _ _ _ (eq_refl : ret _ s = Returns _ s)).
  now rewrite (bind_returns _ _ _ _ _ IH).
Qed.

Lemma str_radd_text {A : Type} (t : string) (f : A -> string)
  (rows : list A) (s : state) :
  str_radd t (map (fun r => VStr (f r)) rows) s
  = Returns (map (fun r => VStr (t +++ f r)) rows) s.
Proof.
  unfold str_radd. rewrite map_map.
  apply (series_add_text (fun _ => t) f).
Qed.

Lemma str_add_text {A : Type} (f : A -> string) (t : string)
  (rows : list A) (s : state) :
  str_add (map (fun r => VStr (f r)) rows) t s
  = Returns (map (fun r => VStr (f r +++ t)) rows) s.
Proof.
  unfold str_add. rewrite map_map.
  apply (series_add_text f (fun _ => t)).
Qed.

(** Text with cells that may be missing: a missing cell stays missing
    whatever is added to it. *)
Lemma series_add_missing {A : Type} (m : A -> bool) (f g : A -> string)
  (rows : list A) (s : state) :
  series_add (map (fun r => if m r then VFloat nan else VStr (f r)) rows)
             (map (fun r => VStr (g r)) rows) s
  = Returns (map (fun r => if m r then VFloat nan else VStr (f r +++ g r))
                 rows) s.
Proof.
  induction rows as [|r rows IH]; [reflexivity|].
  cbn [map series_add].
  rewrite (bind_returns _ _ s s (if m r then VFloat nan
                                 else VStr (f r +++ g r)))
    by (destruct (m r); reflexivity).
  now rewrite (bind_returns _ _ _ _ _ IH).
Qed.

Lemma str_add_missing {A : Type} (m : A -> bool) (f : A -> string)
  (t : string) (rows : list A) (s : state) :
  str_add (map (fun r => if m r then VFloat nan else VStr (f r)) rows) t s
  = Returns (map (fun r => if m r then VFloat nan else VStr (f r +++ t))
                 rows) s.
Proof.
  unfold str_add. rewrite map_map.
  apply (series_add_missing m f (fun _ => t)).
Qed.

(** The rounded fold changes as text: where the rounded number is not a
    number the cell stays missing, and so does the sum. *)
Lemma series_add_rounded {A : Type} (f : A -> string) (g : A -> float)
  (rows : list A) (s : state) :
  series_add (map (fun r => VStr (f r)) rows)
             (astype_str str_of_float
                (series_round np_round 3 (map (fun r => VFloat (g r)) rows)))
             s
  = Returns (map (fun r => if is_nan (np_round 3 (g r)) then VFloat nan
                           else VStr (f r +++ str_of_float (np_round 3 (g r))))
                 rows) s.
Proof.
  induction rows as [|r rows IH]; [reflexivity|].
  unfold astype_str, series_round in *. cbn [map series_add].
  change (isna (VStr (f r))) with false. cbn [orb].
  rewrite (bind_returns _ _ s s
             (if is_nan (np_round 3 (g r)) then VFloat nan
              else VStr (f r +++ str_of_float (np_round 3 (g r)))))
    by (unfold isna; destruct (is_nan (np_round 3 (g r))) eqn:N;
        cbv iota; rewrite ?N; reflexivity).
  now rewrite (bind_returns _ _ _ _ _ IH).
Qed.

Lemma apply_format_2e_floats {A : Type} (f : A -> float) (rows : list A)
  (s : state) :
  apply_format_2e format_2e (map (fun r => VFloat (f r)) rows) s
  = Returns (map (fun r => VStr (format_2e (f r))) rows) s.
Proof.
  induction rows as [|r rows IH]; [reflexivity|].
  cbn [map apply_format_2e]. now rewrite (bind_returns _ _ _ _ _ IH).
Qed.

(** The volcano plot on a table whose five columns list [rows]: the
    hover text is assigned in place, and then the figure is built from
    the frame as it is then. *)
Lemma create_volcano_plot_run (st : state) (df : ref) (d : DataFrame)
  (rows : list volcano_row) (color_up color_down color_ns : string)
  (thr up down : float) (width height : nat) :
  nth_error (heap st) df = Some d ->
  volcano_rows d rows ->
  let d' := with_hover_text str_of_float np_round format_2e d rows in
  let st' := {| heap := update df d' (heap st); ui := ui st |} in
  create_volcano_plot np_log10 str_of_float np_round format_2e Figure
    volcano_figure df color_up color_down color_ns thr up down width height
    st
  = match volcano_figure d' color_up color_down color_ns
            (- np_log10 thr) ("padj = " +++ str_of_float thr)
            up down width height with
    | inr fig => Returns fig st'
    | inl e => Raises e st'
    end.
Proof.
  intros H (Len & G & T & L & P & S) d' st'. unfold create_volcano_plot.
  run_with (getitem_run _ _ _ _ _ H G).
  erewrite bind_returns; [|apply str_radd_text].
  do 2 (erewrite bind_returns; [|apply str_add_text]).
  run_with (getitem_run _ _ _ _ _ H T).
  erewrite bind_returns; [|apply series_add_text].
  do 2 (erewrite bind_returns; [|apply str_add_text]).
  run_with (getitem_run _ _ _ _ _ H L).
  cbv zeta.
  erewrite bind_returns; [|apply series_add_rounded].
  do 2 (erewrite bind_returns; [|apply str_add_missing]).
  run_with (getitem_run _ _ _ _ _ H P).
  erewrite bind_returns; [|apply apply_format_2e_floats].
  erewrite bind_returns; [|apply series_add_missing].
  do 2 (erewrite bind_returns; [|apply str_add_missing]).
  run_with (getitem_run _ _ _ _ _ H S).
  erewrite bind_returns; [|apply series_add_missing].
  erewrite bind_returns;
    [|apply (setitem_run _ _ _ _ _ H); now rewrite length_map].
  erewrite bind_returns;
    [|apply deref_run; cbn [heap]; apply nth_error_update_eq;
      now apply nth_error_lt in H].
  assert (forall r,
             (((((((((((((("<b>" +++ row_gene_name r) +++ "</b><br>")
                         +++ "Locus: ") +++ row_locus_tag r) +++ "<br>")
                      +++ "log2FC: ")
                     +++ str_of_float (np_round 3 (row_log2fc r)))
                    +++ "<br>") +++ "padj: ")
                  +++ format_2e (row_padj r)) +++ "<br>")
                +++ "Significance: ") +++ row_significance r))
             = hover_text_of str_of_float np_round format_2e r) as Hover.
  { intros r. unfold hover_text_of. now rewrite !append_assoc. }
  rewrite (map_ext _ (hover_text_cell str_of_float np_round format_2e))
    by (intros r; unfold hover_text_cell; now rewrite Hover).
  unfold st', d', with_hover_text.
  now destruct (volcano_figure _ _ _ _ _ _ _ _ _ _).
Qed.

End VolcanoPlot.

Lemma volcano_rows_table_example :
  volcano_rows table_example table_example_rows.
Proof. repeat split. Qed.

(** X13. The volcano plot writes on the table it is given. On a table
    whose five columns list [rows] the call sets, in place, the column
    [hover_text]: the cell of a row is the markup of its gene name, locus
    tag, fold change rounded to three decimals, adjusted p-value in
    scientific format and label; where the rounded fold change is not a
    number, as it is for a missing fold change, the cell is missing
    instead. This is done before the figure is built,
    from the frame as it is then: whether plotly returns the figure or
    raises, the table carries the new column, its rows and its other
    columns are as they were, no other frame is touched and the user
    interface is told nothing. *)
Theorem create_volcano_plot_hover_text :
  forall (np_log10 : float -> float) (str_of_float : float -> string)
         (np_round : nat -> float -> float) (format_2e : float -> string)
         (Figure : Type)
         (volcano_figure :
            DataFrame -> string -> string -> string -> float -> string ->
            float -> float -> nat -> nat -> exn + Figure)
         (st : state) (df : ref) (d : DataFrame) (rows : list volcano_row)
         (color_up color_down color_ns : string) (thr up down : float)
         (width height : nat),
    nth_error (heap st) df = Some d ->
    volcano_rows d rows ->
    let d' := with_hover_text str_of_float np_round format_2e d rows in
    let built :=
      volcano_figure d' color_up color_down color_ns (- np_log10 thr)%float
                     ("padj = " +++ str_of_float thr) up down width height in
    let o :=
      create_volcano_plot np_log10 str_of_float np_round format_2e Figure
        volcano_figure df color_up color_down color_ns thr up down
        width height st in
    heap (final_state o) = update df d' (heap st) /\
    ui (final_state o) = ui st /\
    nth_error (heap (final_state o)) df = Some d' /\
    (forall r, r <> df ->
               nth_error (heap (final_state o)) r = nth_error (heap st) r) /\
    index d' = index d /\
    (forall c, c <> "hover_text" ->
               assoc c (columns d') = assoc c (columns d)) /\
    (forall i r,
        nth_error rows i = Some r ->
        (is_nan (np_round 3 (row_log2fc r)) = false ->
         cell d' "hover_text" i
         = Some (VStr (hover_text_of str_of_float np_round format_2e r))) /\
        (is_nan (np_round 3 (row_log2fc r)) = true ->
         cell d' "hover_text" i = Some (VFloat nan))) /\
    (forall fig, built = inr fig -> o = Returns fig (final_state o)) /\
    (forall e, built = inl e -> o = Raises e (final_state o)).
Proof.
  intros np_log10 str_of_float np_round format_2e Figure volcano_figure
    st df d rows color_up color_down color_ns thr up down width height
    H R d' built o.
  pose proof (create_volcano_plot_run np_log10 str_of_float np_round
                format_2e Figure volcano_figure st df d rows
                color_up color_down color_ns thr up down width height H R)
    as Run.
  cbv zeta in Run. fold d' in Run. fold built in Run. fold o in Run.
  assert (final_state o = {| heap := update df d' (heap st); ui := ui st |})
    as F by (rewrite Run; now destruct built).
  rewrite F. cbn [heap ui].
  split; [reflexivity|]. split; [reflexivity|].
  split; [apply nth_error_update_eq; now apply nth_error_lt in H|].
  split; [intros r N; now apply nth_error_update_ne|].
  split; [reflexivity|].
  split.
  { intros c N. unfold d', with_hover_text. cbn [columns].
    now rewrite assoc_set_ne. }
  split.
  { intros i r E. unfold cell, d', with_hover_text. cbn [columns].
    rewrite assoc_set_eq, nth_error_map, E. unfold hover_text_cell.
    cbn [option_map]. split; intros ->; reflexivity. }
  split; [intros fig E | intros e E]; rewrite Run, E; reflexivity.
Qed.

(** The hover text of the first row of [table_example]. *)
Lemma create_volcano_plot_hover_text_witness :
  let o :=
    create_volcano_plot log10_steps (fun _ => "2.5") (fun _ x => x)
      (fun _ => "1.00e-03") DataFrame
      (fun d _ _ _ _ _ _ _ _ _ => inr d) 0
      "#FF0000" "#0000FF" "#808080" 0.05 1 (-1) 1200 700
      {| heap := [table_example]; ui := [] |} in
  exists d',
    nth_error (heap (final_state o)) 0 = Some d' /\
    o = Returns d' (final_state o) /\
    cell d' "hover_text" 0
    = Some (VStr ("<b>thrL</b><br>Locus: b0001<br>log2FC: 2.5<br>" +++
                  "padj: 1.00e-03<br>Significance: Upregulated")).
Proof.
  cbv zeta.
  destruct (create_volcano_plot_hover_text log10_steps (fun _ => "2.5")
              (fun _ x => x) (fun _ => "1.00e-03") DataFrame
              (fun d _ _ _ _ _ _ _ _ _ => inr d)
              {| heap := [table_example]; ui := [] |} 0 table_example
              table_example_rows "#FF0000" "#0000FF" "#808080" 0.05 1 (-1)
              1200 700 eq_refl volcano_rows_table_example)
    as (_ & _ & Tbl & _ & _ & _ & Cell & Ret & _).
  exists (with_hover_text (fun _ => "2.5") (fun _ x => x)
            (fun _ => "1.00e-03") table_example table_example_rows).
  split; [exact Tbl|]. split.
  - exact (Ret _ eq_refl).
  - exact (proj1 (Cell 0 _ eq_refl) eq_refl).
Defined.

(** X14. The table view shows what the plots have written. When the
    volcano plot, the MA transform and the table view run in the order of
    the script on an annotated table with a numeric [baseMean], and plotly
    builds the figure, the view with category ["All"] and no search text is
    a new frame equal to the annotated table as the two plots have left
    it: the columns of the table with [hover_text] and [log10(baseMean)]
    set, which are two more columns, at the end, when the table had
    neither. *)
Theorem display_table_after_plots :
  forall (np_log10 : float -> float) (str_of_float : float -> string)
         (re_compiles : string -> bool)
         (re_found_nocase : string -> string -> bool)
         (np_round : nat -> float -> float) (format_2e : float -> string)
         (Figure : Type)
         (volcano_figure :
            DataFrame -> string -> string -> string -> float -> string ->
            float -> float -> nat -> nat -> exn + Figure)
         (st : state) (df : ref) (d : DataFrame) (rows : list volcano_row)
         (bs : list float)
         (color_up color_down color_ns : string) (thr up down : float)
         (width height : nat) (fig : Figure),
    nth_error (heap st) df = Some d ->
    volcano_rows d rows ->
    numeric_column d "baseMean" bs ->
    volcano_figure (with_hover_text str_of_float np_round format_2e d rows)
                   color_up color_down color_ns (- np_log10 thr)%float
                   ("padj = " +++ str_of_float thr) up down width height
    = inr fig ->
    let hover :=
      map (hover_text_cell str_of_float np_round format_2e) rows in
    let logs :=
      map (fun b => VFloat (np_log10 (if PrimFloat.eqb b 0
                                      then 1e-10%float else b))) bs in
    exists r st' view,
      (create_volcano_plot np_log10 str_of_float np_round format_2e Figure
         volcano_figure df color_up color_down color_ns thr up down
         width height ;;;
       ma_plot_data np_log10 df ;;;
       display_table re_compiles re_found_nocase df "All" "") st
      = Returns r st' /\
      nth_error (heap st') r = Some view /\
      r = length (heap st) /\
      nth_error (heap st') df = Some view /\
      index view = index d /\
      columns view
      = assoc_set "log10(baseMean)" logs
          (assoc_set "hover_text" hover (columns d)) /\
      (~ In "hover_text" (column_names d) ->
       ~ In "log10(baseMean)" (column_names d) ->
       columns view
       = columns d ++ [("hover_text", hover); ("log10(baseMean)", logs)]).
Proof.
  intros np_log10 str_of_float re_compiles re_found_nocase np_round
    format_2e Figure volcano_figure st df d rows bs
    color_up color_down color_ns thr up down width height fig
    H R B Built hover logs.
  pose proof (nth_error_lt _ _ _ H) as Bound.
  pose proof (create_volcano_plot_run np_log10 str_of_float np_round
                format_2e Figure volcano_figure st df d rows
                color_up color_down color_ns thr up down width height H R)
    as Run.
  cbv zeta in Run. rewrite Built in Run. run_with Run.
  set (d1 := with_hover_text str_of_float np_round format_2e d rows).
  set (s1 := {| heap := update df d1 (heap st); ui := ui st |}).
  assert (nth_error (heap s1) df = Some d1) as H1
    by now apply nth_error_update_eq.
  assert (numeric_column d1 "baseMean" bs) as B1.
  { destruct B as [B Len]. split; [|exact Len].
    unfold d1, with_hover_text. cbn [columns].
    now rewrite assoc_set_ne by discriminate. }
  run_with (ma_plot_data_run np_log10 s1 df d1 bs H1 B1).
  unfold s1. cbn [heap ui]. rewrite update_update. fold logs.
  set (d2 := {| index := index d1; columns := assoc_set _ logs _ |}).
  set (s2 := {| heap := update df d2 (heap st); ui := ui st |}).
  assert (nth_error (heap s2) df = Some d2) as H2
    by now apply nth_error_update_eq.
  unfold display_table. run_with (copy_run _ _ _ H2).
  change (negb (String.eqb "All" "All")) with false.
  change (negb (String.eqb "" "")) with false. cbv iota.
  unfold ret, bind.
  exists (length (update df d2 (heap st))),
    {| heap := update df d2 (heap st) ++ [d2]; ui := ui st |}, d2.
  split; [reflexivity|]. cbn [heap].
  split; [apply nth_error_snoc|].
  split; [apply update_length|].
  split.
  { rewrite nth_error_app1; [exact H2 | now rewrite update_length]. }
  split; [reflexivity|]. split; [reflexivity|].
  intros N1 N2. unfold d2, d1, with_hover_text. cbn [columns]. fold hover.
  assert (forall k, ~ In k (column_names d) ->
                    existsb (String.eqb k) (column_names d) = false) as A.
  { intros k N. destruct (existsb _ _) eqn:E; [|reflexivity].
    now apply existsb_eqb_In in E. }
  rewrite (assoc_set_absent "hover_text") by now apply A.
  rewrite assoc_set_absent.
  - now rewrite <- app_assoc.
  - rewrite map_app, existsb_app. fold (column_names d).
    now rewrite (A _ N2).
Qed.

(** [table_example], the figure standing for itself. *)
Lemma display_table_after_plots_witness :
  exists r st' view,
    (create_volcano_plot log10_steps (fun _ => "2.5") (fun _ x => x)
       (fun _ => "1.00e-03") DataFrame (fun d _ _ _ _ _ _ _ _ _ => inr d) 0
       "#FF0000" "#0000FF" "#808080" 0.05 1 (-1) 1200 700 ;;;
     ma_plot_data log10_steps 0 ;;;
     display_table (fun _ => true) found_nocase 0 "All" "")
      {| heap := [table_example]; ui := [] |}
    = Returns r st' /\
    nth_error (heap st') r = Some view /\
    column_names view
    = ["baseMean"; "log2FoldChange"; "padj"; "gene_name"; "locus_tag";
       "Significance"; "-log10(padj)"; "hover_text"; "log10(baseMean)"].
Proof.
  destruct (display_table_after_plots log10_steps (fun _ => "2.5")
              (fun _ => true) found_nocase (fun _ x => x)
              (fun _ => "1.00e-03") DataFrame
              (fun d _ _ _ _ _ _ _ _ _ => inr d)
              {| heap := [table_example]; ui := [] |} 0 table_example
              table_example_rows [120; 0; 33; 8]%float
              "#FF0000" "#0000FF" "#808080" 0.05 1 (-1) 1200 700
              (with_hover_text (fun _ => "2.5") (fun _ x => x)
                 (fun _ => "1.00e-03") table_example table_example_rows)
              eq_refl volcano_rows_table_example (conj eq_refl eq_refl)
              eq_refl)
    as (r & st' & view & Run & View & _ & _ & _ & Cols & _).
  exists r, st', view. split; [exact Run|]. split; [exact View|].
  unfold column_names. rewrite Cols. reflexivity.
Defined.

(** ** The rows of the annotated table *)






(** ** The frames of the ingestion *)

(** X16. What the ingestion does to the frames. The loaded frame is
    changed in place, and only by the two label columns: it keeps its
    rows, also those with a missing value, and its other columns. The
    rows with both values are put in a new frame, and the annotated table
    is another new frame; the variable [df] of the script is bound to the
    first of them, and no other frame is touched. *)
Theorem main_content_frames :
  forall (np_log10 : float -> float) (str_of_float : float -> string)
         (thr up down : float) (st : state) (df : ref) (d : DataFrame)
         (ps ls : list float),
    nth_error (heap st) df = Some d ->
    labels_ready d ->
    numeric_column d "padj" ps ->
    numeric_column d "log2FoldChange" ls ->
    exists r st' d1 d2 out,
      main_content np_log10 str_of_float df thr up down st
      = Returns r st' /\
      length (heap st') = length (heap st) + 2 /\
      nth_error (heap st') df = Some d1 /\
      nth_error (heap st') (length (heap st)) = Some d2 /\
      nth_error (heap st') r = Some out /\
      r = S (length (heap st)) /\
      (forall r0, r0 <> df -> r0 < length (heap st) ->
                  nth_error (heap st') r0 = nth_error (heap st) r0) /\
      index d1 = index d /\
      (forall c, c <> "gene_name" -> c <> "locus_tag" ->
                 assoc c (columns d1) = assoc c (columns d)) /\
      (forall c, In c (column_names d1) <->
                 In c (column_names d) \/
                 c = "gene_name" \/ c = "locus_tag") /\
      d2 = take_rows (complete_rows d) d1 /\
      index out = index d2 /\
      (forall c, c <> "Significance" -> c <> "-log10(padj)" ->
                 assoc c (columns out) = assoc c (columns d2)).
Proof.
  intros np_log10 str_of_float thr up down st df d ps ls H R P L.
  pose proof (main_content_run np_log10 str_of_float thr up down st df d
                ps ls H R P L) as Run.
  cbv zeta in Run.
  pose proof (nth_error_lt _ _ _ H) as B.
  do 5 eexists. split; [exact Run|]. cbn [heap].
  split; [rewrite length_app, update_length; simpl; lia|].
  split.
  { rewrite nth_error_app1 by now rewrite update_length.
    now apply nth_error_update_eq. }
  split.
  { rewrite nth_error_app2; rewrite update_length; [|lia].
    now rewrite Nat.sub_diag. }
  split.
  { rewrite nth_error_app2; rewrite update_length; [|lia].
    replace (S (length (heap st)) - length (heap st)) with 1 by lia.
    reflexivity. }
  split; [reflexivity|].
  split.
  { intros r0 N B0. rewrite nth_error_app1 by now rewrite update_length.
    now apply nth_error_update_ne. }
  split; [reflexivity|].
  split.
  { intros c N1 N2. unfold labelled. cbn [columns].
    now rewrite !assoc_set_ne by congruence. }
  split.
  { intros c. unfold column_names, labelled. cbn [columns].
    rewrite !assoc_set_names_In. tauto. }
  split; [reflexivity|]. split; [reflexivity|].
  intros c. apply assoc_annotated_other.
Qed.

(** [unlabelled_frame]: the loaded frame keeps its four rows. *)
Lemma main_content_frames_witness :
  exists r st' d1,
    main_content log10_steps (fun _ => "") 0 0.05 1 (-1)
      {| heap := [unlabelled_frame]; ui := [] |}
    = Returns r st' /\
    nth_error (heap st') 0 = Some d1 /\
    index d1 = [Pos 0; Pos 1; Pos 2; Pos 3] /\
    column_names d1
    = ["log2FoldChange"; "padj"; "baseMean"; "gene_name"; "locus_tag"].
Proof.
  destruct (main_content_frames log10_steps (fun _ => "") 0.05 1 (-1)
              {| heap := [unlabelled_frame]; ui := [] |} 0
              unlabelled_frame
              [0.001; 0.5; 0.0001; nan]%float [2.5; nan; -3; 0.2]%float
              eq_refl)
    as (r & st' & d1 & d2 & out & Run & _ & T & _).
  - intros a E. discriminate E.
  - split; reflexivity.
  - split; reflexivity.
  - exists r, st', d1. split; [exact Run|]. split; [exact T|].
    vm_compute in Run. injection Run as <- <-.
    injection T as <-. split; reflexivity.
Defined.

(** ** Text in a required column *)

Lemma take_In_intro {A : Type} (idx : list nat) (xs : list A) (i : nat)
  (x : A) :
  In i idx -> nth_error xs i = Some x -> In x (take idx xs).
Proof.
  intros I E. induction idx as [|j idx IH]; [destruct I|]. simpl.
  destruct I as [->|I].
  - rewrite E. now left.
  - destruct (nth_error xs j); [right|]; now apply IH.
Qed.

(** [dropna] on the two required columns, whatever they hold. *)
Lemma dropna_run_cells (st : state) (df : ref) (d : DataFrame)
  (xs ys : list value) :
  nth_error (heap st) df = Some d ->
  assoc "padj" (columns d) = Some xs ->
  assoc "log2FoldChange" (columns d) = Some ys ->
  length xs = length (index d) -> length ys = length (index d) ->
  dropna df ["log2FoldChange"; "padj"] st =
    Returns (length (heap st))
      {| heap := heap st ++ [take_rows (complete_rows d) d]; ui := ui st |}.
Proof.
  intros H P L LP LL. unfold dropna.
  rewrite (bind_returns _ _ _ _ _ (deref_run _ _ _ H)).
  cbn [lookup_all]. rewrite L, P. unfold new_frame.
  rewrite nonzero_filter. unfold complete_rows.
  do 4 f_equal. f_equal. apply filter_ext_in. intros i I. apply in_seq in I.
  unfold notna_at, complete_row, cell. rewrite P, L. cbn [forallb].
  destruct (nth_error ys i) eqn:El.
  - destruct (nth_error xs i) eqn:Ep.
    + now rewrite andb_true_r.
    + apply nth_error_None in Ep. lia.
  - apply nth_error_None in El. lia.
Qed.

(** The classifier on a frame in which a required column holds text. *)
Lemma filter_deseq_data_text (np_log10 : float -> float)
  (thr up down : float) (st : state) (df : ref) (d : DataFrame)
  (xs ys : list value) :
  nth_error (heap st) df = Some d ->
  assoc "padj" (columns d) = Some xs ->
  assoc "log2FoldChange" (columns d) = Some ys ->
  floats_of xs = None \/ floats_of ys = None ->
  filter_deseq_data np_log10 df thr up down st =
    Raises TypeError {| heap := heap st ++ [d]; ui := ui st |}.
Proof.
  intros H P L T. unfold filter_deseq_data.
  rewrite (bind_returns _ _ _ _ _ (copy_run _ _ _ H)).
  set (s1 := {| heap := heap st ++ [d]; ui := ui st |}).
  assert (nth_error (heap s1) (length (heap st)) = Some d) as H1
    by apply nth_error_snoc.
  rewrite (bind_returns _ _ _ _ _ (getitem_run _ _ _ _ _ H1 P)).
  destruct (floats_of xs) as [fs|] eqn:F.
  - destruct T as [T|T]; [discriminate|].
    apply floats_of_some in F. subst xs. unfold series_lt.
    rewrite (bind_returns _ _ _ _ _ (series_cmp_floats _ fs thr s1)).
    rewrite (bind_returns _ _ _ _ _ (getitem_run _ _ _ _ _ H1 L)).
    now apply bind_raises, series_cmp_text.
  - now apply bind_raises, series_cmp_text.
Qed.

(** X17. Text in a required column. When a row that has both values holds
    text, not a number, in [padj] or in [log2FoldChange], the ingestion
    raises TypeError at the classifier's comparison and builds no table;
    the frame is taken to have a cell in both columns for each row. A row
    in which either value is missing is dropped before, whatever its other
    cell holds. *)
Theorem main_content_text_cell :
  forall (np_log10 : float -> float) (str_of_float : float -> string)
         (thr up down : float) (st : state) (df : ref) (d : DataFrame)
         (xs ys : list value) (i : nat) (t : string),
    nth_error (heap st) df = Some d ->
    labels_ready d ->
    assoc "padj" (columns d) = Some xs ->
    assoc "log2FoldChange" (columns d) = Some ys ->
    length xs = length (index d) ->
    length ys = length (index d) ->
    In i (complete_rows d) ->
    nth_error xs i = Some (VStr t) \/ nth_error ys i = Some (VStr t) ->
    exists st',
      main_content np_log10 str_of_float df thr up down st
      = Raises TypeError st'.
Proof.
  intros np_log10 str_of_float thr up down st df d xs ys i t
    H R P L LP LL I Text.
  unfold main_content.
  run_with (extract_gene_information_run str_of_float st df d H R).
  set (d1 := labelled d _ _).
  set (s1 := {| heap := update df d1 (heap st); ui := _ |}).
  assert (nth_error (heap s1) df = Some d1) as H1
    by (apply nth_error_update_eq; now apply nth_error_lt in H).
  assert (assoc "padj" (columns d1) = Some xs) as P1
    by (unfold d1, labelled; cbn [columns];
        now rewrite !assoc_set_ne by discriminate).
  assert (assoc "log2FoldChange" (columns d1) = Some ys) as L1
    by (unfold d1, labelled; cbn [columns];
        now rewrite !assoc_set_ne by discriminate).
  run_with (dropna_run_cells s1 df d1 xs ys H1 P1 L1 LP LL).
  replace (complete_rows d1) with (complete_rows d)
    by (symmetry; apply complete_rows_labelled).
  set (d2 := take_rows (complete_rows d) d1).
  set (s2 := {| heap := heap s1 ++ [d2]; ui := ui s1 |}).
  assert (nth_error (heap s2) (length (heap s1)) = Some d2) as H2
    by apply nth_error_snoc.
  eexists.
  apply (filter_deseq_data_text np_log10 thr up down s2 _ d2
           (take (complete_rows d) xs) (take (complete_rows d) ys) H2).
  - unfold d2. now rewrite assoc_take_rows, P1.
  - unfold d2. now rewrite assoc_take_rows, L1.
  - destruct Text as [E|E]; [left | right]; apply floats_of_text;
      exists t; now apply (take_In_intro _ _ i).
Qed.

(** [text_padj_frame]: its first row has both values, one of them text. *)
Lemma main_content_text_cell_witness :
  exists st',
    main_content log10_steps (fun _ => "") 0 0.05 1 (-1)
      {| heap := [text_padj_frame]; ui := [] |}
    = Raises TypeError st'.
Proof.
  apply (main_content_text_cell log10_steps (fun _ => "") 0.05 1 (-1)
           {| heap := [text_padj_frame]; ui := [] |} 0 text_padj_frame
           [VStr "<0.001"; VStr "n/a"] [VFloat 1.5; VFloat nan] 0 "<0.001"
           eq_refl).
  - intros a E. discriminate E.
  - reflexivity.
  - reflexivity.
  - reflexivity.
  - reflexivity.
  - now left.
  - now left.
Defined.
